(** * Energy-aware sensor node simulator: a shallow embedding

    The development follows the Python package [sensor_sim]:
    - [models.py]     : [EnergyModel], [NodeConfig], [SimResult];
    - [policies.py]   : [PolicyOutput], the [BasePolicy] interface and the
                        three policies;
    - [simulator.py]  : [ground_truth] and [simulate].

    Python [float] values are kept abstract: the class [PyFloat] lists the
    operations the program applies to them (including [math.sin],
    [math.pi], [int], [round]), and [PyRandom] is the module-level
    generator of [random].  Every definition below is written over an
    arbitrary instance, so the structural theorems hold whatever the
    arithmetic is; theorems that need order or exactness facts take them
    from [ExactArith].  Two instances are given: the rationals (executable,
    used for concrete runs) and the reals (with the true sine). *)

From Stdlib Require Import ZArith QArith Bool String List Lia.
From Stdlib Require Import Qround Qabs Reals Qreals Lra.
Import ListNotations.

Set Implicit Arguments.
Local Open Scope Z_scope.

(** ** Exceptions and the error monad *)

Inductive exn : Type :=
| ZeroDivisionError      (* float division by zero *)
| OverflowError          (* int() or round() of an infinity or a NaN *)
| NotImplementedError.   (* BasePolicy.step *)

Inductive result (A : Type) : Type :=
| Ok (a : A)
| Raise (e : exn).
Arguments Ok {A} a.
Arguments Raise {A} e.

Definition bind {A B} (c : result A) (k : A -> result B) : result B :=
  match c with
  | Ok a => k a
  | Raise e => Raise e
  end.

Notation "x <- c ;; k" := (bind c (fun x => k))
  (at level 61, c at next level, right associativity).
Notation "' pat <- c ;; k" := (bind c (fun x => match x with pat => k end))
  (at level 61, pat pattern, c at next level, right associativity).

Definition of_option {A} (e : exn) (o : option A) : result A :=
  match o with
  | Some a => Ok a
  | None => Raise e
  end.

Definition is_some {A} (o : option A) : bool :=
  match o with Some _ => true | None => false end.

(** ** The arithmetic the program relies on *)

(** Operations on Python floats.  [of_Q] reads a literal such as [0.33] and
    converts an [int] operand of a mixed operation.  [fdiv] is the quotient
    for a non-zero divisor; the check that makes [/] raise is [py_div]
    below.  [ftrunc], [fround] and [ffloor] are [int(x)], [round(x)] and
    [math.floor(x)]: they have no value on an infinity or a NaN. *)
Class PyFloat (F : Type) : Type := {
  of_Q : Q -> F;
  fadd : F -> F -> F;
  fsub : F -> F -> F;
  fmul : F -> F -> F;
  fdiv : F -> F -> F;
  fabs : F -> F;
  feqb : F -> F -> bool;
  fltb : F -> F -> bool;
  fleb : F -> F -> bool;
  fsin : F -> F;
  fpi : F;
  ftrunc : F -> option Z;
  fround : F -> option Z;
  ffloor : F -> option Z
}.

(** The generator behind [random.seed] and [random.gauss].  Seeding
    replaces the whole state; [rng_gauss mu sigma] draws one value and
    advances the state. *)
Class PyRandom (F : Type) : Type := {
  rng : Type;
  rng_seed : Z -> rng;
  rng_gauss : F -> F -> rng -> F * rng
}.

(** The local variables of [simulate], the policy object (of type [P])
    and the state of the generator (of type [G]), as one loop state. *)
Record LoopState (F P G : Type) : Type := {
  st_t : list Z;
  st_truth : list F;
  st_measured : list (option F);
  st_sent : list bool;
  st_reconstructed : list F;
  st_e_sleep : F;
  st_e_idle : F;
  st_e_sense : F;
  st_e_cpu : F;
  st_e_tx : F;
  st_last_measurement : option F;
  st_last_tx_value : option F;
  st_last_tx_s : option Z;
  st_samples_taken : Z;
  st_packets_sent : Z;
  st_recon_val : F;
  st_policy : P;
  st_rng : G
}.

Section Model.

Context {F : Type} {FL : PyFloat F} {RND : PyRandom F}.

Local Abbreviation loop_state P := (LoopState F P rng).

Definition of_Z (n : Z) : F := of_Q (inject_Z n).

(** [x / y] on floats. *)
Definition py_div (x y : F) : result F :=
  if feqb y (of_Q 0) then Raise ZeroDivisionError else Ok (fdiv x y).

(** [int(x)] and [round(x)] on a float. *)
Definition py_int (x : F) : result Z := of_option OverflowError (ftrunc x).
Definition py_round (x : F) : result Z := of_option OverflowError (fround x).

(** [x >= y]. *)
Definition fgeb (x y : F) : bool := fleb y x.

(** [max(a, b)]: the first argument unless the second is greater. *)
Definition py_max (a b : F) : F := if fltb a b then b else a.

(** ** models.py *)

Record EnergyModel : Type := {
  power_sleep_mw : F;
  power_idle_awake_mw : F;
  power_cpu_mw : F;
  power_sense_mw : F;
  power_tx_mw : F;
  t_sense_s : F;
  t_cpu_s : F;
  bitrate_bps : F;
  tx_overhead_s : F
}.

Definition e_sleep (self : EnergyModel) (dt : F) : F :=
  fmul (power_sleep_mw self) dt.

Definition e_idle_awake (self : EnergyModel) (dt : F) : F :=
  fmul (power_idle_awake_mw self) dt.

Definition e_sense (self : EnergyModel) : F :=
  fmul (power_sense_mw self) (t_sense_s self).

Definition e_cpu (self : EnergyModel) : F :=
  fmul (power_cpu_mw self) (t_cpu_s self).

Definition e_tx (self : EnergyModel) (payload : Z) : result F :=
  let bits := payload * 8 in
  q <- py_div (of_Z bits) (bitrate_bps self) ;;
  let t_tx := fadd (tx_overhead_s self) q in
  Ok (fmul (power_tx_mw self) t_tx).

Record NodeConfig : Type := {
  duration_s : Z;
  dt_s : F;
  payload_bytes : Z;
  seed : Z;
  signal_base : F;
  signal_amp : F;
  signal_period_s : F;
  noise_std : F;
  change_threshold : F;
  max_silence_s : Z
}.

Record SimResult : Type := {
  t : list Z;
  truth : list F;
  measured : list (option F);
  sent : list bool;
  reconstructed : list F;
  energy_total_mj : F;
  energy_breakdown_mj : list (string * F);
  samples_taken : Z;
  packets_sent : Z;
  mae : F
}.

(** ** policies.py *)

Record PolicyOutput : Type := {
  awake : bool;
  take_sample : bool;
  transmit : bool
}.

(** The interface of [BasePolicy].  An object of a policy class is a value
    of [P]: its constructor parameters together with its memory.  [step]
    returns the decision and the object as the call leaves it. *)
Class Policy (P : Type) : Type := {
  reset : P -> P;
  step : P -> Z -> option F -> option Z -> result (PolicyOutput * P)
}.

(** [BasePolicy] itself: [reset] does nothing, [step] raises. *)
Inductive BasePolicy : Type := BasePolicy_init.

#[export] Instance BasePolicy_policy : Policy BasePolicy := {
  reset self := self;
  step self t_s last_measurement last_tx_s := Raise NotImplementedError
}.

Record FixedSamplingPolicy : Type := {
  fixed_sample_every_s : Z
}.

Definition FixedSamplingPolicy_init (sample_every : Z) : FixedSamplingPolicy :=
  {| fixed_sample_every_s := Z.max 1 sample_every |}.

Definition FixedSamplingPolicy_step (self : FixedSamplingPolicy) (t_s : Z)
    (last_measurement : option F) (last_tx_s : option Z) : PolicyOutput :=
  let do := t_s mod fixed_sample_every_s self =? 0 in
  {| awake := true; take_sample := do; transmit := do |}.

#[export] Instance FixedSamplingPolicy_policy : Policy FixedSamplingPolicy := {
  reset self := self;
  step self t_s lm ltx := Ok (FixedSamplingPolicy_step self t_s lm ltx, self)
}.

Record DutyCyclingPolicy : Type := {
  duty_wake_every_s : Z;
  duty_awake_window_s : Z;
  duty_sample_every_s : Z
}.

Definition DutyCyclingPolicy_init (wake_every awake_window sample_every : Z)
  : DutyCyclingPolicy :=
  {| duty_wake_every_s := Z.max 1 wake_every;
     duty_awake_window_s := Z.max 1 awake_window;
     duty_sample_every_s := Z.max 1 sample_every |}.

Definition DutyCyclingPolicy_step (self : DutyCyclingPolicy) (t_s : Z)
    (last_measurement : option F) (last_tx_s : option Z) : PolicyOutput :=
  let phase := t_s mod duty_wake_every_s self in
  let awake := phase <? duty_awake_window_s self in
  let do := awake && (t_s mod duty_sample_every_s self =? 0) in
  {| awake := awake; take_sample := do; transmit := do |}.

#[export] Instance DutyCyclingPolicy_policy : Policy DutyCyclingPolicy := {
  reset self := self;
  step self t_s lm ltx := Ok (DutyCyclingPolicy_step self t_s lm ltx, self)
}.

Record AdaptiveThresholdPolicy : Type := {
  adapt_base_every_s : Z;
  adapt_threshold : F;
  adapt_max_silence_s : Z;
  adapt_last_tx_value : option F      (* self._last_tx_value *)
}.

Definition AdaptiveThresholdPolicy_init (base_every : Z) (threshold : F)
    (max_silence : Z) : AdaptiveThresholdPolicy :=
  {| adapt_base_every_s := Z.max 1 base_every;
     adapt_threshold := threshold;
     adapt_max_silence_s := Z.max 1 max_silence;
     adapt_last_tx_value := None |}.

Definition set_last_tx_value (self : AdaptiveThresholdPolicy) (v : option F)
  : AdaptiveThresholdPolicy :=
  {| adapt_base_every_s := adapt_base_every_s self;
     adapt_threshold := adapt_threshold self;
     adapt_max_silence_s := adapt_max_silence_s self;
     adapt_last_tx_value := v |}.

Definition AdaptiveThresholdPolicy_reset (self : AdaptiveThresholdPolicy)
  : AdaptiveThresholdPolicy := set_last_tx_value self None.

(** The transmit decision of [AdaptiveThresholdPolicy.step] once it is
    known that the tick samples and that [last_measurement] is [m]: the
    change test (or the absence of a transmitted value), then the
    keep-alive test. *)
Definition adaptive_decide (self : AdaptiveThresholdPolicy) (t_s : Z) (m : F)
    (last_tx_s : option Z) : bool :=
  let transmit :=
    match adapt_last_tx_value self with
    | None => true
    | Some v => fgeb (fabs (fsub m v)) (adapt_threshold self)
    end in
  match last_tx_s with
  | Some ltx =>
      if negb transmit
      then (if t_s - ltx >=? adapt_max_silence_s self then true else transmit)
      else transmit
  | None => transmit
  end.

Definition AdaptiveThresholdPolicy_step (self : AdaptiveThresholdPolicy)
    (t_s : Z) (last_measurement : option F) (last_tx_s : option Z)
  : PolicyOutput * AdaptiveThresholdPolicy :=
  let take_sample := t_s mod adapt_base_every_s self =? 0 in
  match last_measurement with
  | Some m =>
      if take_sample then
        let transmit := adaptive_decide self t_s m last_tx_s in
        let self' :=
          if transmit then set_last_tx_value self (Some m) else self in
        ({| awake := true; take_sample := take_sample;
            transmit := transmit |}, self')
      else
        ({| awake := true; take_sample := take_sample;
            transmit := false |}, self)
  | None =>
      ({| awake := true; take_sample := take_sample;
          transmit := false |}, self)
  end.

#[export] Instance AdaptiveThresholdPolicy_policy
  : Policy AdaptiveThresholdPolicy := {
  reset := AdaptiveThresholdPolicy_reset;
  step self t_s lm ltx := Ok (AdaptiveThresholdPolicy_step self t_s lm ltx)
}.

(** ** simulator.py *)

(** The signal of [ground_truth] for an angular frequency [w]. *)
Definition signal (w : F) (t_s : Z) (cfg : NodeConfig) : F :=
  fadd (fadd (signal_base cfg)
             (fmul (signal_amp cfg) (fsin (fmul w (of_Z t_s)))))
       (fmul (of_Q (25 # 100))
             (fsin (fmul (fmul w (of_Q (33 # 100))) (of_Z t_s)))).

Definition ground_truth (t_s : Z) (cfg : NodeConfig) : result F :=
  w <- py_div (fmul (of_Z 2) fpi) (py_max (of_Q 1) (signal_period_s cfg)) ;;
  Ok (signal w t_s cfg).

Definition initial_state {P} (policy : P) (g : rng) (recon_val : F)
  : loop_state P :=
  {| st_t := []; st_truth := []; st_measured := []; st_sent := [];
     st_reconstructed := [];
     st_e_sleep := of_Q 0; st_e_idle := of_Q 0; st_e_sense := of_Q 0;
     st_e_cpu := of_Q 0; st_e_tx := of_Q 0;
     st_last_measurement := None; st_last_tx_value := None;
     st_last_tx_s := None;
     st_samples_taken := 0; st_packets_sent := 0;
     st_recon_val := recon_val;
     st_policy := policy; st_rng := g |}.

Section Loop.

Context {P : Type} {PL : Policy P}.
Variable cfg : NodeConfig.
Variable energy : EnergyModel.

(** The head of the loop body: the tick time, the ground truth and the
    decision of the policy, which is consulted with the loop variables as
    the previous ticks left them. *)
Definition consult (i : Z) (st : loop_state P)
  : result (Z * F * PolicyOutput * P) :=
  now_s <- py_round (fmul (of_Z i) (dt_s cfg)) ;;
  gt <- ground_truth now_s cfg ;;
  '(out, policy') <-
     step (st_policy st) now_s (st_last_measurement st) (st_last_tx_s st) ;;
  Ok (now_s, gt, out, policy').

(** The rest of the loop body. *)
Definition account (st : loop_state P) (now_s : Z) (gt : F)
    (out : PolicyOutput) (policy' : P) : result (loop_state P) :=
  let e_idle' :=
    if awake out then fadd (st_e_idle st) (e_idle_awake energy (dt_s cfg))
    else st_e_idle st in
  let e_sleep' :=
    if awake out then st_e_sleep st
    else fadd (st_e_sleep st) (e_sleep energy (dt_s cfg)) in
  let sampling := awake out && take_sample out in
  let drawn := rng_gauss (of_Q 0) (noise_std cfg) (st_rng st) in
  let mval := if sampling then Some (fadd gt (fst drawn)) else None in
  let rng' := if sampling then snd drawn else st_rng st in
  let last_measurement' := if sampling then mval else st_last_measurement st in
  let e_sense' :=
    if sampling then fadd (st_e_sense st) (e_sense energy) else st_e_sense st in
  let e_cpu' :=
    if sampling then fadd (st_e_cpu st) (e_cpu energy) else st_e_cpu st in
  let samples_taken' :=
    if sampling then st_samples_taken st + 1 else st_samples_taken st in
  match last_measurement' with
  | Some m =>
      if awake out && transmit out then
        cost <- e_tx energy (payload_bytes cfg) ;;
        Ok {| st_t := st_t st ++ [now_s];
              st_truth := st_truth st ++ [gt];
              st_measured := st_measured st ++ [mval];
              st_sent := st_sent st ++ [true];
              st_reconstructed := st_reconstructed st ++ [m];
              st_e_sleep := e_sleep'; st_e_idle := e_idle';
              st_e_sense := e_sense'; st_e_cpu := e_cpu';
              st_e_tx := fadd (st_e_tx st) cost;
              st_last_measurement := last_measurement';
              st_last_tx_value := last_measurement';
              st_last_tx_s := Some now_s;
              st_samples_taken := samples_taken';
              st_packets_sent := st_packets_sent st + 1;
              st_recon_val := m;
              st_policy := policy'; st_rng := rng' |}
      else
        Ok {| st_t := st_t st ++ [now_s];
              st_truth := st_truth st ++ [gt];
              st_measured := st_measured st ++ [mval];
              st_sent := st_sent st ++ [false];
              st_reconstructed := st_reconstructed st ++ [st_recon_val st];
              st_e_sleep := e_sleep'; st_e_idle := e_idle';
              st_e_sense := e_sense'; st_e_cpu := e_cpu';
              st_e_tx := st_e_tx st;
              st_last_measurement := last_measurement';
              st_last_tx_value := st_last_tx_value st;
              st_last_tx_s := st_last_tx_s st;
              st_samples_taken := samples_taken';
              st_packets_sent := st_packets_sent st;
              st_recon_val := st_recon_val st;
              st_policy := policy'; st_rng := rng' |}
  | None =>
      Ok {| st_t := st_t st ++ [now_s];
            st_truth := st_truth st ++ [gt];
            st_measured := st_measured st ++ [mval];
            st_sent := st_sent st ++ [false];
            st_reconstructed := st_reconstructed st ++ [st_recon_val st];
            st_e_sleep := e_sleep'; st_e_idle := e_idle';
            st_e_sense := e_sense'; st_e_cpu := e_cpu';
            st_e_tx := st_e_tx st;
            st_last_measurement := last_measurement';
            st_last_tx_value := st_last_tx_value st;
            st_last_tx_s := st_last_tx_s st;
            st_samples_taken := samples_taken';
            st_packets_sent := st_packets_sent st;
            st_recon_val := st_recon_val st;
            st_policy := policy'; st_rng := rng' |}
  end.

(** One iteration of [for i in range(steps + 1)]. *)
Definition tick (i : Z) (st : loop_state P) : result (loop_state P) :=
  ' (now_s, gt, out, policy') <- consult i st ;;
  account st now_s gt out policy'.

Fixpoint run_ticks (l : list Z) (st : loop_state P) : result (loop_state P) :=
  match l with
  | [] => Ok st
  | i :: l' => st' <- tick i st ;; run_ticks l' st'
  end.

End Loop.

(** [range(n)]. *)
Definition py_range (n : Z) : list Z := map Z.of_nat (seq 0 (Z.to_nat n)).

(** The loop that accumulates the absolute error over [zip(truth,
    reconstructed)]. *)
Fixpoint abs_err (acc : F) (truth reconstructed : list F) : F :=
  match truth, reconstructed with
  | gt :: truth', rv :: reconstructed' =>
      abs_err (fadd acc (fabs (fsub gt rv))) truth' reconstructed'
  | _, _ => acc
  end.

Definition breakdown_of {P} (st : loop_state P) : list (string * F) :=
  [ ("sleep"%string, st_e_sleep st);
    ("idle_awake"%string, st_e_idle st);
    ("sensing"%string, st_e_sense st);
    ("cpu"%string, st_e_cpu st);
    ("tx"%string, st_e_tx st) ].

(** The part of [simulate] after the loop. *)
Definition finish {P} (st : loop_state P) : result SimResult :=
  let abs_err_sum := abs_err (of_Q 0) (st_truth st) (st_reconstructed st) in
  mae <- py_div abs_err_sum
           (of_Z (Z.max 1 (Z.of_nat (List.length (st_truth st))))) ;;
  let e_total :=
    fadd (fadd (fadd (fadd (st_e_sleep st) (st_e_idle st)) (st_e_sense st))
               (st_e_cpu st))
         (st_e_tx st) in
  Ok {| t := st_t st;
        truth := st_truth st;
        measured := st_measured st;
        sent := st_sent st;
        reconstructed := st_reconstructed st;
        energy_total_mj := e_total;
        energy_breakdown_mj := breakdown_of st;
        samples_taken := st_samples_taken st;
        packets_sent := st_packets_sent st;
        mae := mae |}.

(** The loop state on which [simulate] enters its loop: the generator is
    reseeded and the policy reset, whatever they were before the call. *)
Definition enter {P} {PL : Policy P} (policy : P) (cfg : NodeConfig)
  : result (loop_state P) :=
  let g := rng_seed (seed cfg) in
  let policy := reset policy in
  recon_val <- ground_truth 0 cfg ;;
  Ok (initial_state policy g recon_val).

(** [simulate policy cfg energy], run with the module-level generator in
    state [ambient].  Besides the [SimResult] it returns the policy object
    and the generator as the call leaves them. *)
Definition simulate {P} {PL : Policy P} (policy : P) (cfg : NodeConfig)
    (energy : EnergyModel) (ambient : rng) : result (SimResult * P * rng) :=
  st0 <- enter policy cfg ;;
  q <- py_div (of_Z (duration_s cfg)) (dt_s cfg) ;;
  steps <- py_int q ;;
  st <- run_ticks cfg energy (py_range (steps + 1)) st0 ;;
  r <- finish st ;;
  Ok (r, st_policy st, st_rng st).

End Model.

(** ** Notions used to state the properties *)

Section Notions.

Context {F : Type} {FL : PyFloat F} {RND : PyRandom F}.

Local Abbreviation loop_state P := (LoopState F P rng).

(** [0 <= x] as the program would test it. *)
Definition nonneg (x : F) : Prop := fleb (of_Q 0) x = true.

(** Every field of an [EnergyModel] is non-negative. *)
Definition energy_nonneg (e : EnergyModel) : Prop :=
  nonneg (power_sleep_mw e) /\ nonneg (power_idle_awake_mw e) /\
  nonneg (power_cpu_mw e) /\ nonneg (power_sense_mw e) /\
  nonneg (power_tx_mw e) /\ nonneg (t_sense_s e) /\ nonneg (t_cpu_s e) /\
  nonneg (bitrate_bps e) /\ nonneg (tx_overhead_s e).

(** The value stored under a key of the breakdown dictionary. *)
Fixpoint lookup (k : string) (d : list (string * F)) : option F :=
  match d with
  | [] => None
  | (k', v) :: d' => if String.eqb k k' then Some v else lookup k d'
  end.

(** The most recent measurement in a [measured] sequence. *)
Fixpoint most_recent (acc : option F) (l : list (option F)) : option F :=
  match l with
  | [] => acc
  | Some m :: l' => most_recent (Some m) l'
  | None :: l' => most_recent acc l'
  end.

(** What the loop body decides from the policy output and the loop
    variables it starts from. *)
Definition sampling (out : PolicyOutput) : bool :=
  awake out && take_sample out.

Definition mval_of {P} (cfg : NodeConfig) (st : loop_state P) (gt : F)
    (out : PolicyOutput) : option F :=
  if sampling out
  then Some (fadd gt (fst (rng_gauss (of_Q 0) (noise_std cfg) (st_rng st))))
  else None.

Definition last_measurement_of {P} (cfg : NodeConfig) (st : loop_state P)
    (gt : F) (out : PolicyOutput) : option F :=
  if sampling out then mval_of cfg st gt out else st_last_measurement st.

Definition sending {P} (cfg : NodeConfig) (st : loop_state P) (gt : F)
    (out : PolicyOutput) : bool :=
  awake out && transmit out && is_some (last_measurement_of cfg st gt out).

(** The loop variable [last_measurement] is the most recent entry of
    [measured] that is present. *)
Definition tracks_measured {P} (st : loop_state P) : Prop :=
  st_last_measurement st = most_recent None (st_measured st).

(** Every packet recorded so far was preceded by a measurement. *)
Definition sent_after_measured {P} (st : loop_state P) : Prop :=
  length (st_sent st) = length (st_measured st) /\
  tracks_measured st /\
  forall i, nth_error (st_sent st) i = Some true ->
    exists j m, (j <= i)%nat /\ nth_error (st_measured st) j = Some (Some m).

(** The five energy accumulators are non-negative. *)
Definition energies_nonneg {P} (st : loop_state P) : Prop :=
  nonneg (st_e_sleep st) /\ nonneg (st_e_idle st) /\ nonneg (st_e_sense st) /\
  nonneg (st_e_cpu st) /\ nonneg (st_e_tx st).

(** A policy class whose [reset] brings an object back to the state its
    constructor arguments determine, whatever [step] calls it went
    through. *)
Class ResetRestores (P : Type) {PL : @Policy F P} : Prop := {
  reset_reset : forall p : P, reset (reset p) = reset p;
  reset_step : forall (p p' : P) t_s lm ltx out,
    step p t_s lm ltx = Ok (out, p') -> reset p' = reset p
}.

(** The angular frequency [w] that [ground_truth] computes. *)
Definition omega (cfg : NodeConfig) : F :=
  fdiv (fmul (of_Z 2) fpi) (py_max (of_Q 1) (signal_period_s cfg)).


(** The change test of the adaptive policy is negative in a loop state. *)
Definition quiet (st : loop_state (@AdaptiveThresholdPolicy F)) : Prop :=
  forall m v,
    st_last_measurement st = Some m ->
    adapt_last_tx_value (st_policy st) = Some v ->
    fgeb (fabs (fsub m v)) (adapt_threshold (st_policy st)) = false.

(** The part of a loop state that holds no float. *)
Record observation : Type := {
  obs_sampled : bool;          (* last_measurement is not None *)
  obs_remembers : bool;        (* policy._last_tx_value is not None *)
  obs_last_tx_s : option Z;
  obs_samples_taken : Z;
  obs_packets_sent : Z;
  obs_measured : list bool;    (* which entries of measured are present *)
  obs_sent : list bool
}.

Definition observe (st : loop_state (@AdaptiveThresholdPolicy F))
  : observation :=
  {| obs_sampled := is_some (st_last_measurement st);
     obs_remembers := is_some (adapt_last_tx_value (st_policy st));
     obs_last_tx_s := st_last_tx_s st;
     obs_samples_taken := st_samples_taken st;
     obs_packets_sent := st_packets_sent st;
     obs_measured := map is_some (st_measured st);
     obs_sent := st_sent st |}.

(** The decision of the adaptive policy when its change test is negative,
    in terms of an observation. *)
Definition quiet_transmit (base_every max_silence now_s : Z) (o : observation)
  : bool :=
  let keep_alive :=
    match obs_last_tx_s o with
    | Some ltx => now_s - ltx >=? max_silence
    | None => false
    end in
  (now_s mod base_every =? 0) && obs_sampled o
  && (negb (obs_remembers o) || keep_alive).

(** One iteration of the loop on observations, under the same condition. *)
Definition quiet_tick (base_every max_silence : Z) (o : observation) (now_s : Z)
  : observation :=
  let take_sample := now_s mod base_every =? 0 in
  let transmit := quiet_transmit base_every max_silence now_s o in
  {| obs_sampled := take_sample || obs_sampled o;
     obs_remembers := transmit || obs_remembers o;
     obs_last_tx_s := if transmit then Some now_s else obs_last_tx_s o;
     obs_samples_taken :=
       if take_sample then obs_samples_taken o + 1 else obs_samples_taken o;
     obs_packets_sent :=
       if transmit then obs_packets_sent o + 1 else obs_packets_sent o;
     obs_measured := obs_measured o ++ [take_sample];
     obs_sent := obs_sent o ++ [transmit] |}.

(** The observations of the ticks [l], run from [o]. *)
Definition quiet_run (base_every max_silence : Z) (l : list Z) (o : observation)
  : observation :=
  fold_left (quiet_tick base_every max_silence) l o.

(** The decision a [step] call returns, if it returns. *)
Definition outcome_of_step {P} (r : result (PolicyOutput * P))
  : option PolicyOutput :=
  match r with
  | Ok (out, _) => Some out
  | Raise _ => None
  end.

(** The [SimResult] of a call, or the exception it raises. *)
Definition outcome {P} (r : result (@SimResult F * P * rng))
  : result (@SimResult F) :=
  match r with
  | Ok (res, _, _) => Ok res
  | Raise e => Raise e
  end.

End Notions.

(** The facts about the arithmetic that the proofs use.  Exact arithmetic
    (the rationals, the reals) satisfies all of them; so do IEEE doubles as
    long as no infinity or NaN arises and the integers involved are below
    [2^53]. *)
Class ExactArith (F : Type) {FL : PyFloat F} : Prop := {
  of_Z_nonneg : forall n, 0 <= n -> fleb (of_Q 0) (of_Z n) = true;
  of_Z_nonzero : forall n, n <> 0 -> feqb (of_Z n) (of_Q 0) = false;
  gt_one_nonzero : forall x, fltb (of_Q 1) x = true -> feqb x (of_Q 0) = false;
  lt_le : forall x y, fltb x y = true -> fleb x y = true;
  add_nonneg : forall x y, nonneg x -> nonneg y -> nonneg (fadd x y);
  mul_nonneg : forall x y, nonneg x -> nonneg y -> nonneg (fmul x y);
  div_nonneg : forall x y, nonneg x -> nonneg y -> feqb y (of_Q 0) = false ->
    nonneg (fdiv x y);
  trunc_floor : forall x, nonneg x -> ftrunc x = ffloor x;
  floor_nonneg : forall x n, nonneg x -> ffloor x = Some n -> 0 <= n;
  trunc_total : forall x, ftrunc x <> None;
  round_total : forall x, fround x <> None;
  round_unit_step : forall i, fround (fmul (of_Z i) (of_Q 1)) = Some i;
  trunc_unit_quot : forall n, ftrunc (fdiv (of_Z n) (of_Q 1)) = Some n
}.

(** ** The rational instance *)

Module QModel.

Local Open Scope Q_scope.

(** Python's [round]: to the nearest integer, ties to the even one. *)
Definition round_half_even (x : Q) : Z :=
  let f := Qfloor x in
  let r := x - inject_Z f in
  if Qle_bool r (1 # 2)
  then (if Qeq_bool r (1 # 2) then (if Z.even f then f else (f + 1)%Z) else f)
  else (f + 1)%Z.

Definition truncate (x : Q) : Z := Z.quot (Qnum x) (Zpos (Qden x)).

Definition qpi : Q := 355 # 113.

(** A rational stand-in for the sine: Bhaskara's quotient on [0, pi],
    extended by symmetry and period. *)
Definition bhaskara (y : Q) : Q :=
  let p := y * (qpi - y) in
  Qred ((16 * p) / (5 * qpi * qpi - 4 * p)).

Definition qsin (x : Q) : Q :=
  let k := Qfloor (x / (2 * qpi)) in
  let y := Qred (x - inject_Z k * (2 * qpi)) in
  if Qle_bool y qpi then bhaskara y else Qred (- bhaskara (y - qpi)).

#[export] Instance Q_float : PyFloat Q := {
  of_Q q := q;
  fadd x y := Qred (x + y);
  fsub x y := Qred (x - y);
  fmul x y := Qred (x * y);
  fdiv x y := Qred (x / y);
  fabs x := Qabs x;
  feqb := Qeq_bool;
  fltb x y := negb (Qle_bool y x);
  fleb := Qle_bool;
  fsin := qsin;
  fpi := qpi;
  ftrunc x := Some (truncate x);
  fround x := Some (round_half_even x);
  ffloor x := Some (Qfloor x)
}.

(** A linear congruential generator standing in for the Mersenne twister:
    the draw is [mu + sigma * u] with [u] in [[-1, 1]]. *)
Definition lcg_next (g : Z) : Z := ((g * 1103515245 + 12345) mod 2147483648)%Z.

Definition lcg_unit (g : Z) : Q := (g mod 201 - 100)%Z # 100.

#[export] Instance Q_random : PyRandom Q := {
  rng := Z;
  rng_seed s := lcg_next s;
  rng_gauss mu sigma g := (Qred (mu + sigma * lcg_unit g), lcg_next g)
}.

(** [EnergyModel()] and [NodeConfig()] with their default field values. *)
Definition default_energy : @EnergyModel Q :=
  {| power_sleep_mw := 1 # 2;
     power_idle_awake_mw := 15;
     power_cpu_mw := 35;
     power_sense_mw := 25;
     power_tx_mw := 120;
     t_sense_s := 10 # 1000;
     t_cpu_s := 4 # 1000;
     bitrate_bps := 250000;
     tx_overhead_s := 2 # 1000 |}.

Definition config (duration : Z) (dt : Q) (payload : Z) (period : Q)
  : @NodeConfig Q :=
  {| duration_s := duration;
     dt_s := dt;
     payload_bytes := payload;
     seed := 42;
     signal_base := 20;
     signal_amp := 3;
     signal_period_s := period;
     noise_std := 2 # 10;
     change_threshold := 1 # 2;
     max_silence_s := 30 |}.

Definition default_config : @NodeConfig Q := config 600 1 24 120.

(** A state of the module-level generator before a call. *)
Definition ambient_0 : @rng Q Q_random := 0%Z.

(** The policies that [main.py] and the specification's examples build. *)
Definition fixed_5 : FixedSamplingPolicy := FixedSamplingPolicy_init 5.

Definition duty_10_2_5 : DutyCyclingPolicy := DutyCyclingPolicy_init 10 2 5.

Definition adaptive_2_1000_10 : @AdaptiveThresholdPolicy Q :=
  AdaptiveThresholdPolicy_init 2 1000 10.

(** A policy from outside the package: it samples at time 0 only and asks
    for a transmission at every tick. *)
Inductive ResendPolicy : Type := ResendPolicy_init.

#[export] Instance ResendPolicy_policy : @Policy Q ResendPolicy := {
  reset self := self;
  step self t_s lm ltx :=
    Ok ({| awake := true; take_sample := (t_s =? 0)%Z; transmit := true |},
        self)
}.

(** Every measurement of a [measured] sequence lies in [[lo, hi]]. *)
Definition measurements_within (lo hi : Q) (l : list (option Q)) : bool :=
  forallb (fun m => match m with
                    | Some x => Qle_bool lo x && Qle_bool x hi
                    | None => true
                    end) l.

End QModel.

(** ** The real instance *)

Module RModel.

Local Open Scope R_scope.

Definition Reqb (x y : R) : bool := if Req_dec_T x y then true else false.
Definition Rltb (x y : R) : bool := if Rlt_dec x y then true else false.
Definition Rleb (x y : R) : bool := if Rle_dec x y then true else false.

Definition Rtruncate (x : R) : Z :=
  if Rle_dec 0 x then Int_part x else (- Int_part (- x))%Z.

Definition Rround_half_even (x : R) : Z :=
  let f := Int_part x in
  let r := x - IZR f in
  if Rlt_dec r (1 / 2) then f
  else if Rlt_dec (1 / 2) r then (f + 1)%Z
  else if Z.even f then f else (f + 1)%Z.

#[export] Instance R_float : PyFloat R := {
  of_Q := Q2R;
  fadd := Rplus;
  fsub := Rminus;
  fmul := Rmult;
  fdiv := Rdiv;
  fabs := Rabs;
  feqb := Reqb;
  fltb := Rltb;
  fleb := Rleb;
  fsin := sin;
  fpi := PI;
  ftrunc x := Some (Rtruncate x);
  fround x := Some (Rround_half_even x);
  ffloor x := Some (Int_part x)
}.

(** The signal as the specification words it: the base, the primary
    sinusoid of period [period] and a secondary term of amplitude 0.25 at
    0.33 times the primary frequency. *)
Definition ground_truth_spec (base amp period : R) (time : R) : R :=
  base + amp * sin (2 * PI * time / period)
  + 0.25 * sin (2 * PI * 0.33 * time / period).

(** A signal of period one half, with the default base and amplitude. *)
Definition fast_signal : @NodeConfig R :=
  {| duration_s := 600;
     dt_s := 1;
     payload_bytes := 24;
     seed := 42;
     signal_base := 20;
     signal_amp := 3;
     signal_period_s := 1 / 2;
     noise_std := 2 / 10;
     change_threshold := 1 / 2;
     max_silence_s := 30 |}.

(** The default signal: period 120. *)
Definition default_signal : @NodeConfig R :=
  {| duration_s := 600;
     dt_s := 1;
     payload_bytes := 24;
     seed := 42;
     signal_base := 20;
     signal_amp := 3;
     signal_period_s := 120;
     noise_std := 2 / 10;
     change_threshold := 1 / 2;
     max_silence_s := 30 |}.

End RModel.

(** ** The rest of the package *)

(** *** Dictionaries, as [load_cfg] of [main.py] uses them

    A Python [dict] is an association list without repeated keys, in
    insertion order. *)

Section Dict.

Variable V : Type.

(** [k in d]. *)
Fixpoint dict_mem (k : string) (d : list (string * V)) : bool :=
  match d with
  | [] => false
  | (k', _) :: d' => if String.eqb k k' then true else dict_mem k d'
  end.

(** [d.get(k)]. *)
Fixpoint dict_get (k : string) (d : list (string * V)) : option V :=
  match d with
  | [] => None
  | (k', v) :: d' => if String.eqb k k' then Some v else dict_get k d'
  end.

(** [d[k] = v]: the value of an existing key is replaced in place, a new
    key goes to the end. *)
Fixpoint dict_set (k : string) (v : V) (d : list (string * V))
  : list (string * V) :=
  match d with
  | [] => [(k, v)]
  | (k', v') :: d' =>
      if String.eqb k k' then (k', v) :: d' else (k', v') :: dict_set k v d'
  end.

(** The loop of [load_cfg]:
    [for k, v in data.items(): if k in d: d[k] = v]. *)
Definition override (d data : list (string * V)) : list (string * V) :=
  fold_left (fun acc kv =>
               if dict_mem (fst kv) acc then dict_set (fst kv) (snd kv) acc
               else acc)
            data d.

End Dict.

Section Package.

Context {F : Type} {FL : PyFloat F} {RND : PyRandom F}.

Local Abbreviation loop_state P := (LoopState F P rng).

(** The value of a field of a [NodeConfig]. *)
Inductive field_value : Type :=
| IntField (n : Z)
| FloatField (x : F).

(** [dataclasses.asdict(cfg)]. *)
Definition asdict (cfg : @NodeConfig F) : list (string * field_value) :=
  [ ("duration_s"%string, IntField (duration_s cfg));
    ("dt_s"%string, FloatField (dt_s cfg));
    ("payload_bytes"%string, IntField (payload_bytes cfg));
    ("seed"%string, IntField (seed cfg));
    ("signal_base"%string, FloatField (signal_base cfg));
    ("signal_amp"%string, FloatField (signal_amp cfg));
    ("signal_period_s"%string, FloatField (signal_period_s cfg));
    ("noise_std"%string, FloatField (noise_std cfg));
    ("change_threshold"%string, FloatField (change_threshold cfg));
    ("max_silence_s"%string, IntField (max_silence_s cfg)) ].

(** The dictionary from which [load_cfg] builds its [NodeConfig] when the
    configuration file holds [data]. *)
Definition load_cfg_dict (cfg : @NodeConfig F) (data : list (string * field_value))
  : list (string * field_value) :=
  override (asdict cfg) data.

(** An object of one of the three policy classes, as [build_policy]
    returns it; [reset] and [step] dispatch on the class. *)
Inductive PackagePolicy : Type :=
| Fixed (p : FixedSamplingPolicy)
| Duty (p : DutyCyclingPolicy)
| Adaptive (p : @AdaptiveThresholdPolicy F).

#[export] Instance PackagePolicy_policy : @Policy F PackagePolicy := {
  reset self :=
    match self with
    | Fixed p => Fixed (@reset F _ _ p)
    | Duty p => Duty (@reset F _ _ p)
    | Adaptive p => Adaptive (@reset F _ _ p)
    end;
  step self t_s lm ltx :=
    match self with
    | Fixed p => ' (out, p') <- step p t_s lm ltx ;; Ok (out, Fixed p')
    | Duty p => ' (out, p') <- step p t_s lm ltx ;; Ok (out, Duty p')
    | Adaptive p => ' (out, p') <- step p t_s lm ltx ;; Ok (out, Adaptive p')
    end
}.

(** [build_policy] of [main.py], on the value of [args.policy]. *)
Definition build_policy (policy : string) (cfg : @NodeConfig F) : PackagePolicy :=
  if String.eqb policy "fixed" then Fixed (FixedSamplingPolicy_init 5)
  else if String.eqb policy "duty" then Duty (DutyCyclingPolicy_init 10 2 5)
  else Adaptive (AdaptiveThresholdPolicy_init 2 (change_threshold cfg)
                   (max_silence_s cfg)).

(** What the constructors establish: every period and window is at least
    one second, so that no modulo has a zero divisor. *)
Definition positive_periods (p : PackagePolicy) : bool :=
  match p with
  | Fixed f => 1 <=? fixed_sample_every_s f
  | Duty d =>
      (1 <=? duty_wake_every_s d) && (1 <=? duty_awake_window_s d)
      && (1 <=? duty_sample_every_s d)
  | Adaptive a => (1 <=? adapt_base_every_s a) && (1 <=? adapt_max_silence_s a)
  end.

(** [p'] is an object of the class of [p] with the attributes that the
    constructor of [p] set: only the memory of an adaptive policy may
    differ. *)
Definition same_settings (p p' : PackagePolicy) : Prop :=
  match p, p' with
  | Fixed f, Fixed f' => f' = f
  | Duty d, Duty d' => d' = d
  | Adaptive a, Adaptive a' =>
      adapt_base_every_s a' = adapt_base_every_s a /\
      adapt_threshold a' = adapt_threshold a /\
      adapt_max_silence_s a' = adapt_max_silence_s a
  | _, _ => False
  end.

(** The policies that sample and transmit together. *)
Definition lockstep (p : PackagePolicy) : bool :=
  match p with
  | Fixed _ | Duty _ => true
  | Adaptive _ => false
  end.

(** The policies that are awake at every tick: the fixed and the adaptive
    one, and a duty-cycling one whose window covers its period. *)
Definition always_awake (p : PackagePolicy) : bool :=
  match p with
  | Fixed _ | Adaptive _ => true
  | Duty d => duty_wake_every_s d <=? duty_awake_window_s d
  end.

(** The value of an accumulator after [n] additions of [x] to [0.0]. *)
Fixpoint accumulate (n : nat) (x : F) : F :=
  match n with
  | O => of_Q 0
  | S n' => fadd (accumulate n' x) x
  end.

(** The number of measurements in a [measured] sequence and of packets in
    a [sent] sequence. *)
Definition count_present (l : list (option F)) : nat :=
  length (filter is_some l).

Definition count_true (l : list bool) : nat :=
  length (filter (fun b => b) l).

(** What a receiver holds after one more tick: the pair of the value it
    shows and the latest measurement of the node, from the tick's entry of
    [measured] and of [sent]. *)
Definition hold_step (acc : F * option F) (x : option F * bool)
  : F * option F :=
  let latest := match fst x with Some m => Some m | None => snd acc end in
  (if snd x then match latest with Some m => m | None => fst acc end
   else fst acc,
   latest).

(** The values a receiver shows over the ticks [l], starting from [acc]. *)
Fixpoint hold (acc : F * option F) (l : list (option F * bool)) : list F :=
  match l with
  | [] => []
  | x :: l' => fst (hold_step acc x) :: hold (hold_step acc x) l'
  end.

(** One more tick of sensing: a sampling tick draws from the generator
    and records the ground truth plus the draw, another tick records
    nothing and leaves the generator alone. *)
Definition sense_step (sigma : F) (acc : list (option F) * rng)
    (x : F * bool) : list (option F) * rng :=
  if snd x
  then (fst acc ++ [Some (fadd (fst x)
                            (fst (rng_gauss (of_Q 0) sigma (snd acc))))],
        snd (rng_gauss (of_Q 0) sigma (snd acc)))
  else (fst acc ++ [None], snd acc).

(** The measurements and the final generator state obtained from the
    ground truth sequence and the flags of the sampling ticks. *)
Definition sense (sigma : F) (g : rng) (truth : list F) (sampled : list bool)
  : list (option F) * rng :=
  fold_left (sense_step sigma) (combine truth sampled) ([], g).

(** The counters agree with the sequences, and the sensing and CPU
    accumulators with the counters. *)
Definition counts_agree {P} (energy : @EnergyModel F) (st : loop_state P) : Prop :=
  st_samples_taken st = Z.of_nat (count_present (st_measured st)) /\
  st_packets_sent st = Z.of_nat (count_true (st_sent st)) /\
  st_e_sense st = accumulate (count_present (st_measured st)) (e_sense energy) /\
  st_e_cpu st = accumulate (count_present (st_measured st)) (e_cpu energy).

(** The transmission accumulator: one cost per packet, and no packet at
    all when the cost cannot be computed. *)
Definition tx_agrees {P} (cfg : @NodeConfig F) (energy : @EnergyModel F)
    (st : loop_state P) : Prop :=
  match e_tx energy (payload_bytes cfg) with
  | Ok cost => st_e_tx st = accumulate (count_true (st_sent st)) cost
  | Raise _ => count_true (st_sent st) = 0%nat /\ st_e_tx st = of_Q 0
  end.

(** The idle and sleep accumulators: one of them grows at each tick. *)
Definition awake_agrees {P} (cfg : @NodeConfig F) (energy : @EnergyModel F)
    (st : loop_state P) : Prop :=
  exists up down : nat,
    (up + down)%nat = length (st_t st) /\
    st_e_idle st = accumulate up (e_idle_awake energy (dt_s cfg)) /\
    st_e_sleep st = accumulate down (e_sleep energy (dt_s cfg)).

(** The reconstruction and the loop variables behind it are those of a
    receiver that holds the last transmitted value. *)
Definition holds_last {P} (rv0 : F) (st : loop_state P) : Prop :=
  length (st_measured st) = length (st_sent st) /\
  st_reconstructed st = hold (rv0, None) (combine (st_measured st) (st_sent st)) /\
  (st_recon_val st, st_last_measurement st)
    = fold_left hold_step (combine (st_measured st) (st_sent st)) (rv0, None).

(** A packet recorded at a tick carries the most recent measurement up
    to and including that tick, and the receiver shows it from then on. *)
Definition shows_latest {P} (st : loop_state P) : Prop :=
  length (st_sent st) = length (st_measured st) /\
  length (st_reconstructed st) = length (st_measured st) /\
  tracks_measured st /\
  forall i, nth_error (st_sent st) i = Some true ->
    exists m, most_recent None (firstn (S i) (st_measured st)) = Some m /\
              nth_error (st_reconstructed st) i = Some m.

(** Invariants of the runs of the policies of the package: the periods
    stay positive; a packet is only recorded at a tick that sampled; a
    lockstep policy sends at exactly the sampling ticks; an always-awake
    policy accumulates no sleep energy. *)
Definition periods_kept (st : loop_state PackagePolicy) : Prop :=
  positive_periods (st_policy st) = true.

Definition samples_when_sent (st : loop_state PackagePolicy) : Prop :=
  periods_kept st /\
  Forall2 (fun (s : bool) (m : option F) => s = true -> is_some m = true)
          (st_sent st) (st_measured st).

Definition sends_when_samples (st : loop_state PackagePolicy) : Prop :=
  periods_kept st /\ lockstep (st_policy st) = true /\
  st_sent st = map is_some (st_measured st).

Definition never_slept (cfg : @NodeConfig F) (energy : @EnergyModel F)
    (st : loop_state PackagePolicy) : Prop :=
  periods_kept st /\ always_awake (st_policy st) = true /\
  st_e_sleep st = of_Q 0 /\
  st_e_idle st = accumulate (length (st_t st)) (e_idle_awake energy (dt_s cfg)).

(** A fixed policy of period [n] samples at the ticks whose time is a
    multiple of [n]. *)
Definition samples_on_multiples (n : Z) (st : loop_state PackagePolicy)
  : Prop :=
  st_policy st = Fixed {| fixed_sample_every_s := n |} /\
  map is_some (st_measured st) = map (fun now_s => now_s mod n =? 0) (st_t st).

(** Once a packet has been sent, a measurement has been taken. *)
Definition tx_after_measurement {P} (st : loop_state P) : Prop :=
  tracks_measured st /\
  (is_some (st_last_tx_s st) = true ->
   is_some (st_last_measurement st) = true).

(** The measurements and the generator are those of [sense]. *)
Definition senses {P} (cfg : @NodeConfig F) (g0 : rng) (st : loop_state P) : Prop :=
  length (st_truth st) = length (st_measured st) /\
  (st_measured st, st_rng st)
    = sense (noise_std cfg) g0 (st_truth st) (map is_some (st_measured st)).

(** The time axis and the ground truth along it. *)
Definition on_time_axis {P} (cfg : @NodeConfig F) (st : loop_state P) : Prop :=
  Forall2 (fun now_s gt => ground_truth now_s cfg = Ok gt)
          (st_t st) (st_truth st).

End Package.

(** ** Concrete runs of the package *)

Module QPackage.

Import QModel.
Local Open Scope Q_scope.

(** An energy model whose radio has no bit rate. *)
Definition dead_radio : @EnergyModel Q :=
  {| power_sleep_mw := 1 # 2;
     power_idle_awake_mw := 15;
     power_cpu_mw := 35;
     power_sense_mw := 25;
     power_tx_mw := 120;
     t_sense_s := 10 # 1000;
     t_cpu_s := 4 # 1000;
     bitrate_bps := 0;
     tx_overhead_s := 2 # 1000 |}.

(** A configuration without sensor noise. *)
Definition noiseless_config : @NodeConfig Q :=
  {| duration_s := 6;
     dt_s := 1;
     payload_bytes := 24;
     seed := 42;
     signal_base := 20;
     signal_amp := 3;
     signal_period_s := 120;
     noise_std := 0;
     change_threshold := 1 # 2;
     max_silence_s := 30 |}.

Definition short_config : @NodeConfig Q := config 20 1 24 120.

Definition brief_config : @NodeConfig Q := config 1 1 24 120.

(** The three policies of [build_policy]. *)
Definition package_fixed : @PackagePolicy Q := build_policy "fixed" short_config.

Definition package_duty : @PackagePolicy Q := build_policy "duty" short_config.

Definition package_adaptive : @PackagePolicy Q :=
  build_policy "adaptive" short_config.

Definition fixed_1 : FixedSamplingPolicy := FixedSamplingPolicy_init 1.

(** The content of a configuration file: two fields of [NodeConfig] and a
    key that is none. *)
Definition file_data : list (string * @field_value Q) :=
  [ ("duration_s"%string, IntField 60%Z);
    ("colour"%string, IntField 3%Z);
    ("noise_std"%string, FloatField (1 # 10)) ].

End QPackage.

(** * Properties *)

Section Properties.

Context {F : Type} {FL : PyFloat F} {RND : PyRandom F}.

Local Abbreviation loop_state P := (LoopState F P rng).

(** ** The error monad *)

Lemma bind_ok {A B} (c : result A) (k : A -> result B) (b : B) :
  bind c k = Ok b -> exists a, c = Ok a /\ k a = Ok b.
Proof.
  destruct c as [a|e]; simpl; intros H.
  - exists a; split; [reflexivity | exact H].
  - discriminate H.
Qed.

Lemma of_option_ok {A} (e : exn) (o : option A) (a : A) :
  of_option e o = Ok a -> o = Some a.
Proof. destruct o; simpl; intros H; inversion H; reflexivity. Qed.

Lemma py_div_ok (x y q : F) :
  py_div x y = Ok q -> feqb y (of_Q 0) = false /\ q = fdiv x y.
Proof.
  unfold py_div. destruct (feqb y (of_Q 0)); intros H; inversion H.
  split; reflexivity.
Qed.

Lemma py_div_nonzero (x y : F) :
  feqb y (of_Q 0) = false -> py_div x y = Ok (fdiv x y).
Proof. unfold py_div. intros ->. reflexivity. Qed.

(** ** One iteration of the loop *)

Section LoopFacts.

Context {P : Type} {PL : @Policy F P}.
Variable cfg : @NodeConfig F.
Variable energy : @EnergyModel F.

Lemma tick_ok (i : Z) (st st' : loop_state P) :
  tick cfg energy i st = Ok st' ->
  exists now_s gt out policy',
    consult cfg i st = Ok (now_s, gt, out, policy') /\
    account cfg energy st now_s gt out policy' = Ok st'.
Proof.
  unfold tick. intros H. apply bind_ok in H.
  destruct H as ([[[now_s gt] out] policy'] & Hc & Ha).
  exists now_s, gt, out, policy'. split; assumption.
Qed.

Lemma consult_ok (i : Z) (st : loop_state P) now_s gt out policy' :
  consult cfg i st = Ok (now_s, gt, out, policy') ->
  fround (fmul (of_Z i) (dt_s cfg)) = Some now_s /\
  ground_truth now_s cfg = Ok gt /\
  step (st_policy st) now_s (st_last_measurement st) (st_last_tx_s st)
    = Ok (out, policy').
Proof.
  unfold consult. intros H.
  apply bind_ok in H. destruct H as (n & Hn & H).
  apply bind_ok in H. destruct H as (g & Hg & H).
  apply bind_ok in H. destruct H as ([o p] & Hs & H).
  inversion H; subst. apply of_option_ok in Hn. repeat split; assumption.
Qed.

(** The sequences and the bookkeeping after the body of the loop. *)
Lemma account_lists (st st' : loop_state P) now_s gt out policy' :
  account cfg energy st now_s gt out policy' = Ok st' ->
  st_t st' = st_t st ++ [now_s] /\
  st_truth st' = st_truth st ++ [gt] /\
  st_measured st' = st_measured st ++ [mval_of cfg st gt out] /\
  st_sent st' = st_sent st ++ [sending cfg st gt out] /\
  (exists rv, st_reconstructed st' = st_reconstructed st ++ [rv]) /\
  st_last_measurement st' = last_measurement_of cfg st gt out /\
  st_policy st' = policy'.
Proof.
  unfold account, sending, last_measurement_of, mval_of, sampling.
  destruct (awake out), (take_sample out), (transmit out); simpl;
    try destruct (st_last_measurement st); simpl; intros H;
    try (apply bind_ok in H; destruct H as (cost & _ & H));
    inversion H; subst; simpl; repeat split; eauto.
Qed.

Lemma account_counters (st st' : loop_state P) now_s gt out policy' :
  account cfg energy st now_s gt out policy' = Ok st' ->
  st_samples_taken st' =
    (if sampling out then st_samples_taken st + 1 else st_samples_taken st) /\
  st_packets_sent st' =
    (if sending cfg st gt out then st_packets_sent st + 1
     else st_packets_sent st) /\
  st_last_tx_s st' =
    (if sending cfg st gt out then Some now_s else st_last_tx_s st) /\
  st_rng st' =
    (if sampling out
     then snd (rng_gauss (of_Q 0) (noise_std cfg) (st_rng st))
     else st_rng st).
Proof.
  unfold account, sending, last_measurement_of, mval_of, sampling.
  destruct (awake out), (take_sample out), (transmit out); simpl;
    try destruct (st_last_measurement st); simpl; intros H;
    try (apply bind_ok in H; destruct H as (cost & _ & H));
    inversion H; subst; simpl; repeat split; eauto.
Qed.

(** The reconstruction after the body of the loop. *)
Lemma account_recon (st st' : loop_state P) now_s gt out policy' :
  account cfg energy st now_s gt out policy' = Ok st' ->
  st_recon_val st' =
    (if sending cfg st gt out
     then match last_measurement_of cfg st gt out with
          | Some m => m
          | None => st_recon_val st
          end
     else st_recon_val st) /\
  st_reconstructed st' = st_reconstructed st ++ [st_recon_val st'] /\
  st_last_tx_value st' =
    (if sending cfg st gt out then last_measurement_of cfg st gt out
     else st_last_tx_value st).
Proof.
  unfold account, sending, last_measurement_of, mval_of, sampling.
  destruct (awake out), (take_sample out), (transmit out); simpl;
    try destruct (st_last_measurement st); simpl; intros H;
    try (apply bind_ok in H; destruct H as (cost & Hc & H));
    inversion H; subst; simpl; repeat split; reflexivity.
Qed.

Lemma account_energy (st st' : loop_state P) now_s gt out policy' :
  account cfg energy st now_s gt out policy' = Ok st' ->
  st_e_idle st' =
    (if awake out then fadd (st_e_idle st) (e_idle_awake energy (dt_s cfg))
     else st_e_idle st) /\
  st_e_sleep st' =
    (if awake out then st_e_sleep st
     else fadd (st_e_sleep st) (e_sleep energy (dt_s cfg))) /\
  st_e_sense st' =
    (if sampling out then fadd (st_e_sense st) (e_sense energy)
     else st_e_sense st) /\
  st_e_cpu st' =
    (if sampling out then fadd (st_e_cpu st) (e_cpu energy)
     else st_e_cpu st) /\
  (st_e_tx st' = st_e_tx st \/
   exists cost, e_tx energy (payload_bytes cfg) = Ok cost /\
                st_e_tx st' = fadd (st_e_tx st) cost).
Proof.
  unfold account, sampling.
  destruct (awake out), (take_sample out), (transmit out); simpl;
    try destruct (st_last_measurement st); simpl; intros H;
    try (apply bind_ok in H; destruct H as (cost & Hc & H));
    inversion H; subst; simpl; repeat split; eauto.
Qed.

(** ** The loop *)

Lemma run_ticks_app (l1 l2 : list Z) (st st' : loop_state P) :
  run_ticks cfg energy (l1 ++ l2) st = Ok st' <->
  exists st1, run_ticks cfg energy l1 st = Ok st1 /\
              run_ticks cfg energy l2 st1 = Ok st'.
Proof.
  revert st. induction l1 as [|i l1 IH]; intros st; simpl.
  - split.
    + intros H. exists st. split; [reflexivity | exact H].
    + intros (st1 & H1 & H2). inversion H1; subst. exact H2.
  - split.
    + intros H. apply bind_ok in H. destruct H as (s & Hs & H).
      apply IH in H. destruct H as (st1 & H1 & H2).
      exists st1. rewrite Hs. simpl. split; assumption.
    + intros (st1 & H1 & H2). apply bind_ok in H1.
      destruct H1 as (s & Hs & H1). rewrite Hs. simpl.
      apply IH. exists st1. split; assumption.
Qed.

(** A property kept by every iteration holds after the loop. *)
Lemma run_ticks_invariant (Inv : loop_state P -> Prop) :
  (forall i st st', Inv st -> tick cfg energy i st = Ok st' -> Inv st') ->
  forall l st st', Inv st -> run_ticks cfg energy l st = Ok st' -> Inv st'.
Proof.
  intros Hstep l. induction l as [|i l IH]; intros st st' Hinv H; simpl in H.
  - inversion H; subst. exact Hinv.
  - apply bind_ok in H. destruct H as (s & Hs & H).
    eapply IH; [ | exact H]. eapply Hstep; eassumption.
Qed.

Lemma run_ticks_lengths (l : list Z) (st st' : loop_state P) :
  run_ticks cfg energy l st = Ok st' ->
  length (st_t st') = (length (st_t st) + length l)%nat /\
  length (st_truth st') = (length (st_truth st) + length l)%nat /\
  length (st_measured st') = (length (st_measured st) + length l)%nat /\
  length (st_sent st') = (length (st_sent st) + length l)%nat /\
  length (st_reconstructed st') = (length (st_reconstructed st) + length l)%nat.
Proof.
  revert st. induction l as [|i l IH]; intros st H; simpl in H.
  - inversion H; subst. simpl. repeat split; lia.
  - apply bind_ok in H. destruct H as (s & Hs & H).
    apply tick_ok in Hs. destruct Hs as (now_s & gt & out & p' & _ & Ha).
    apply account_lists in Ha.
    destruct Ha as (Ht & Htr & Hm & Hse & (rv & Hre) & _).
    apply IH in H. rewrite Ht, Htr, Hm, Hse, Hre in H.
    repeat rewrite length_app in H. simpl in *. lia.
Qed.

(** The loop only appends: what an earlier state recorded is a prefix of
    what a later state records. *)
Lemma run_ticks_prefix (l : list Z) (st st' : loop_state P) :
  run_ticks cfg energy l st = Ok st' ->
  (exists ms, st_measured st' = st_measured st ++ ms) /\
  (exists ss, st_sent st' = st_sent st ++ ss).
Proof.
  revert st. induction l as [|i l IH]; intros st H; simpl in H.
  - inversion H; subst. split; exists []; rewrite app_nil_r; reflexivity.
  - apply bind_ok in H. destruct H as (s & Hs & H).
    apply tick_ok in Hs. destruct Hs as (now_s & gt & out & p' & _ & Ha).
    apply account_lists in Ha. destruct Ha as (_ & _ & Hm & Hse & _).
    apply IH in H. destruct H as ((ms & Hms) & (ss & Hss)).
    rewrite Hm in Hms. rewrite Hse in Hss.
    rewrite <- app_assoc in Hms, Hss. eauto.
Qed.

End LoopFacts.

(** ** Ranges *)

Lemma py_range_length (n : Z) : length (py_range n) = Z.to_nat n.
Proof. unfold py_range. rewrite length_map, length_seq. reflexivity. Qed.

Lemma py_range_split (i : nat) (n : Z) :
  Z.of_nat i < n ->
  exists rest, py_range n = py_range (Z.of_nat i) ++ Z.of_nat i :: rest.
Proof.
  intros Hi. unfold py_range. rewrite Nat2Z.id.
  replace (Z.to_nat n) with (i + S (Z.to_nat n - S i))%nat by lia.
  rewrite seq_app, map_app. simpl.
  eexists. reflexivity.
Qed.

(** ** The most recent measurement *)

Lemma most_recent_snoc (acc : option F) (l : list (option F)) (x : option F) :
  most_recent acc (l ++ [x]) =
  match x with Some m => Some m | None => most_recent acc l end.
Proof.
  revert acc. induction l as [|[m|] l IH]; intros acc; simpl.
  - destruct x; reflexivity.
  - apply IH.
  - apply IH.
Qed.

Lemma most_recent_found (acc : option F) (l : list (option F)) (m : F) :
  most_recent acc l = Some m ->
  acc = Some m \/ exists j, nth_error l j = Some (Some m).
Proof.
  revert acc. induction l as [|[x|] l IH]; intros acc H; simpl in H.
  - left. exact H.
  - apply IH in H. destruct H as [H | (j & Hj)].
    + inversion H; subst. right. exists 0%nat. reflexivity.
    + right. exists (S j). exact Hj.
  - apply IH in H. destruct H as [H | (j & Hj)].
    + left. exact H.
    + right. exists (S j). exact Hj.
Qed.

(** ** The shape of a call that returns *)

Section Calls.

Context {P : Type} {PL : @Policy F P}.
Variable policy : P.
Variable cfg : @NodeConfig F.
Variable energy : @EnergyModel F.

Lemma enter_ok (st0 : loop_state P) :
  enter policy cfg = Ok st0 ->
  exists recon_val,
    ground_truth 0 cfg = Ok recon_val /\
    st0 = initial_state (reset policy) (rng_seed (seed cfg)) recon_val.
Proof.
  unfold enter. intros H. apply bind_ok in H. destruct H as (rv & Hrv & H).
  inversion H; subst. exists rv. split; [exact Hrv | reflexivity].
Qed.

Lemma simulate_ok (ambient : rng) (r : SimResult) (policy' : P) (g' : rng) :
  simulate policy cfg energy ambient = Ok (r, policy', g') ->
  exists st0 steps st,
    enter policy cfg = Ok st0 /\
    feqb (dt_s cfg) (of_Q 0) = false /\
    ftrunc (fdiv (of_Z (duration_s cfg)) (dt_s cfg)) = Some steps /\
    run_ticks cfg energy (py_range (steps + 1)) st0 = Ok st /\
    finish st = Ok r /\ policy' = st_policy st /\ g' = st_rng st.
Proof.
  unfold simulate. intros H.
  apply bind_ok in H. destruct H as (st0 & H0 & H).
  apply bind_ok in H. destruct H as (q & Hq & H).
  apply bind_ok in H. destruct H as (steps & Hsteps & H).
  apply bind_ok in H. destruct H as (st & Hrun & H).
  apply bind_ok in H. destruct H as (r0 & Hfin & H).
  inversion H; subst.
  apply py_div_ok in Hq. destruct Hq as (Hnz & ->).
  apply of_option_ok in Hsteps.
  exists st0, steps, st. repeat split; assumption.
Qed.

Lemma finish_ok (st : loop_state P) (r : SimResult) :
  finish st = Ok r ->
  t r = st_t st /\ truth r = st_truth st /\ measured r = st_measured st /\
  sent r = st_sent st /\ reconstructed r = st_reconstructed st /\
  samples_taken r = st_samples_taken st /\
  packets_sent r = st_packets_sent st /\
  energy_breakdown_mj r = breakdown_of st /\
  energy_total_mj r =
    fadd (fadd (fadd (fadd (st_e_sleep st) (st_e_idle st)) (st_e_sense st))
               (st_e_cpu st))
         (st_e_tx st).
Proof.
  unfold finish. intros H. apply bind_ok in H. destruct H as (m & _ & H).
  inversion H; subst; simpl. repeat split; reflexivity.
Qed.

(** The loop state on which iteration [i] of a completed call started. *)
Lemma simulate_state_at (ambient : rng) (r : SimResult) (policy' : P)
    (g' : rng) (i : nat) :
  simulate policy cfg energy ambient = Ok (r, policy', g') ->
  (i < length (t r))%nat ->
  exists st0 st st',
    enter policy cfg = Ok st0 /\
    run_ticks cfg energy (py_range (Z.of_nat i)) st0 = Ok st /\
    tick cfg energy (Z.of_nat i) st = Ok st' /\
    st_measured st = firstn i (measured r) /\
    st_sent st = firstn i (sent r).
Proof.
  intros H Hi. apply simulate_ok in H.
  destruct H as (st0 & steps & stn & H0 & _ & _ & Hrun & Hfin & _).
  apply finish_ok in Hfin. destruct Hfin as (Ht & _ & Hm & Hs & _).
  pose proof (run_ticks_lengths _ _ _ _ Hrun) as (Hlen & _).
  destruct (enter_ok H0) as (rv & _ & Hst0).
  rewrite Ht, Hlen, py_range_length in Hi. rewrite Hst0 in Hi. simpl in Hi.
  destruct (@py_range_split i (steps + 1)) as (rest & Hsplit); [lia|].
  rewrite Hsplit in Hrun. apply run_ticks_app in Hrun.
  destruct Hrun as (st & Hpre & Hpost).
  pose proof Hpost as Hpost'. simpl in Hpost'. apply bind_ok in Hpost'.
  destruct Hpost' as (st' & Htick & _).
  exists st0, st, st'. repeat split; try assumption.
  - apply run_ticks_prefix in Hpost. destruct Hpost as ((ms & Hms) & _).
    pose proof (run_ticks_lengths _ _ _ _ Hpre) as (_ & _ & Hl & _).
    rewrite Hst0 in Hl. simpl in Hl. rewrite py_range_length, Nat2Z.id in Hl.
    rewrite Hm, Hms, <- Hl, firstn_app, Nat.sub_diag, firstn_all. simpl.
    rewrite app_nil_r. reflexivity.
  - apply run_ticks_prefix in Hpost. destruct Hpost as (_ & (ss & Hss)).
    pose proof (run_ticks_lengths _ _ _ _ Hpre) as (_ & _ & _ & Hl & _).
    rewrite Hst0 in Hl. simpl in Hl. rewrite py_range_length, Nat2Z.id in Hl.
    rewrite Hs, Hss, <- Hl, firstn_app, Nat.sub_diag, firstn_all. simpl.
    rewrite app_nil_r. reflexivity.
Qed.

End Calls.

(** ** Invariants of the loop, for every policy *)

Section Invariants.

Context {P : Type} {PL : @Policy F P}.
Variable cfg : @NodeConfig F.
Variable energy : @EnergyModel F.

Lemma tick_tracks_measured (i : Z) (st st' : loop_state P) :
  tracks_measured st -> tick cfg energy i st = Ok st' -> tracks_measured st'.
Proof.
  unfold tracks_measured. intros Hinv H.
  apply tick_ok in H. destruct H as (now_s & gt & out & p' & _ & Ha).
  apply account_lists in Ha. destruct Ha as (_ & _ & Hm & _ & _ & Hlm & _).
  rewrite Hlm, Hm, most_recent_snoc.
  unfold last_measurement_of, mval_of. destruct (sampling out).
  - reflexivity.
  - exact Hinv.
Qed.

Lemma run_tracks_measured (l : list Z) (st st' : loop_state P) :
  tracks_measured st -> run_ticks cfg energy l st = Ok st' ->
  tracks_measured st'.
Proof.
  apply (run_ticks_invariant cfg energy (@tracks_measured _ _ P)).
  exact tick_tracks_measured.
Qed.

Lemma tick_sent_after_measured (i : Z) (st st' : loop_state P) :
  sent_after_measured st -> tick cfg energy i st = Ok st' ->
  sent_after_measured st'.
Proof.
  intros (Hlen & Htr & Hinv) H.
  assert (tracks_measured st') as Htr'
    by (eapply tick_tracks_measured; eassumption).
  apply tick_ok in H. destruct H as (now_s & gt & out & p' & _ & Ha).
  apply account_lists in Ha. destruct Ha as (_ & _ & Hm & Hs & _ & Hlm & _).
  split; [| split; [exact Htr' |]].
  - rewrite Hm, Hs. repeat rewrite length_app. simpl. lia.
  - intros k Hk. rewrite Hs in Hk. rewrite Hm.
    destruct (Nat.lt_ge_cases k (length (st_sent st))) as [Hlt | Hge].
    + rewrite nth_error_app1 in Hk by exact Hlt.
      destruct (Hinv k Hk) as (j & m & Hj & Hnth).
      exists j, m. split; [exact Hj |].
      rewrite nth_error_app1; [exact Hnth |].
      apply nth_error_Some. rewrite Hnth. discriminate.
    + rewrite nth_error_app2 in Hk by exact Hge.
      destruct (k - length (st_sent st))%nat as [|d] eqn:Hd;
        [| destruct d; discriminate Hk].
      simpl in Hk. inversion Hk as [Hsend].
      assert (k = length (st_measured st)) as Hkeq by lia.
      unfold sending in Hsend.
      destruct (last_measurement_of cfg st gt out) as [m|] eqn:Hlast;
        [| rewrite andb_false_r in Hsend; discriminate Hsend].
      unfold last_measurement_of in Hlast.
      destruct (sampling out) eqn:Hsam.
      * exists k, m. split; [lia |].
        rewrite nth_error_app2 by lia.
        rewrite Hkeq, Nat.sub_diag. simpl. rewrite Hlast. reflexivity.
      * rewrite Htr in Hlast. apply most_recent_found in Hlast.
        destruct Hlast as [Hnone | (j & Hj)]; [discriminate Hnone |].
        assert (j < length (st_measured st))%nat as Hjlt
          by (apply nth_error_Some; rewrite Hj; discriminate).
        exists j, m. split; [lia |].
        rewrite nth_error_app1 by exact Hjlt. exact Hj.
Qed.

Lemma initial_sent_after_measured (policy : P) (g : rng) (rv : F) :
  sent_after_measured (initial_state policy g rv).
Proof.
  split; [reflexivity | split; [reflexivity |]].
  intros i Hi. simpl in Hi. destruct i; discriminate Hi.
Qed.

End Invariants.

(** C3. For a configuration with [duration_s > 0] and [dt_s > 0] and any
    policy, the five sequences of the [SimResult] that [simulate] returns
    all have length [floor(duration_s / dt_s) + 1]. *)
Theorem simulate_lengths {EA : @ExactArith F FL} {P : Type} {PL : @Policy F P}
    (policy : P) (cfg : @NodeConfig F) (energy : @EnergyModel F)
    (ambient : rng) (r : SimResult) (policy' : P) (g' : rng) :
  0 < duration_s cfg ->
  fltb (of_Q 0) (dt_s cfg) = true ->
  simulate policy cfg energy ambient = Ok (r, policy', g') ->
  exists n,
    ffloor (fdiv (of_Z (duration_s cfg)) (dt_s cfg)) = Some n /\
    0 <= n /\
    length (t r) = Z.to_nat (n + 1) /\
    length (truth r) = Z.to_nat (n + 1) /\
    length (measured r) = Z.to_nat (n + 1) /\
    length (sent r) = Z.to_nat (n + 1) /\
    length (reconstructed r) = Z.to_nat (n + 1).
Proof.
  intros Hdur Hdt H. apply simulate_ok in H.
  destruct H as (st0 & steps & st & H0 & Hnz & Htr & Hrun & Hfin & _).
  assert (nonneg (fdiv (of_Z (duration_s cfg)) (dt_s cfg))) as Hq.
  { apply div_nonneg.
    - apply of_Z_nonneg. lia.
    - apply lt_le. exact Hdt.
    - exact Hnz. }
  rewrite (trunc_floor Hq) in Htr.
  exists steps. split; [exact Htr |].
  split; [exact (floor_nonneg Hq Htr) |].
  apply finish_ok in Hfin.
  destruct Hfin as (-> & -> & -> & -> & -> & _).
  apply run_ticks_lengths in Hrun.
  destruct (enter_ok _ _ H0) as (rv & _ & ->). simpl in Hrun.
  rewrite py_range_length in Hrun. tauto.
Qed.

(** C6. In every run and at every index [i], [sent[i]] being true implies
    that a measurement is present at some index [j <= i] of [measured]
    (not necessarily at [i] itself). *)
Theorem sent_implies_measured {P : Type} {PL : @Policy F P}
    (policy : P) (cfg : @NodeConfig F) (energy : @EnergyModel F)
    (ambient : rng) (r : SimResult) (policy' : P) (g' : rng) (i : nat) :
  simulate policy cfg energy ambient = Ok (r, policy', g') ->
  nth_error (sent r) i = Some true ->
  exists j m, (j <= i)%nat /\ nth_error (measured r) j = Some (Some m).
Proof.
  intros H Hi. apply simulate_ok in H.
  destruct H as (st0 & steps & st & H0 & _ & _ & Hrun & Hfin & _).
  apply finish_ok in Hfin. destruct Hfin as (_ & _ & Hm & Hs & _).
  destruct (enter_ok _ _ H0) as (rv & _ & Hst0). subst st0.
  assert (sent_after_measured st) as (_ & _ & Hinv).
  { eapply run_ticks_invariant; [ | | exact Hrun].
    - intros k s s'. apply tick_sent_after_measured.
    - apply initial_sent_after_measured. }
  rewrite Hm. apply Hinv. rewrite <- Hs. exact Hi.
Qed.

(** C10. At every tick [i] of a run, the [last_measurement] argument of
    the call [policy.step] is the most recent measurement among the ticks
    strictly before [i] ([None] when none of them sampled): the policy is
    consulted before the sample of tick [i] is drawn. *)
Theorem policy_sees_previous_measurement {P : Type} {PL : @Policy F P}
    (policy : P) (cfg : @NodeConfig F) (energy : @EnergyModel F)
    (ambient : rng) (r : SimResult) (policy' : P) (g' : rng) (i : nat) :
  simulate policy cfg energy ambient = Ok (r, policy', g') ->
  (i < length (t r))%nat ->
  exists st0 st now_s gt out pol,
    enter policy cfg = Ok st0 /\
    run_ticks cfg energy (py_range (Z.of_nat i)) st0 = Ok st /\
    consult cfg (Z.of_nat i) st = Ok (now_s, gt, out, pol) /\
    st_measured st = firstn i (measured r) /\
    step (st_policy st) now_s
         (most_recent None (firstn i (measured r))) (st_last_tx_s st)
      = Ok (out, pol).
Proof.
  intros H Hi.
  destruct (simulate_state_at _ _ _ _ H Hi)
    as (st0 & st & st' & H0 & Hpre & Htick & Hm & _).
  apply tick_ok in Htick.
  destruct Htick as (now_s & gt & out & pol & Hc & _).
  exists st0, st, now_s, gt, out, pol.
  repeat split; try assumption.
  destruct (enter_ok _ _ H0) as (rv & _ & Hst0).
  assert (tracks_measured st) as Htr.
  { eapply run_tracks_measured; [ | exact Hpre].
    rewrite Hst0. reflexivity. }
  apply consult_ok in Hc. destruct Hc as (_ & _ & Hstep).
  rewrite <- Hm, <- Htr. exact Hstep.
Qed.

(** ** Energy accounting *)

Section Energy.

Context {EA : @ExactArith F FL}.
Context {P : Type} {PL : @Policy F P}.
Variable cfg : @NodeConfig F.
Variable energy : @EnergyModel F.
Hypothesis Henergy : energy_nonneg energy.
Hypothesis Hdt : nonneg (dt_s cfg).
Hypothesis Hpayload : 0 <= payload_bytes cfg.

Lemma zero_nonneg : nonneg (of_Q 0).
Proof. apply (of_Z_nonneg (n:=0)). lia. Qed.

Lemma e_tx_nonneg (cost : F) :
  e_tx energy (payload_bytes cfg) = Ok cost -> nonneg cost.
Proof.
  destruct Henergy as (_ & _ & _ & _ & Htx & _ & _ & Hbit & Hov).
  unfold e_tx. intros H. apply bind_ok in H. destruct H as (q & Hq & H).
  inversion H; subst. apply py_div_ok in Hq. destruct Hq as (Hnz & ->).
  apply mul_nonneg; [exact Htx |].
  apply add_nonneg; [exact Hov |].
  apply div_nonneg; [apply of_Z_nonneg; lia | exact Hbit | exact Hnz].
Qed.

Lemma tick_energies_nonneg (i : Z) (st st' : loop_state P) :
  energies_nonneg st -> tick cfg energy i st = Ok st' -> energies_nonneg st'.
Proof.
  destruct Henergy as (Hsl & Hid & Hcpu & Hse & _ & Hts & Htc & _).
  intros (H1 & H2 & H3 & H4 & H5) H.
  apply tick_ok in H. destruct H as (now_s & gt & out & p' & _ & Ha).
  apply account_energy in Ha. destruct Ha as (Ei & Es & Ese & Ec & Etx).
  unfold energies_nonneg. rewrite Ei, Es, Ese, Ec.
  repeat split.
  - destruct (awake out); [exact H1 |].
    apply add_nonneg; [exact H1 | apply mul_nonneg; assumption].
  - destruct (awake out); [| exact H2].
    apply add_nonneg; [exact H2 | apply mul_nonneg; assumption].
  - destruct (sampling out); [| exact H3].
    apply add_nonneg; [exact H3 | apply mul_nonneg; assumption].
  - destruct (sampling out); [| exact H4].
    apply add_nonneg; [exact H4 | apply mul_nonneg; assumption].
  - destruct Etx as [-> | (cost & Hcost & ->)]; [exact H5 |].
    apply add_nonneg; [exact H5 | exact (e_tx_nonneg Hcost)].
Qed.

End Energy.

(** C4, as the code has it.  In a run with a non-negative energy model, a
    non-negative time step and a non-negative payload size, each of the
    five values of [energy_breakdown_mj] and [energy_total_mj] is
    non-negative, and [energy_total_mj] is the sum of the five breakdown
    values taken in the order sleep, idle_awake, sensing, cpu, tx. *)
Theorem energy_accounting {EA : @ExactArith F FL} {P : Type}
    {PL : @Policy F P} (policy : P) (cfg : @NodeConfig F)
    (energy : @EnergyModel F) (ambient : rng) (r : SimResult) (policy' : P)
    (g' : rng) :
  energy_nonneg energy ->
  nonneg (dt_s cfg) ->
  0 <= payload_bytes cfg ->
  simulate policy cfg energy ambient = Ok (r, policy', g') ->
  exists sl idl se cp tx,
    energy_breakdown_mj r =
      [ ("sleep"%string, sl); ("idle_awake"%string, idl);
        ("sensing"%string, se); ("cpu"%string, cp); ("tx"%string, tx) ] /\
    nonneg sl /\ nonneg idl /\ nonneg se /\ nonneg cp /\ nonneg tx /\
    nonneg (energy_total_mj r) /\
    energy_total_mj r = fadd (fadd (fadd (fadd sl idl) se) cp) tx.
Proof.
  intros Hen Hdt Hpay H. apply simulate_ok in H.
  destruct H as (st0 & steps & st & H0 & _ & _ & Hrun & Hfin & _).
  apply finish_ok in Hfin.
  destruct Hfin as (_ & _ & _ & _ & _ & _ & _ & Hb & Htot).
  destruct (enter_ok _ _ H0) as (rv & _ & Hst0). subst st0.
  assert (energies_nonneg st) as (H1 & H2 & H3 & H4 & H5).
  { eapply run_ticks_invariant; [ | | exact Hrun].
    - intros k s s'. apply tick_energies_nonneg; assumption.
    - repeat split; apply zero_nonneg. }
  exists (st_e_sleep st), (st_e_idle st), (st_e_sense st), (st_e_cpu st),
    (st_e_tx st).
  split; [exact Hb |]. repeat (split; [assumption |]).
  split; [| exact Htot].
  rewrite Htot. repeat apply add_nonneg; assumption.
Qed.

(** ** Determinism *)

(** A call depends on the policy object through [reset] only, and not at
    all on the state the generator is in. *)
Lemma simulate_from_reset {P : Type} {PL : @Policy F P}
    (policy1 policy2 : P) (cfg : @NodeConfig F) (energy : @EnergyModel F)
    (ambient1 ambient2 : rng) :
  reset policy1 = reset policy2 ->
  simulate policy1 cfg energy ambient1 = simulate policy2 cfg energy ambient2.
Proof.
  intros Hreset. unfold simulate, enter. rewrite Hreset. reflexivity.
Qed.

Section Reuse.

Context {P : Type} {PL : @Policy F P} {RR : @ResetRestores F P PL}.
Variable cfg : @NodeConfig F.
Variable energy : @EnergyModel F.

Lemma run_ticks_reset (l : list Z) (st st' : loop_state P) :
  run_ticks cfg energy l st = Ok st' ->
  reset (st_policy st') = reset (st_policy st).
Proof.
  revert st. induction l as [|i l IH]; intros st H; simpl in H.
  - inversion H; subst. reflexivity.
  - apply bind_ok in H. destruct H as (s & Hs & H).
    apply IH in H. rewrite H.
    apply tick_ok in Hs. destruct Hs as (now_s & gt & out & p' & Hc & Ha).
    apply account_lists in Ha.
    destruct Ha as (_ & _ & _ & _ & _ & _ & ->).
    apply consult_ok in Hc. destruct Hc as (_ & _ & Hstep).
    exact (reset_step _ _ _ _ Hstep).
Qed.

(** The object a call leaves behind resets to what the object it received
    resets to. *)
Lemma simulate_reset (policy policy' : P) (ambient g' : rng) (r : SimResult) :
  simulate policy cfg energy ambient = Ok (r, policy', g') ->
  reset policy' = reset policy.
Proof.
  intros H. apply simulate_ok in H.
  destruct H as (st0 & steps & st & H0 & _ & _ & Hrun & _ & -> & _).
  apply run_ticks_reset in Hrun. rewrite Hrun.
  destruct (enter_ok _ _ H0) as (rv & _ & ->). simpl. apply reset_reset.
Qed.

(** Running the same object a second time, from the generator state the
    first call left, gives the first result again. *)
Lemma simulate_again (policy policy' : P) (ambient g' : rng) (r : SimResult) :
  simulate policy cfg energy ambient = Ok (r, policy', g') ->
  outcome (simulate policy' cfg energy g') = Ok r.
Proof.
  intros H.
  rewrite (simulate_from_reset policy' policy cfg energy g' ambient
             (simulate_reset _ _ H)).
  rewrite H. reflexivity.
Qed.

End Reuse.

(** The policy classes of the package all have this property. *)
#[export] Instance BasePolicy_restores : @ResetRestores F BasePolicy _.
Proof. split; [reflexivity | intros p p' t_s lm ltx out H; discriminate H]. Qed.

#[export] Instance FixedSamplingPolicy_restores
  : @ResetRestores F FixedSamplingPolicy _.
Proof.
  split; [reflexivity |].
  intros p p' t_s lm ltx out H. simpl in H. inversion H; reflexivity.
Qed.

#[export] Instance DutyCyclingPolicy_restores
  : @ResetRestores F DutyCyclingPolicy _.
Proof.
  split; [reflexivity |].
  intros p p' t_s lm ltx out H. simpl in H. inversion H; reflexivity.
Qed.

#[export] Instance AdaptiveThresholdPolicy_restores
  : @ResetRestores F AdaptiveThresholdPolicy _.
Proof.
  split; [reflexivity |].
  intros p p' t_s lm ltx out H. simpl in H.
  unfold AdaptiveThresholdPolicy_step in H.
  destruct lm as [m|]; [| inversion H; reflexivity].
  destruct (t_s mod adapt_base_every_s p =? 0); [| inversion H; reflexivity].
  destruct (adaptive_decide p t_s m ltx); inversion H; reflexivity.
Qed.

(** Two adaptive policies built from the same arguments reset alike,
    whatever value each remembers. *)
Lemma adaptive_reset_forgets (p : AdaptiveThresholdPolicy) (v : option F) :
  reset (set_last_tx_value p v) = reset p.
Proof. reflexivity. Qed.

(** C9. Two calls of [simulate] with the same configuration (hence the
    same seed) and the same energy model end in the same way, with the
    same [SimResult] in every field or the same exception, whatever the
    state of the generator and the memory of the policy before each call:
    both for two policy objects that [reset] brings to the same state
    (objects built alike), and for one object used again after a call
    that returned.  The policy class is any class whose [reset] restores
    the constructed state, as those of the package do. *)
Theorem simulate_deterministic {P : Type} {PL : @Policy F P}
    {RR : @ResetRestores F P PL}
    (policy1 policy2 : P) (cfg : @NodeConfig F) (energy : @EnergyModel F)
    (ambient1 ambient2 : rng) :
  reset policy1 = reset policy2 ->
  outcome (simulate policy1 cfg energy ambient1)
    = outcome (simulate policy2 cfg energy ambient2) /\
  (forall r policy' g' ambient3,
     simulate policy1 cfg energy ambient1 = Ok (r, policy', g') ->
     outcome (simulate policy' cfg energy ambient3) = Ok r).
Proof.
  intros Hreset. split.
  - rewrite (simulate_from_reset policy1 policy2 cfg energy ambient1 ambient2
               Hreset).
    reflexivity.
  - intros r policy' g' ambient3 H.
    assert (reset policy' = reset policy1) as Hagain
      by (eapply simulate_reset; exact H).
    rewrite (simulate_from_reset policy' policy1 cfg energy ambient3 ambient1
               Hagain).
    rewrite H. reflexivity.
Qed.

(** ** The duty-cycling policy *)

(** C7. The output of [DutyCyclingPolicy.step] at time [t]: [awake] is
    [t mod wake_every_s < awake_window_s], and [take_sample] and
    [transmit] are both [awake and t mod sample_every_s == 0], with the
    modulo on [t] itself; the output is the same whatever the
    [last_measurement] and [last_tx_s] arguments are, and the object is
    left as it was. *)
Theorem duty_cycling_step (wake_every awake_window sample_every t_s : Z)
    (lm lm' : option F) (ltx ltx' : option Z) :
  let self := DutyCyclingPolicy_init wake_every awake_window sample_every in
  let up := t_s mod duty_wake_every_s self <? duty_awake_window_s self in
  let do := up && (t_s mod duty_sample_every_s self =? 0) in
  step self t_s lm ltx
    = Ok ({| awake := up; take_sample := do; transmit := do |}, self) /\
  step self t_s lm' ltx' = step self t_s lm ltx /\
  @reset F _ _ self = self /\
  duty_wake_every_s self = Z.max 1 wake_every /\
  duty_awake_window_s self = Z.max 1 awake_window /\
  duty_sample_every_s self = Z.max 1 sample_every.
Proof.
  intros self up do. repeat split; reflexivity.
Qed.

(** ** Configurations that are not rejected *)

Section Totality.

Context {EA : @ExactArith F FL}.

Lemma one_nonzero : feqb (of_Q 1) (of_Q 0) = false.
Proof. apply (of_Z_nonzero (n:=1)). lia. Qed.

Lemma ground_truth_total (t_s : Z) (cfg : @NodeConfig F) :
  ground_truth t_s cfg = Ok (signal (omega cfg) t_s cfg).
Proof.
  unfold ground_truth, omega. rewrite py_div_nonzero; [reflexivity |].
  unfold py_max. destruct (fltb (of_Q 1) (signal_period_s cfg)) eqn:Hlt.
  - apply gt_one_nonzero. exact Hlt.
  - exact one_nonzero.
Qed.

Lemma enter_total {P : Type} {PL : @Policy F P} (policy : P)
    (cfg : @NodeConfig F) :
  enter policy cfg
    = Ok (initial_state (reset policy) (rng_seed (seed cfg))
            (signal (omega cfg) 0 cfg)).
Proof. unfold enter. rewrite ground_truth_total. reflexivity. Qed.

Lemma finish_total {P : Type} (st : loop_state P) :
  exists r, finish st = Ok r.
Proof.
  unfold finish. rewrite py_div_nonzero.
  - simpl. eexists. reflexivity.
  - apply of_Z_nonzero. lia.
Qed.

Section Ticks.

Context {P : Type} {PL : @Policy F P}.
Variable cfg : @NodeConfig F.
Variable energy : @EnergyModel F.
Hypothesis Hstep : forall (p : P) t_s lm ltx,
  exists out p', step p t_s lm ltx = Ok (out, p').
Hypothesis Hbitrate : feqb (bitrate_bps energy) (of_Q 0) = false.

Lemma tick_total (i : Z) (st : loop_state P) :
  exists st', tick cfg energy i st = Ok st'.
Proof.
  unfold tick, consult, py_round.
  destruct (fround (fmul (of_Z i) (dt_s cfg))) as [now_s|] eqn:Hr;
    [| exfalso; exact (round_total _ Hr)].
  simpl. rewrite ground_truth_total. simpl.
  destruct (Hstep (st_policy st) now_s (st_last_measurement st)
              (st_last_tx_s st)) as (out & p' & ->).
  simpl. unfold account, e_tx. rewrite py_div_nonzero by exact Hbitrate.
  simpl.
  destruct (awake out && take_sample out); simpl;
    [| destruct (st_last_measurement st)];
    try destruct (awake out && transmit out); eexists; reflexivity.
Qed.

Lemma run_ticks_total (l : list Z) (st : loop_state P) :
  exists st', run_ticks cfg energy l st = Ok st'.
Proof.
  revert st. induction l as [|i l IH]; intros st; simpl.
  - exists st. reflexivity.
  - destruct (tick_total i st) as (s & ->). simpl. apply IH.
Qed.

End Ticks.

(** With a non-zero time step and a non-zero bit rate, a policy whose
    [step] returns makes [simulate] return. *)
Lemma simulate_returns {P : Type} {PL : @Policy F P} (policy : P)
    (cfg : @NodeConfig F) (energy : @EnergyModel F) (ambient : rng) :
  (forall (p : P) t_s lm ltx,
     exists out p', step p t_s lm ltx = Ok (out, p')) ->
  feqb (bitrate_bps energy) (of_Q 0) = false ->
  feqb (dt_s cfg) (of_Q 0) = false ->
  exists r policy' g', simulate policy cfg energy ambient = Ok (r, policy', g').
Proof.
  intros Hstep Hbit Hdt. unfold simulate.
  rewrite enter_total. simpl. rewrite py_div_nonzero by exact Hdt. simpl.
  unfold py_int.
  destruct (ftrunc (fdiv (of_Z (duration_s cfg)) (dt_s cfg)))
    as [steps|] eqn:Ht;
    [| exfalso; exact (trunc_total _ Ht)].
  simpl.
  destruct (run_ticks_total cfg energy Hstep Hbit (py_range (steps + 1))
              (initial_state (reset policy) (rng_seed (seed cfg))
                 (signal (omega cfg) 0 cfg))) as (st & ->).
  simpl. destruct (finish_total st) as (r & ->). simpl.
  eexists _, _, _. reflexivity.
Qed.

End Totality.

(** C2, as the code has it.  [simulate] does not check the configuration.
    With [dt_s == 0] the division that computes the step count raises
    [ZeroDivisionError] before the loop starts, so no tick runs and no
    [SimResult] is produced.  With [dt_s != 0] nothing rejects a
    non-positive [duration_s] or a negative [dt_s]: when
    [int(duration_s / dt_s)] is negative the call returns a [SimResult]
    with empty sequences and zero counters, and every call that returns
    has run [int(duration_s / dt_s) + 1] ticks if that number is positive
    and none otherwise. *)
Theorem simulate_no_validation {EA : @ExactArith F FL} {P : Type}
    {PL : @Policy F P} (policy : P) (cfg : @NodeConfig F)
    (energy : @EnergyModel F) (ambient : rng) :
  (feqb (dt_s cfg) (of_Q 0) = true ->
   simulate policy cfg energy ambient = Raise ZeroDivisionError) /\
  (forall steps,
     feqb (dt_s cfg) (of_Q 0) = false ->
     ftrunc (fdiv (of_Z (duration_s cfg)) (dt_s cfg)) = Some steps ->
     steps < 0 ->
     exists r, outcome (simulate policy cfg energy ambient) = Ok r /\
       t r = [] /\ truth r = [] /\ measured r = [] /\ sent r = [] /\
       reconstructed r = [] /\ samples_taken r = 0 /\ packets_sent r = 0) /\
  (forall r policy' g',
     simulate policy cfg energy ambient = Ok (r, policy', g') ->
     exists steps,
       ftrunc (fdiv (of_Z (duration_s cfg)) (dt_s cfg)) = Some steps /\
       length (t r) = Z.to_nat (steps + 1)).
Proof.
  split; [| split].
  - intros Hz. unfold simulate. rewrite enter_total. simpl.
    unfold py_div. rewrite Hz. reflexivity.
  - intros steps Hnz Htr Hneg. unfold simulate. rewrite enter_total. simpl.
    rewrite py_div_nonzero by exact Hnz. simpl.
    unfold py_int. rewrite Htr. simpl.
    unfold py_range. replace (Z.to_nat (steps + 1)) with 0%nat by lia. simpl.
    destruct (finish_total (initial_state (reset policy) (rng_seed (seed cfg))
                              (signal (omega cfg) 0 cfg))) as (r & Hr).
    rewrite Hr. simpl. exists r. split; [reflexivity |].
    apply finish_ok in Hr. simpl in Hr. tauto.
  - intros r policy' g' H. apply simulate_ok in H.
    destruct H as (st0 & steps & st & H0 & _ & Htr & Hrun & Hfin & _).
    exists steps. split; [exact Htr |].
    apply finish_ok in Hfin. destruct Hfin as (-> & _).
    apply run_ticks_lengths in Hrun. destruct Hrun as (-> & _).
    destruct (enter_ok _ _ H0) as (rv & _ & ->). simpl.
    apply py_range_length.
Qed.

(** ** The adaptive policy *)

Section Adaptive.

Variable cfg : @NodeConfig F.
Variable energy : @EnergyModel F.

(** The output of a step: always awake, sampling on the modulo alone, and
    transmitting only on a sampling tick and with a measurement at hand. *)
Lemma adaptive_step_output (p : @AdaptiveThresholdPolicy F) (t_s : Z)
    (lm : option F) (ltx : option Z) :
  let out := fst (AdaptiveThresholdPolicy_step p t_s lm ltx) in
  let p' := snd (AdaptiveThresholdPolicy_step p t_s lm ltx) in
  awake out = true /\
  take_sample out = (t_s mod adapt_base_every_s p =? 0) /\
  (lm = None -> transmit out = false) /\
  (transmit out = true -> take_sample out = true /\ lm <> None) /\
  (transmit out = false -> p' = p) /\
  (forall m, lm = Some m -> adapt_last_tx_value p = None ->
     t_s mod adapt_base_every_s p = 0 -> transmit out = true) /\
  adapt_base_every_s p' = adapt_base_every_s p.
Proof.
  unfold AdaptiveThresholdPolicy_step.
  destruct lm as [m|]; simpl.
  - destruct (t_s mod adapt_base_every_s p =? 0) eqn:Hmod; simpl.
    + destruct (adaptive_decide p t_s m ltx) eqn:Hdec; simpl;
        repeat split; try reflexivity; try discriminate; try tauto.
      intros m0 _ Hnone _. unfold adaptive_decide in Hdec.
      rewrite Hnone in Hdec. destruct ltx; simpl in Hdec; discriminate Hdec.
    + repeat split; try reflexivity; try discriminate.
      intros m0 _ _ Hz. rewrite Hz in Hmod. discriminate Hmod.
  - repeat split; try reflexivity; try discriminate; try tauto.
Qed.



End Adaptive.


(** ** Runs of the adaptive policy in which the change test stays negative *)

Lemma py_range_succ (n : nat) :
  py_range (Z.of_nat (S n)) = py_range (Z.of_nat n) ++ [Z.of_nat n].
Proof.
  unfold py_range. repeat rewrite Nat2Z.id.
  rewrite seq_S, map_app. reflexivity.
Qed.

Section Quiet.

Variable cfg : @NodeConfig F.
Variable energy : @EnergyModel F.

Lemma adaptive_step_quiet (p : @AdaptiveThresholdPolicy F) (t_s : Z)
    (lm : option F) (ltx : option Z) :
  (forall m v, lm = Some m -> adapt_last_tx_value p = Some v ->
     fgeb (fabs (fsub m v)) (adapt_threshold p) = false) ->
  let keep_alive :=
    match ltx with
    | Some l => t_s - l >=? adapt_max_silence_s p
    | None => false
    end in
  let tr := (t_s mod adapt_base_every_s p =? 0) && is_some lm
            && (negb (is_some (adapt_last_tx_value p)) || keep_alive) in
  AdaptiveThresholdPolicy_step p t_s lm ltx
  = ({| awake := true;
        take_sample := t_s mod adapt_base_every_s p =? 0;
        transmit := tr |},
     if tr then set_last_tx_value p lm else p).
Proof.
  intros Hq. unfold AdaptiveThresholdPolicy_step, adaptive_decide.
  destruct lm as [m|]; simpl.
  - destruct (t_s mod adapt_base_every_s p =? 0); simpl; [| reflexivity].
    destruct (adapt_last_tx_value p) as [v|] eqn:Hv; simpl.
    + rewrite (Hq m v eq_refl eq_refl). simpl.
      destruct ltx as [l|]; simpl; [| reflexivity].
      destruct (t_s - l >=? adapt_max_silence_s p); reflexivity.
    + destruct ltx; reflexivity.
  - rewrite andb_false_r. reflexivity.
Qed.

Lemma tick_observe (i now_s : Z)
    (st st' : loop_state (@AdaptiveThresholdPolicy F)) :
  quiet st ->
  fround (fmul (of_Z i) (dt_s cfg)) = Some now_s ->
  tick cfg energy i st = Ok st' ->
  observe st' =
    quiet_tick (adapt_base_every_s (st_policy st))
               (adapt_max_silence_s (st_policy st)) (observe st) now_s /\
  adapt_base_every_s (st_policy st') = adapt_base_every_s (st_policy st) /\
  adapt_max_silence_s (st_policy st') = adapt_max_silence_s (st_policy st).
Proof.
  intros Hq Hnow H.
  apply tick_ok in H. destruct H as (now' & gt & out & p' & Hc & Ha).
  apply consult_ok in Hc. destruct Hc as (Hnow' & _ & Hstep).
  rewrite Hnow in Hnow'. inversion Hnow'; subst now'. clear Hnow'.
  simpl in Hstep. rewrite (adaptive_step_quiet _ _ _ Hq) in Hstep.
  inversion Hstep as [[Hout Hp']]. clear Hstep.
  pose proof (account_lists _ _ _ _ _ _ _ Ha)
    as (_ & _ & Hm & Hs & _ & Hlm & Hpol).
  pose proof (account_counters _ _ _ _ _ _ _ Ha) as (Hsam & Hpk & Hltx & _).
  unfold observe, quiet_tick, quiet_transmit. simpl.
  rewrite Hm, Hs, Hlm, Hpol, Hsam, Hpk, Hltx, map_app. simpl.
  unfold sending, last_measurement_of, mval_of, sampling.
  rewrite <- Hout. simpl. rewrite <- Hp'.
  destruct (now_s mod adapt_base_every_s (st_policy st) =? 0); simpl.
  - destruct (st_last_measurement st) as [m|]; simpl.
    + destruct (negb (is_some (adapt_last_tx_value (st_policy st)))
                || match st_last_tx_s st with
                   | Some l => now_s - l >=? adapt_max_silence_s (st_policy st)
                   | None => false
                   end); simpl; repeat split; reflexivity.
    + repeat split; reflexivity.
  - destruct (st_last_measurement st); simpl; repeat split; reflexivity.
Qed.

Context {EA : @ExactArith F FL}.
Hypothesis Hdt : dt_s cfg = of_Q 1.

(** With a time step of one second, the observation after [n] ticks is
    the one the observations alone determine, provided the change test was
    negative on entering each of these ticks. *)
Lemma run_observe (st0 : loop_state (@AdaptiveThresholdPolicy F)) (n : nat) :
  (forall k st, (k < n)%nat ->
     run_ticks cfg energy (py_range (Z.of_nat k)) st0 = Ok st -> quiet st) ->
  forall st,
    run_ticks cfg energy (py_range (Z.of_nat n)) st0 = Ok st ->
    observe st =
      quiet_run (adapt_base_every_s (st_policy st0))
                (adapt_max_silence_s (st_policy st0))
                (py_range (Z.of_nat n)) (observe st0) /\
    adapt_base_every_s (st_policy st) = adapt_base_every_s (st_policy st0) /\
    adapt_max_silence_s (st_policy st) = adapt_max_silence_s (st_policy st0).
Proof.
  induction n as [|n IH]; intros Hq st Hrun.
  - simpl in Hrun. inversion Hrun; subst. repeat split; reflexivity.
  - rewrite py_range_succ in Hrun. apply run_ticks_app in Hrun.
    destruct Hrun as (st1 & Hpre & Hlast).
    simpl in Hlast. apply bind_ok in Hlast.
    destruct Hlast as (st2 & Htick & Hst2). inversion Hst2; subst st2.
    assert (forall k s, (k < n)%nat ->
              run_ticks cfg energy (py_range (Z.of_nat k)) st0 = Ok s ->
              quiet s) as Hq' by (intros k s Hk; apply Hq; lia).
    destruct (IH Hq' st1 Hpre) as (Hobs & Hb & Hms).
    assert (quiet st1) as Hq1 by (apply (Hq n); [lia | exact Hpre]).
    assert (fround (fmul (of_Z (Z.of_nat n)) (dt_s cfg)) = Some (Z.of_nat n))
      as Hnow by (rewrite Hdt; apply round_unit_step).
    edestruct tick_observe as (Hobs' & Hb' & Hms');
      [exact Hq1 | exact Hnow | exact Htick |].
    rewrite Hb', Hms', Hb, Hms. repeat split; try reflexivity.
    rewrite Hobs', Hobs, Hb, Hms, py_range_succ.
    unfold quiet_run. rewrite fold_left_app. reflexivity.
Qed.

End Quiet.

(** C5, as the code has it.  With
    [AdaptiveThresholdPolicy(base_every_s=2, threshold=1000, max_silence_s=10)],
    [duration_s = 30] and [dt_s = 1], in a run in which the change test
    of the policy is never positive, the result has [samples_taken == 16],
    with a measurement at the ticks 0, 2, ..., 30 and only there, and
    [packets_sent == 3], with [sent[i]] true at the ticks 2, 12 and 22 and
    only there: tick 2 is the first sampling tick that has a measurement
    to decide on, and the two others come from the keep-alive rule. *)
Theorem adaptive_keep_alive_run {EA : @ExactArith F FL}
    (cfg : @NodeConfig F) (energy : @EnergyModel F) (ambient : rng) :
  let self := AdaptiveThresholdPolicy_init 2 (of_Q 1000) 10 in
  duration_s cfg = 30 ->
  dt_s cfg = of_Q 1 ->
  feqb (bitrate_bps energy) (of_Q 0) = false ->
  (forall (k : nat) st0 st, (k <= 30)%nat ->
     enter self cfg = Ok st0 ->
     run_ticks cfg energy (py_range (Z.of_nat k)) st0 = Ok st -> quiet st) ->
  exists r policy' g',
    simulate self cfg energy ambient = Ok (r, policy', g') /\
    samples_taken r = 16 /\
    packets_sent r = 3 /\
    map is_some (measured r) =
      [true; false; true; false; true; false; true; false; true; false;
       true; false; true; false; true; false; true; false; true; false;
       true; false; true; false; true; false; true; false; true; false;
       true] /\
    sent r =
      [false; false; true; false; false; false; false; false; false; false;
       false; false; true; false; false; false; false; false; false; false;
       false; false; true; false; false; false; false; false; false; false;
       false].
Proof.
  intros self Hdur Hdt Hbit Hquiet.
  assert (feqb (dt_s cfg) (of_Q 0) = false) as Hnz
    by (rewrite Hdt; apply one_nonzero).
  destruct (simulate_returns self cfg energy ambient) as (r & p' & g' & Hsim);
    [ intros p t_s lm ltx; eexists _, _; simpl; rewrite <- surjective_pairing;
      reflexivity
    | exact Hbit | exact Hnz | ].
  exists r, p', g'. split; [exact Hsim |].
  apply simulate_ok in Hsim.
  destruct Hsim as (st0 & steps & st & H0 & _ & Htr & Hrun & Hfin & _).
  rewrite Hdur, Hdt, trunc_unit_quot in Htr. inversion Htr; subst steps.
  change (30 + 1) with (Z.of_nat 31) in Hrun.
  destruct (run_observe cfg energy Hdt st0 (n:=31)) with (st := st)
    as (Hobs & _); [ | exact Hrun | ].
  { intros k s Hk Hpre. apply (Hquiet k st0 s); [lia | exact H0 | exact Hpre]. }
  apply finish_ok in Hfin.
  destruct Hfin as (_ & _ & Hm & Hs & _ & Hsam & Hpk & _).
  rewrite Hm, Hs, Hsam, Hpk.
  destruct (enter_ok _ _ H0) as (rv & _ & Hst0). rewrite Hst0 in Hobs.
  change (st_samples_taken st) with (obs_samples_taken (observe st)).
  change (st_packets_sent st) with (obs_packets_sent (observe st)).
  change (map is_some (st_measured st)) with (obs_measured (observe st)).
  change (st_sent st) with (obs_sent (observe st)).
  rewrite Hobs. vm_compute. repeat split; reflexivity.
Qed.

End Properties.

(** ** The rationals satisfy the arithmetic facts *)

Module QFacts.

Import QModel.
Local Open Scope Q_scope.

Lemma nonneg_iff (x : Q) : nonneg x <-> 0 <= x.
Proof. unfold nonneg. simpl. apply Qle_bool_iff. Qed.

Lemma eqb_false_iff (x y : Q) : Qeq_bool x y = false <-> ~ x == y.
Proof.
  split.
  - intros H Heq. apply Qeq_bool_iff in Heq. rewrite Heq in H. discriminate H.
  - intros H. destruct (Qeq_bool x y) eqn:E; [| reflexivity].
    apply Qeq_bool_iff in E. contradiction.
Qed.

Lemma ltb_iff (x y : Q) : negb (Qle_bool y x) = true <-> x < y.
Proof.
  rewrite negb_true_iff. split.
  - intros H. apply Qnot_le_lt. intros Hle. apply Qle_bool_iff in Hle.
    rewrite Hle in H. discriminate H.
  - intros H. destruct (Qle_bool y x) eqn:E; [| reflexivity].
    apply Qle_bool_iff in E. exfalso. exact (Qlt_not_le _ _ H E).
Qed.

Lemma truncate_integer (y : Q) (n : Z) : y == inject_Z n -> truncate y = n.
Proof.
  unfold Qeq, truncate. simpl. intros H. rewrite Z.mul_1_r in H.
  rewrite H. apply Z.quot_mul. discriminate.
Qed.

Lemma round_integer (y : Q) (n : Z) :
  y == inject_Z n -> round_half_even y = n.
Proof.
  intros H. unfold round_half_even.
  assert (Qfloor y = n) as Hf by (rewrite H; apply Qfloor_Z).
  rewrite Hf.
  assert (y - inject_Z n == 0) as Hr by (rewrite H; ring).
  assert (Qle_bool (y - inject_Z n) (1 # 2) = true) as Hle.
  { apply Qle_bool_iff. rewrite Hr. discriminate. }
  assert (Qeq_bool (y - inject_Z n) (1 # 2) = false) as Hne.
  { apply eqb_false_iff. rewrite Hr. discriminate. }
  rewrite Hle, Hne. reflexivity.
Qed.

#[export] Instance Q_exact : @ExactArith Q Q_float.
Proof.
  split.
  - intros n Hn. apply nonneg_iff. unfold of_Z. simpl.
    unfold Qle. simpl. lia.
  - intros n Hn. unfold of_Z. simpl. apply eqb_false_iff.
    unfold Qeq. simpl. lia.
  - intros x H. simpl in *. apply eqb_false_iff. apply ltb_iff in H.
    intros Heq. rewrite Heq in H. discriminate H.
  - intros x y H. simpl in *. apply ltb_iff in H. apply Qle_bool_iff.
    apply Qlt_le_weak. exact H.
  - intros x y Hx Hy. apply nonneg_iff in Hx, Hy. apply nonneg_iff.
    change (0 <= Qred (x + y)). rewrite Qred_correct.
    rewrite <- (Qplus_0_l 0). apply Qplus_le_compat; assumption.
  - intros x y Hx Hy. apply nonneg_iff in Hx, Hy. apply nonneg_iff.
    change (0 <= Qred (x * y)). rewrite Qred_correct.
    apply Qmult_le_0_compat; assumption.
  - intros x y Hx Hy _. apply nonneg_iff in Hx, Hy. apply nonneg_iff.
    change (0 <= Qred (x / y)). rewrite Qred_correct. unfold Qdiv.
    apply Qmult_le_0_compat; [exact Hx | apply Qinv_le_0_compat; exact Hy].
  - intros x Hx. apply nonneg_iff in Hx. simpl. f_equal.
    unfold truncate. destruct x as [a d]. simpl.
    unfold Qle in Hx. simpl in Hx.
    apply Z.quot_div_nonneg; lia.
  - intros x n Hx H. apply nonneg_iff in Hx. simpl in H.
    inversion H; subst. destruct x as [a d]. simpl.
    unfold Qle in Hx. simpl in Hx. apply Z.div_pos; lia.
  - intros x H. discriminate H.
  - intros x H. discriminate H.
  - intros i.
    change (Some (round_half_even (Qred (inject_Z i * 1))) = Some i).
    f_equal. apply round_integer. rewrite Qred_correct. ring.
  - intros n.
    change (Some (truncate (Qred (inject_Z n / 1))) = Some n).
    f_equal. apply truncate_integer. rewrite Qred_correct. field.
Qed.

End QFacts.

(** ** Concrete runs over the rationals *)

Module QRuns.

Import QModel QFacts.
Local Open Scope Z_scope.

(** The specification's duty-cycling example: over the ticks 0..20 the
    node is awake at 0, 1, 10, 11 and 20 and samples and transmits at 0,
    10 and 20. *)
Example duty_cycling_ticks :
  map (fun t_s => outcome_of_step (step duty_10_2_5 t_s (@None Q) None))
      (py_range 21)
  = map (fun t_s =>
           Some {| awake := (t_s mod 10 <? 2);
                   take_sample := (t_s =? 0) || (t_s =? 10) || (t_s =? 20);
                   transmit := (t_s =? 0) || (t_s =? 10) || (t_s =? 20) |})
        (py_range 21).
Proof. vm_compute. reflexivity. Qed.

(** The specification's fixed-policy example: with [sample_every_s = 5]
    over 20 seconds, five samples and five packets, at 0, 5, 10, 15, 20. *)
Example fixed_policy_run :
  exists r p g,
    simulate fixed_5 (config 20 1 24 120) default_energy ambient_0
      = Ok (r, p, g) /\
    samples_taken r = 5 /\ packets_sent r = 5 /\
    sent r = map (fun t_s => t_s mod 5 =? 0) (py_range 21) /\
    map is_some (measured r) = sent r.
Proof.
  eexists _, _, _. split; [vm_compute; reflexivity |].
  repeat split; reflexivity.
Qed.

(** *** C1 *)



(** *** C2 *)

(** A configuration with [duration_s = 0] is not rejected: the loop runs
    one tick and a [SimResult] is returned. *)
Lemma zero_duration_runs :
  duration_s (config 0 1 24 120) <= 0 /\
  exists r p g,
    simulate fixed_5 (config 0 1 24 120) default_energy ambient_0
      = Ok (r, p, g) /\
    t r = [0] /\ sent r = [true] /\ samples_taken r = 1.
Proof.
  split; [simpl; lia |].
  eexists _, _, _. split; [vm_compute; reflexivity |].
  repeat split; reflexivity.
Qed.

Lemma simulate_no_validation_witness :
  simulate fixed_5 (config 10 0 24 120) default_energy ambient_0
    = Raise ZeroDivisionError /\
  exists r,
    outcome (simulate fixed_5 (config (-5) 1 24 120) default_energy ambient_0)
      = Ok r /\
    t r = [] /\ truth r = [] /\ measured r = [] /\ sent r = [] /\
    reconstructed r = [] /\ samples_taken r = 0 /\ packets_sent r = 0.
Proof.
  split.
  - apply (proj1 (simulate_no_validation (EA:=Q_exact) fixed_5
                    (config 10 0 24 120) default_energy ambient_0)).
    reflexivity.
  - apply (proj1 (proj2 (simulate_no_validation (EA:=Q_exact) fixed_5
                           (config (-5) 1 24 120) default_energy ambient_0))
             (-5)).
    + reflexivity.
    + reflexivity.
    + lia.
Defined.

(** *** C3 *)

Lemma simulate_lengths_witness :
  exists r p g,
    simulate duty_10_2_5 (config 7 (1 # 2) 24 120) default_energy ambient_0
      = Ok (r, p, g) /\
    exists n,
      ffloor (fdiv (of_Z 7) (1 # 2)%Q) = Some n /\ 0 <= n /\
      length (t r) = Z.to_nat (n + 1) /\
      length (truth r) = Z.to_nat (n + 1) /\
      length (measured r) = Z.to_nat (n + 1) /\
      length (sent r) = Z.to_nat (n + 1) /\
      length (reconstructed r) = Z.to_nat (n + 1).
Proof.
  eexists _, _, _. split; [vm_compute; reflexivity |].
  eapply (@simulate_lengths Q _ _ Q_exact _ _ duty_10_2_5
            (config 7 (1 # 2) 24 120) default_energy ambient_0).
  - reflexivity.
  - reflexivity.
  - vm_compute. reflexivity.
Defined.

(** *** C4 *)

(** With the default (non-negative) energy model, a negative time step
    makes the idle energy and the total negative, and a negative payload
    size makes the transmission energy negative. *)
Lemma negative_energy_runs :
  energy_nonneg default_energy /\
  (exists r p g,
     simulate fixed_5 (config (-10) (-1) 24 120) default_energy ambient_0
       = Ok (r, p, g) /\
     lookup "idle_awake" (energy_breakdown_mj r) = Some (-165)%Q /\
     ~ nonneg (-165)%Q /\
     ~ nonneg (energy_total_mj r)) /\
  (exists r p g,
     simulate fixed_5 (config 20 1 (-1000) 120) default_energy ambient_0
       = Ok (r, p, g) /\
     lookup "tx" (energy_breakdown_mj r) = Some (-18)%Q /\
     ~ nonneg (-18)%Q).
Proof.
  split; [| split].
  - repeat split; reflexivity.
  - eexists _, _, _. split; [vm_compute; reflexivity |].
    repeat split; try reflexivity; intros H; vm_compute in H; discriminate H.
  - eexists _, _, _. split; [vm_compute; reflexivity |].
    repeat split; try reflexivity; intros H; vm_compute in H; discriminate H.
Qed.

Lemma energy_accounting_witness :
  exists r p g,
    simulate duty_10_2_5 (config 20 1 24 120) default_energy ambient_0
      = Ok (r, p, g) /\
    exists sl idl se cp tx,
      energy_breakdown_mj r =
        [ ("sleep"%string, sl); ("idle_awake"%string, idl);
          ("sensing"%string, se); ("cpu"%string, cp); ("tx"%string, tx) ] /\
      nonneg sl /\ nonneg idl /\ nonneg se /\ nonneg cp /\ nonneg tx /\
      nonneg (energy_total_mj r) /\
      energy_total_mj r = fadd (fadd (fadd (fadd sl idl) se) cp) tx.
Proof.
  eexists _, _, _. split; [vm_compute; reflexivity |].
  eapply (@energy_accounting Q _ _ Q_exact _ _ duty_10_2_5
            (config 20 1 24 120) default_energy ambient_0).
  - repeat split; reflexivity.
  - reflexivity.
  - simpl. lia.
  - vm_compute. reflexivity.
Defined.

(** *** C6 *)

Lemma sent_implies_measured_witness :
  exists r p g,
    simulate adaptive_2_1000_10 (config 6 1 24 120) default_energy ambient_0
      = Ok (r, p, g) /\
    nth_error (sent r) 2 = Some true /\
    exists j m, (j <= 2)%nat /\ nth_error (measured r) j = Some (Some m).
Proof.
  eexists _, _, _. split; [vm_compute; reflexivity |].
  split; [reflexivity |].
  eapply (@sent_implies_measured Q _ _ _ _ adaptive_2_1000_10
            (config 6 1 24 120) default_energy ambient_0).
  - vm_compute. reflexivity.
  - reflexivity.
Defined.

(** A packet can be recorded at a tick that takes no measurement: with a
    policy that samples at tick 0 only and asks for a transmission at
    every tick, [sent[1]] is true while [measured[1]] is absent. *)
Example sent_without_measurement :
  exists r p g,
    simulate ResendPolicy_init (config 2 1 24 120) default_energy ambient_0
      = Ok (r, p, g) /\
    nth_error (sent r) 1 = Some true /\
    nth_error (measured r) 1 = Some None /\
    is_some (nth 0 (measured r) None) = true.
Proof.
  eexists _, _, _. split; [vm_compute; reflexivity |].
  repeat split; reflexivity.
Qed.

(** *** C9 *)

Lemma simulate_deterministic_witness :
  outcome (simulate adaptive_2_1000_10 (config 30 1 24 120) default_energy
             ambient_0)
  = outcome (simulate (set_last_tx_value adaptive_2_1000_10 (Some 7%Q))
               (config 30 1 24 120) default_energy (lcg_next ambient_0)) /\
  (forall r policy' g' ambient3,
     simulate adaptive_2_1000_10 (config 30 1 24 120) default_energy ambient_0
       = Ok (r, policy', g') ->
     outcome (simulate policy' (config 30 1 24 120) default_energy ambient3)
       = Ok r).
Proof.
  apply (@simulate_deterministic Q _ _ _ _ _ adaptive_2_1000_10
           (set_last_tx_value adaptive_2_1000_10 (Some 7%Q))
           (config 30 1 24 120) default_energy ambient_0 (lcg_next ambient_0)).
  reflexivity.
Defined.

(** The same policy object run twice gives the same result twice. *)
Example adaptive_run_twice :
  exists r p g,
    simulate adaptive_2_1000_10 (config 30 1 24 120) default_energy ambient_0
      = Ok (r, p, g) /\
    adapt_last_tx_value p <> None /\
    outcome (simulate p (config 30 1 24 120) default_energy g) = Ok r.
Proof.
  eexists _, _, _. split; [vm_compute; reflexivity |].
  split; [discriminate |].
  apply (@simulate_again Q _ _ _ _ _ (config 30 1 24 120) default_energy
           adaptive_2_1000_10 _ ambient_0 _ _).
  vm_compute. reflexivity.
Qed.

(** *** C10 *)

Lemma policy_sees_previous_measurement_witness :
  exists r p g,
    simulate adaptive_2_1000_10 (config 6 1 24 120) default_energy ambient_0
      = Ok (r, p, g) /\
    exists st0 st now_s gt out pol,
      enter adaptive_2_1000_10 (config 6 1 24 120) = Ok st0 /\
      run_ticks (config 6 1 24 120) default_energy (py_range (Z.of_nat 3)) st0
        = Ok st /\
      consult (config 6 1 24 120) (Z.of_nat 3) st = Ok (now_s, gt, out, pol) /\
      st_measured st = firstn 3 (measured r) /\
      step (st_policy st) now_s
           (most_recent None (firstn 3 (measured r))) (st_last_tx_s st)
        = Ok (out, pol).
Proof.
  eexists _, _, _. split; [vm_compute; reflexivity |].
  eapply (@policy_sees_previous_measurement Q _ _ _ _ adaptive_2_1000_10
            (config 6 1 24 120) default_energy ambient_0).
  - vm_compute. reflexivity.
  - simpl. lia.
Defined.

(** *** C5 *)

(** The run of the specification's example: every measurement lies
    between 0 and 100, so no two of them differ by 1000, and three packets
    are sent, none of them at tick 0 or at tick 10. *)
Lemma adaptive_three_packets :
  exists r p g,
    simulate adaptive_2_1000_10 (config 30 1 24 120) default_energy ambient_0
      = Ok (r, p, g) /\
    measurements_within 0 100 (measured r) = true /\
    samples_taken r = 16 /\
    packets_sent r = 3 /\ packets_sent r <> 4 /\
    nth_error (sent r) 0 = Some false /\
    nth_error (sent r) 10 = Some false /\
    nth_error (sent r) 2 = Some true.
Proof.
  eexists _, _, _. split; [vm_compute; reflexivity |].
  repeat split; try reflexivity. discriminate.
Qed.

Lemma adaptive_keep_alive_run_witness :
  exists r policy' g',
    simulate adaptive_2_1000_10 (config 30 1 24 120) default_energy ambient_0
      = Ok (r, policy', g') /\
    samples_taken r = 16 /\
    packets_sent r = 3 /\
    map is_some (measured r) =
      [true; false; true; false; true; false; true; false; true; false;
       true; false; true; false; true; false; true; false; true; false;
       true; false; true; false; true; false; true; false; true; false;
       true] /\
    sent r =
      [false; false; true; false; false; false; false; false; false; false;
       false; false; true; false; false; false; false; false; false; false;
       false; false; true; false; false; false; false; false; false; false;
       false].
Proof.
  apply (@adaptive_keep_alive_run Q _ _ Q_exact (config 30 1 24 120)
           default_energy ambient_0).
  - reflexivity.
  - reflexivity.
  - reflexivity.
  - intros k st0 st Hk H0 Hrun.
    vm_compute in H0. injection H0 as <-.
    do 31 (destruct k as [|k];
           [ vm_compute in Hrun; injection Hrun as <-;
             intros m v Hm Hv; simpl in Hm, Hv;
             try discriminate Hm; try discriminate Hv;
             injection Hm as <-; injection Hv as <-;
             vm_compute; reflexivity
           | ]).
    exfalso. lia.
Defined.

End QRuns.

(** ** The signal over the reals *)

Module RFacts.

Import RModel.
Local Open Scope R_scope.

Lemma of_Z_real (n : Z) : of_Z n = IZR n.
Proof. unfold of_Z. simpl. unfold Q2R. simpl. field. Qed.

Lemma quarter_real : of_Q (25 # 100) = 0.25.
Proof. simpl. unfold Q2R. simpl. lra. Qed.

Lemma third_real : of_Q (33 # 100) = 0.33.
Proof. simpl. unfold Q2R. simpl. lra. Qed.

Lemma zero_real : of_Q 0 = 0.
Proof. simpl. unfold Q2R. simpl. lra. Qed.

Lemma one_real : of_Q 1 = 1.
Proof. simpl. unfold Q2R. simpl. lra. Qed.

Lemma py_max_real (p : R) : py_max (of_Q 1) p = Rmax 1 p.
Proof.
  unfold py_max. rewrite one_real. simpl. unfold Rltb, Rmax.
  destruct (Rlt_dec 1 p) as [Hlt | Hge]; destruct (Rle_dec 1 p) as [Hle | Hgt];
    try reflexivity; lra.
Qed.

Lemma Rmax_one_nonzero (p : R) : feqb (Rmax 1 p) (of_Q 0) = false.
Proof.
  rewrite zero_real. simpl. unfold Reqb.
  destruct (Req_dec_T (Rmax 1 p) 0) as [Heq | Hne]; [| reflexivity].
  pose proof (Rmax_l 1 p). lra.
Qed.

(** Over the reals the code computes the specification's formula for the
    period [max(1, signal_period_s)]. *)
Lemma ground_truth_real (t_s : Z) (cfg : @NodeConfig R) :
  ground_truth t_s cfg
  = Ok (ground_truth_spec (signal_base cfg) (signal_amp cfg)
          (Rmax 1 (signal_period_s cfg)) (IZR t_s)).
Proof.
  unfold ground_truth. rewrite py_max_real.
  rewrite py_div_nonzero by apply Rmax_one_nonzero.
  cbn [bind]. f_equal. unfold signal, ground_truth_spec.
  rewrite quarter_real, third_real. repeat rewrite of_Z_real. simpl.
  assert (Rmax 1 (signal_period_s cfg) <> 0) as Hnz
    by (pose proof (Rmax_l 1 (signal_period_s cfg)); lra).
  f_equal; [f_equal; f_equal; f_equal; field; exact Hnz |].
  f_equal. f_equal. field. exact Hnz.
Qed.

(** C8, as the code has it.  For every time [t] and every configuration,
    [ground_truth(t, cfg)] equals
    [signal_base + signal_amp * sin(2 pi t / p) + 0.25 * sin(2 pi 0.33 t / p)]
    where [p = max(1, signal_period_s)]: a period below one second is
    replaced by one second.  When [signal_period_s >= 1] this is the
    formula with [p = signal_period_s]. *)
Theorem ground_truth_clamped (t_s : Z) (cfg : @NodeConfig R) :
  ground_truth t_s cfg
  = Ok (ground_truth_spec (signal_base cfg) (signal_amp cfg)
          (Rmax 1 (signal_period_s cfg)) (IZR t_s)) /\
  (1 <= signal_period_s cfg ->
   ground_truth t_s cfg
   = Ok (ground_truth_spec (signal_base cfg) (signal_amp cfg)
           (signal_period_s cfg) (IZR t_s))).
Proof.
  split; [apply ground_truth_real |].
  intros Hp. rewrite ground_truth_real. rewrite Rmax_right by exact Hp.
  reflexivity.
Qed.

Lemma ground_truth_clamped_witness :
  ground_truth 5 default_signal
  = Ok (ground_truth_spec (signal_base default_signal)
          (signal_amp default_signal) (signal_period_s default_signal)
          (IZR 5)).
Proof.
  apply (proj2 (ground_truth_clamped 5 default_signal)).
  simpl. lra.
Defined.

(** With a period of one half, at time 1, the code's value is above 20
    and the value of the specification's formula is below 20. *)
Lemma fast_signal_differs :
  exists v,
    0 <= IZR 1 /\
    ground_truth 1 fast_signal = Ok v /\
    v <> ground_truth_spec (signal_base fast_signal) (signal_amp fast_signal)
           (signal_period_s fast_signal) (IZR 1).
Proof.
  eexists. split; [lra |]. split; [apply ground_truth_real |].
  simpl. rewrite Rmax_left by lra.
  unfold ground_truth_spec.
  replace (2 * PI * 1 / 1) with (2 * PI) by field.
  replace (2 * PI * 1 / (1 / 2)) with (0 + 2 * INR 2 * PI)
    by (change (INR 2) with (1 + 1); field).
  rewrite sin_2PI, sin_period, sin_0.
  replace (2 * PI * 0.33 * 1 / 1) with (0.66 * PI) by lra.
  replace (2 * PI * 0.33 * 1 / (1 / 2)) with (1.32 * PI) by lra.
  pose proof PI_RGT_0 as Hpi.
  assert (0 < sin (0.66 * PI)) as Hpos by (apply sin_gt_0; lra).
  assert (sin (1.32 * PI) < 0) as Hneg by (apply sin_lt_0; lra).
  lra.
Qed.

End RFacts.

(** * Further properties of the package *)

Section Further.

Context {F : Type} {FL : PyFloat F} {RND : PyRandom F}.

Local Abbreviation loop_state P := (LoopState F P rng).

(** ** Counting *)

Lemma count_present_snoc (l : list (option F)) (x : option F) :
  count_present (l ++ [x])
  = (count_present l + (if is_some x then 1 else 0))%nat.
Proof.
  unfold count_present. rewrite filter_app, length_app. simpl.
  destruct (is_some x); reflexivity.
Qed.

Lemma count_true_snoc (l : list bool) (b : bool) :
  count_true (l ++ [b]) = (count_true l + (if b then 1 else 0))%nat.
Proof.
  unfold count_true. rewrite filter_app, length_app. simpl.
  destruct b; reflexivity.
Qed.

Lemma count_true_none (l : list bool) :
  count_true l = 0%nat -> forall i, nth_error l i <> Some true.
Proof.
  unfold count_true. induction l as [|b l IH]; intros H i Hi.
  - destruct i; discriminate Hi.
  - destruct b; simpl in H; [discriminate H |].
    destruct i as [|i]; [discriminate Hi |]. exact (IH H i Hi).
Qed.

Lemma count_true_le_length (l : list bool) : (count_true l <= length l)%nat.
Proof. unfold count_true. apply filter_length_le. Qed.

Section Bookkeeping.

Context {P : Type} {PL : @Policy F P}.
Variable cfg : @NodeConfig F.
Variable energy : @EnergyModel F.

Lemma is_some_mval_of (st : loop_state P) (gt : F) (out : PolicyOutput) :
  is_some (mval_of cfg st gt out) = sampling out.
Proof. unfold mval_of. destruct (sampling out); reflexivity. Qed.

(** The transmission accumulator after the body of the loop. *)
Lemma account_tx (st st' : loop_state P) now_s gt out policy' :
  account cfg energy st now_s gt out policy' = Ok st' ->
  if sending cfg st gt out
  then exists cost, e_tx energy (payload_bytes cfg) = Ok cost /\
                    st_e_tx st' = fadd (st_e_tx st) cost
  else st_e_tx st' = st_e_tx st.
Proof.
  unfold account, sending, last_measurement_of, mval_of, sampling.
  destruct (awake out), (take_sample out), (transmit out); simpl;
    try destruct (st_last_measurement st); simpl; intros H;
    try (apply bind_ok in H; destruct H as (cost & Hc & H));
    inversion H; subst; simpl; eauto.
Qed.

Lemma tick_counts_agree (i : Z) (st st' : loop_state P) :
  counts_agree energy st -> tick cfg energy i st = Ok st' ->
  counts_agree energy st'.
Proof.
  intros (Hs & Hp & Hse & Hc) H.
  apply tick_ok in H. destruct H as (now_s & gt & out & p' & _ & Ha).
  pose proof (account_lists _ _ _ _ _ _ _ Ha) as (_ & _ & Hm & Hsent & _).
  pose proof (account_counters _ _ _ _ _ _ _ Ha) as (Hsam & Hpk & _).
  pose proof (account_energy _ _ _ _ _ _ _ Ha) as (_ & _ & Hes & Hec & _).
  unfold counts_agree.
  rewrite Hm, Hsent, Hsam, Hpk, Hes, Hec, count_present_snoc, count_true_snoc,
    is_some_mval_of, Hs, Hp, Hse, Hc.
  destruct (sampling out), (sending cfg st gt out);
    repeat rewrite Nat.add_0_r; repeat rewrite Nat.add_1_r; simpl accumulate;
    repeat split; try reflexivity; lia.
Qed.

Lemma tick_tx_agrees (i : Z) (st st' : loop_state P) :
  tx_agrees cfg energy st -> tick cfg energy i st = Ok st' ->
  tx_agrees cfg energy st'.
Proof.
  unfold tx_agrees. intros Hinv H.
  apply tick_ok in H. destruct H as (now_s & gt & out & p' & _ & Ha).
  pose proof (account_lists _ _ _ _ _ _ _ Ha) as (_ & _ & _ & Hsent & _).
  pose proof (account_tx _ _ _ _ _ Ha) as Htx.
  rewrite Hsent, count_true_snoc.
  destruct (sending cfg st gt out).
  - destruct Htx as (cost & Hcost & Hst). rewrite Hcost in *.
    rewrite Hst, Hinv, Nat.add_1_r. reflexivity.
  - rewrite Htx, Nat.add_0_r. exact Hinv.
Qed.

Lemma tick_awake_agrees (i : Z) (st st' : loop_state P) :
  awake_agrees cfg energy st -> tick cfg energy i st = Ok st' ->
  awake_agrees cfg energy st'.
Proof.
  intros (up & down & Hlen & Hup & Hdown) H.
  apply tick_ok in H. destruct H as (now_s & gt & out & p' & _ & Ha).
  pose proof (account_lists _ _ _ _ _ _ _ Ha) as (Ht & _).
  pose proof (account_energy _ _ _ _ _ _ _ Ha) as (Hi & Hs & _).
  unfold awake_agrees. rewrite Ht, Hi, Hs, length_app. simpl.
  destruct (awake out).
  - exists (S up), down. rewrite Hup, Hdown. simpl.
    repeat split; try reflexivity; lia.
  - exists up, (S down). rewrite Hup, Hdown. simpl.
    repeat split; try reflexivity; lia.
Qed.

End Bookkeeping.

(** A property that holds on entering the loop and that every iteration
    keeps holds of the loop state from which the result is built. *)
Lemma simulate_invariant {P : Type} {PL : @Policy F P}
    (Inv : loop_state P -> Prop) (policy : P) (cfg : @NodeConfig F)
    (energy : @EnergyModel F) (ambient : rng) (r : SimResult) (policy' : P)
    (g' : rng) :
  (forall st0, enter policy cfg = Ok st0 -> Inv st0) ->
  (forall i st st', Inv st -> tick cfg energy i st = Ok st' -> Inv st') ->
  simulate policy cfg energy ambient = Ok (r, policy', g') ->
  exists st, Inv st /\ finish st = Ok r /\
             policy' = st_policy st /\ g' = st_rng st.
Proof.
  intros Hinit Hstep H. apply simulate_ok in H.
  destruct H as (st0 & steps & st & H0 & _ & _ & Hrun & Hfin & Hp & Hg).
  exists st. repeat split; try assumption.
  eapply run_ticks_invariant; [exact Hstep | | exact Hrun].
  apply Hinit. exact H0.
Qed.

(** [samples_taken] is the number of measurements in [measured] and
    [packets_sent] the number of true flags in [sent], for every policy. *)
Theorem counters_count_sequences {P : Type} {PL : @Policy F P}
    (policy : P) (cfg : @NodeConfig F) (energy : @EnergyModel F)
    (ambient : rng) (r : SimResult) (policy' : P) (g' : rng) :
  simulate policy cfg energy ambient = Ok (r, policy', g') ->
  samples_taken r = Z.of_nat (count_present (measured r)) /\
  packets_sent r = Z.of_nat (count_true (sent r)) /\
  packets_sent r <= Z.of_nat (length (t r)).
Proof.
  intros H.
  destruct (simulate_invariant (counts_agree energy) policy cfg energy ambient)
    with (r := r) (policy' := policy') (g' := g')
    as (st & (Hs & Hp & _) & Hfin & _).
  - intros st0 H0. destruct (enter_ok _ _ H0) as (rv & _ & ->).
    repeat split; reflexivity.
  - intros i s s'. apply tick_counts_agree.
  - exact H.
  - pose proof H as Hlen. apply simulate_ok in Hlen.
    destruct Hlen as (st0 & steps & stn & H0 & _ & _ & Hrun & Hfin' & _).
    apply finish_ok in Hfin.
    destruct Hfin as (Ht & _ & Hm & Hsent & _ & Hsam & Hpk & _).
    rewrite Hsam, Hpk, Hm, Hsent. repeat split; try assumption.
    rewrite Hp. apply Nat2Z.inj_le.
    apply finish_ok in Hfin'. destruct Hfin' as (Ht' & _ & _ & Hsent' & _).
    pose proof (run_ticks_lengths _ _ _ _ Hrun) as (Hl1 & _ & _ & Hl4 & _).
    destruct (enter_ok _ _ H0) as (rv & _ & Hst0). rewrite Hst0 in Hl1, Hl4.
    simpl in Hl1, Hl4.
    rewrite <- Hsent, Hsent', Ht', Hl1, <- Hl4. apply count_true_le_length.
Qed.

(** The energy breakdown is determined by what the run did: the sensing
    and CPU entries are [samples_taken] additions of the per-sample costs
    to [0.0], the transmission entry is [packets_sent] additions of the
    cost of one packet, and the idle and sleep entries together received
    one addition per tick. *)
Theorem energy_by_counts {P : Type} {PL : @Policy F P}
    (policy : P) (cfg : @NodeConfig F) (energy : @EnergyModel F)
    (ambient : rng) (r : SimResult) (policy' : P) (g' : rng) :
  simulate policy cfg energy ambient = Ok (r, policy', g') ->
  lookup "sensing" (energy_breakdown_mj r)
    = Some (accumulate (Z.to_nat (samples_taken r)) (e_sense energy)) /\
  lookup "cpu" (energy_breakdown_mj r)
    = Some (accumulate (Z.to_nat (samples_taken r)) (e_cpu energy)) /\
  (forall cost, e_tx energy (payload_bytes cfg) = Ok cost ->
     lookup "tx" (energy_breakdown_mj r)
       = Some (accumulate (Z.to_nat (packets_sent r)) cost)) /\
  exists up down : nat,
    (up + down)%nat = length (t r) /\
    lookup "idle_awake" (energy_breakdown_mj r)
      = Some (accumulate up (e_idle_awake energy (dt_s cfg))) /\
    lookup "sleep" (energy_breakdown_mj r)
      = Some (accumulate down (e_sleep energy (dt_s cfg))).
Proof.
  intros H.
  destruct (simulate_invariant
              (fun st => counts_agree energy st /\ tx_agrees cfg energy st /\
                         awake_agrees cfg energy st)
              policy cfg energy ambient)
    with (r := r) (policy' := policy') (g' := g')
    as (st & ((Hs & Hp & Hse & Hc) & Htx & (up & down & Hlen & Hup & Hdown))
           & Hfin & _).
  - intros st0 H0. destruct (enter_ok _ _ H0) as (rv & _ & ->).
    split; [repeat split; reflexivity |]. split.
    + unfold tx_agrees. simpl.
      destruct (e_tx energy (payload_bytes cfg)); [| split]; reflexivity.
    + exists 0%nat, 0%nat. repeat split; reflexivity.
  - intros i s s' (H1 & H2 & H3) Ht. split; [| split].
    + eapply tick_counts_agree; eassumption.
    + eapply tick_tx_agrees; eassumption.
    + eapply tick_awake_agrees; eassumption.
  - exact H.
  - apply finish_ok in Hfin.
    destruct Hfin as (Ht & _ & _ & _ & _ & Hsam & Hpk & Hb & _).
    rewrite Hb, Hsam, Hpk, Ht, Hs, Hp. repeat rewrite Nat2Z.id. simpl.
    split; [rewrite Hse; reflexivity |].
    split; [rewrite Hc; reflexivity |].
    split.
    + intros cost Hcost. unfold tx_agrees in Htx. rewrite Hcost in Htx.
      rewrite Htx. reflexivity.
    + exists up, down. rewrite Hup, Hdown. repeat split; try reflexivity.
      exact Hlen.
Qed.

(** With a bit rate of zero the cost of a packet cannot be computed: a
    call that returns has sent nothing, and its transmission energy is
    the initial [0.0]. *)
Theorem zero_bitrate_sends_nothing {P : Type} {PL : @Policy F P}
    (policy : P) (cfg : @NodeConfig F) (energy : @EnergyModel F)
    (ambient : rng) (r : SimResult) (policy' : P) (g' : rng) :
  feqb (bitrate_bps energy) (of_Q 0) = true ->
  simulate policy cfg energy ambient = Ok (r, policy', g') ->
  packets_sent r = 0 /\
  (forall i, nth_error (sent r) i <> Some true) /\
  lookup "tx" (energy_breakdown_mj r) = Some (of_Q 0).
Proof.
  intros Hbit H.
  assert (e_tx energy (payload_bytes cfg) = Raise ZeroDivisionError) as Hraise
    by (unfold e_tx, py_div; rewrite Hbit; reflexivity).
  destruct (simulate_invariant
              (fun st => counts_agree energy st /\ tx_agrees cfg energy st)
              policy cfg energy ambient)
    with (r := r) (policy' := policy') (g' := g')
    as (st & ((_ & Hp & _) & Htx) & Hfin & _).
  - intros st0 H0. destruct (enter_ok _ _ H0) as (rv & _ & ->).
    split; [repeat split; reflexivity |].
    unfold tx_agrees. rewrite Hraise. split; reflexivity.
  - intros i s s' (H1 & H2) Ht. split.
    + eapply tick_counts_agree; eassumption.
    + eapply tick_tx_agrees; eassumption.
  - exact H.
  - unfold tx_agrees in Htx. rewrite Hraise in Htx. destruct Htx as (Hz & He).
    apply finish_ok in Hfin.
    destruct Hfin as (_ & _ & _ & Hsent & _ & _ & Hpk & Hb & _).
    rewrite Hpk, Hsent, Hb, Hp, Hz. simpl. rewrite He.
    repeat split; try reflexivity. apply count_true_none. exact Hz.
Qed.

(** ** The reconstruction *)

Lemma combine_snoc {A B} (a : list A) (b : list B) (x : A) (y : B) :
  length a = length b ->
  combine (a ++ [x]) (b ++ [y]) = combine a b ++ [(x, y)].
Proof.
  revert b. induction a as [|a0 a IH]; intros [|b0 b] H; simpl in *;
    try discriminate H; [reflexivity |].
  rewrite IH by lia. reflexivity.
Qed.

Lemma hold_snoc (acc : F * option F) (l : list (option F * bool))
    (x : option F * bool) :
  hold acc (l ++ [x])
  = hold acc l ++ [fst (hold_step (fold_left hold_step l acc) x)].
Proof.
  revert acc. induction l as [|y l IH]; intros acc; simpl.
  - reflexivity.
  - rewrite IH. reflexivity.
Qed.

Lemma hold_length (acc : F * option F) (l : list (option F * bool)) :
  length (hold acc l) = length l.
Proof.
  revert acc. induction l as [|y l IH]; intros acc; simpl;
    [reflexivity | rewrite IH; reflexivity].
Qed.

(** Without a true flag the receiver shows its first value throughout. *)
Lemma hold_silent (acc : F * option F) (l : list (option F * bool)) :
  (forall i x, nth_error l i = Some x -> snd x = false) ->
  hold acc l = repeat (fst acc) (length l).
Proof.
  revert acc. induction l as [|[m b] l IH]; intros acc H.
  - reflexivity.
  - assert (b = false) as -> by (apply (H 0%nat (m, b)); reflexivity).
    cbn [hold hold_step fst snd length repeat]. f_equal.
    rewrite IH; [reflexivity |].
    intros i x Hi. apply (H (S i)). exact Hi.
Qed.

Section Reconstruction.

Context {P : Type} {PL : @Policy F P}.
Variable cfg : @NodeConfig F.
Variable energy : @EnergyModel F.

Lemma hold_step_account (st : loop_state P) (gt : F) (out : PolicyOutput) :
  hold_step (st_recon_val st, st_last_measurement st)
            (mval_of cfg st gt out, sending cfg st gt out)
  = (if sending cfg st gt out
     then match last_measurement_of cfg st gt out with
          | Some m => m
          | None => st_recon_val st
          end
     else st_recon_val st,
     last_measurement_of cfg st gt out).
Proof.
  unfold hold_step, last_measurement_of, mval_of. simpl.
  destruct (sampling out); reflexivity.
Qed.

Lemma tick_holds_last (rv0 : F) (i : Z) (st st' : loop_state P) :
  holds_last rv0 st -> tick cfg energy i st = Ok st' -> holds_last rv0 st'.
Proof.
  intros (Hlen & Hrec & Hacc) H.
  apply tick_ok in H. destruct H as (now_s & gt & out & p' & _ & Ha).
  pose proof (account_lists _ _ _ _ _ _ _ Ha)
    as (_ & _ & Hm & Hs & _ & Hlm & _).
  pose proof (account_recon _ _ _ _ _ _ _ Ha) as (Hrv & Hre & _).
  unfold holds_last.
  rewrite Hre, Hm, Hs, Hlm, Hrv, combine_snoc by exact Hlen.
  rewrite hold_snoc, fold_left_app, <- Hacc, <- Hrec.
  cbn [fold_left]. repeat rewrite hold_step_account. cbn [fst snd].
  repeat split; try reflexivity.
  repeat rewrite length_app. simpl. lia.
Qed.

Lemma tick_shows_latest (i : Z) (st st' : loop_state P) :
  shows_latest st -> tick cfg energy i st = Ok st' -> shows_latest st'.
Proof.
  intros (Hl1 & Hl2 & Htr & Hinv) H.
  assert (tracks_measured st') as Htr'
    by (eapply tick_tracks_measured; eassumption).
  apply tick_ok in H. destruct H as (now_s & gt & out & p' & _ & Ha).
  pose proof (account_lists _ _ _ _ _ _ _ Ha)
    as (_ & _ & Hm & Hs & _ & Hlm & _).
  pose proof (account_recon _ _ _ _ _ _ _ Ha) as (Hrv & Hre & _).
  unfold shows_latest. rewrite Hm, Hs, Hre. repeat rewrite length_app.
  cbn [length]. repeat split; try lia; try exact Htr'.
  intros k Hk.
  destruct (Nat.lt_ge_cases k (length (st_sent st))) as [Hlt | Hge].
  - rewrite nth_error_app1 in Hk by exact Hlt.
    destruct (Hinv k Hk) as (m & Hmost & Hnth). exists m.
    rewrite firstn_app.
    replace (S k - length (st_measured st))%nat with 0%nat by lia.
    simpl. rewrite app_nil_r. split; [exact Hmost |].
    rewrite nth_error_app1 by lia. exact Hnth.
  - rewrite nth_error_app2 in Hk by exact Hge.
    destruct (k - length (st_sent st))%nat as [|d] eqn:Hd;
      [| destruct d; discriminate Hk].
    simpl in Hk. inversion Hk as [Hsend].
    assert (k = length (st_measured st)) as Hkeq by lia.
    rewrite Hrv, Hsend.
    pose proof Hsend as Hsome. unfold sending in Hsome.
    destruct (last_measurement_of cfg st gt out) as [m|] eqn:Hlast;
      [| rewrite andb_false_r in Hsome; discriminate Hsome].
    exists m. split.
    + rewrite firstn_all2 by (rewrite length_app; simpl; lia).
      rewrite <- Hm. unfold tracks_measured in Htr'. rewrite <- Htr'.
      exact Hlm.
    + rewrite nth_error_app2 by lia.
      replace (k - length (st_reconstructed st))%nat with 0%nat by lia.
      reflexivity.
Qed.

End Reconstruction.

Lemma nth_error_combine_snd {A B} (a : list A) (b : list B) (i : nat)
    (x : A * B) :
  nth_error (combine a b) i = Some x -> nth_error b i = Some (snd x).
Proof.
  revert b i. induction a as [|a0 a IH]; intros [|b0 b] i H; simpl in H;
    try (destruct i; discriminate H).
  destruct i as [|i]; simpl in *.
  - inversion H; subst. reflexivity.
  - apply IH. exact H.
Qed.

(** The five sequences of a result have one length. *)
Lemma simulate_same_lengths {P : Type} {PL : @Policy F P}
    (policy : P) (cfg : @NodeConfig F) (energy : @EnergyModel F)
    (ambient : rng) (r : SimResult) (policy' : P) (g' : rng) :
  simulate policy cfg energy ambient = Ok (r, policy', g') ->
  length (truth r) = length (t r) /\ length (measured r) = length (t r) /\
  length (sent r) = length (t r) /\ length (reconstructed r) = length (t r).
Proof.
  intros H. apply simulate_ok in H.
  destruct H as (st0 & steps & st & H0 & _ & _ & Hrun & Hfin & _).
  apply finish_ok in Hfin. destruct Hfin as (-> & -> & -> & -> & -> & _).
  apply run_ticks_lengths in Hrun.
  destruct (enter_ok _ _ H0) as (rv & _ & ->). simpl in Hrun.
  destruct Hrun as (-> & -> & -> & -> & ->). repeat split; reflexivity.
Qed.

Lemma simulate_holds_last {P : Type} {PL : @Policy F P}
    (policy : P) (cfg : @NodeConfig F) (energy : @EnergyModel F)
    (ambient : rng) (r : SimResult) (policy' : P) (g' : rng) :
  simulate policy cfg energy ambient = Ok (r, policy', g') ->
  exists rv0,
    ground_truth 0 cfg = Ok rv0 /\
    reconstructed r = hold (rv0, None) (combine (measured r) (sent r)).
Proof.
  intros H. pose proof H as H'. apply simulate_ok in H'.
  destruct H' as (st0 & _ & _ & H0 & _).
  destruct (enter_ok _ _ H0) as (rv0 & Hgt & Hst0).
  exists rv0. split; [exact Hgt |].
  destruct (simulate_invariant (holds_last rv0) policy cfg energy ambient)
    with (r := r) (policy' := policy') (g' := g')
    as (st & (_ & Hrec & _) & Hfin & _).
  - intros s0 Hs0. rewrite H0 in Hs0. inversion Hs0; subst s0.
    rewrite Hst0. repeat split; reflexivity.
  - intros i s s'. apply tick_holds_last.
  - exact H.
  - apply finish_ok in Hfin. destruct Hfin as (_ & _ & -> & -> & -> & _).
    exact Hrec.
Qed.

(** The reconstructed sequence is what a receiver shows that starts from
    [ground_truth(0)] and, at each tick whose [sent] flag is true, takes
    the most recent measurement of the node: it is a function of
    [measured], [sent] and that first value. *)
Theorem reconstruction_is_hold {P : Type} {PL : @Policy F P}
    (policy : P) (cfg : @NodeConfig F) (energy : @EnergyModel F)
    (ambient : rng) (r : SimResult) (policy' : P) (g' : rng) :
  simulate policy cfg energy ambient = Ok (r, policy', g') ->
  exists rv0,
    ground_truth 0 cfg = Ok rv0 /\
    reconstructed r = hold (rv0, None) (combine (measured r) (sent r)).
Proof. apply simulate_holds_last. Qed.

(** In a run that sends no packet the reconstruction is [ground_truth(0)]
    at every tick. *)
Theorem silent_run_shows_startup {P : Type} {PL : @Policy F P}
    (policy : P) (cfg : @NodeConfig F) (energy : @EnergyModel F)
    (ambient : rng) (r : SimResult) (policy' : P) (g' : rng) :
  simulate policy cfg energy ambient = Ok (r, policy', g') ->
  (forall i, nth_error (sent r) i <> Some true) ->
  exists rv0,
    ground_truth 0 cfg = Ok rv0 /\
    reconstructed r = repeat rv0 (length (t r)).
Proof.
  intros H Hsilent.
  destruct (simulate_holds_last _ _ _ _ H) as (rv0 & Hgt & Hrec).
  destruct (simulate_same_lengths _ _ _ _ H) as (_ & Hlm & Hls & Hlr).
  exists rv0. split; [exact Hgt |].
  rewrite Hrec, hold_silent.
  - rewrite length_combine, Hlm, Hls, Nat.min_id. reflexivity.
  - intros i x Hi. apply nth_error_combine_snd in Hi.
    destruct (snd x) eqn:Hx; [| reflexivity].
    exfalso. exact (Hsilent i Hi).
Qed.

(** At a tick whose [sent] flag is true the reconstruction is the most
    recent measurement taken up to and including that tick. *)
Theorem packet_shows_latest {P : Type} {PL : @Policy F P}
    (policy : P) (cfg : @NodeConfig F) (energy : @EnergyModel F)
    (ambient : rng) (r : SimResult) (policy' : P) (g' : rng) (i : nat) :
  simulate policy cfg energy ambient = Ok (r, policy', g') ->
  nth_error (sent r) i = Some true ->
  exists m,
    most_recent None (firstn (S i) (measured r)) = Some m /\
    nth_error (reconstructed r) i = Some m.
Proof.
  intros H Hi.
  destruct (simulate_invariant (shows_latest (P:=P)) policy cfg energy ambient)
    with (r := r) (policy' := policy') (g' := g')
    as (st & (_ & _ & _ & Hinv) & Hfin & _).
  - intros s0 Hs0. destruct (enter_ok _ _ Hs0) as (rv & _ & ->).
    repeat split; try reflexivity.
    intros k Hk. simpl in Hk. destruct k; discriminate Hk.
  - intros k s s'. apply tick_shows_latest.
  - exact H.
  - apply finish_ok in Hfin. destruct Hfin as (_ & _ & -> & Hs & -> & _).
    apply Hinv. rewrite <- Hs. exact Hi.
Qed.

(** ** Sensing and the generator *)

Section Sensing.

Context {P : Type} {PL : @Policy F P}.
Variable cfg : @NodeConfig F.
Variable energy : @EnergyModel F.

Lemma tick_senses (g0 : rng) (i : Z) (st st' : loop_state P) :
  senses cfg g0 st -> tick cfg energy i st = Ok st' -> senses cfg g0 st'.
Proof.
  intros (Hlen & Hsense) H.
  apply tick_ok in H. destruct H as (now_s & gt & out & p' & _ & Ha).
  pose proof (account_lists _ _ _ _ _ _ _ Ha) as (_ & Htr & Hm & _).
  pose proof (account_counters _ _ _ _ _ _ _ Ha) as (_ & _ & _ & Hrng).
  unfold senses, sense in *.
  rewrite Htr, Hm, Hrng, map_app. cbn [map].
  rewrite combine_snoc by (rewrite length_map; exact Hlen).
  rewrite fold_left_app, <- Hsense. cbn [fold_left].
  unfold sense_step. cbn [fst snd]. rewrite is_some_mval_of.
  unfold mval_of. repeat rewrite length_app. cbn [length].
  destruct (sampling out); split; try reflexivity; lia.
Qed.

Lemma tick_on_time_axis (i : Z) (st st' : loop_state P) :
  on_time_axis cfg st -> tick cfg energy i st = Ok st' -> on_time_axis cfg st'.
Proof.
  unfold on_time_axis. intros Hinv H.
  apply tick_ok in H. destruct H as (now_s & gt & out & p' & Hc & Ha).
  pose proof (account_lists _ _ _ _ _ _ _ Ha) as (Ht & Htr & _).
  apply consult_ok in Hc. destruct Hc as (_ & Hgt & _).
  rewrite Ht, Htr. apply Forall2_app; [exact Hinv |].
  constructor; [exact Hgt | constructor].
Qed.

(** The tick times that the loop appends are the rounded products of the
    indices with the time step. *)
Lemma run_ticks_times (l : list Z) (st st' : loop_state P) :
  run_ticks cfg energy l st = Ok st' ->
  exists nows,
    st_t st' = st_t st ++ nows /\
    Forall2 (fun i now_s => fround (fmul (of_Z i) (dt_s cfg)) = Some now_s)
            l nows.
Proof.
  revert st. induction l as [|i l IH]; intros st H; simpl in H.
  - inversion H; subst. exists []. rewrite app_nil_r.
    split; [reflexivity | constructor].
  - apply bind_ok in H. destruct H as (s & Hs & H).
    apply tick_ok in Hs. destruct Hs as (now_s & gt & out & p' & Hc & Ha).
    pose proof (account_lists _ _ _ _ _ _ _ Ha) as (Ht & _).
    apply consult_ok in Hc. destruct Hc as (Hnow & _).
    destruct (IH _ H) as (nows & Hnows & Hall).
    exists (now_s :: nows). rewrite Hnows, Ht, <- app_assoc.
    split; [reflexivity |]. constructor; assumption.
Qed.

End Sensing.

(** Each measurement is the ground truth of its tick plus the next draw
    of the generator seeded from the configuration; the generator is
    advanced at the sampling ticks only, and the state it is left in is
    the one after [samples_taken] draws. *)
Theorem measurements_are_draws {P : Type} {PL : @Policy F P}
    (policy : P) (cfg : @NodeConfig F) (energy : @EnergyModel F)
    (ambient : rng) (r : SimResult) (policy' : P) (g' : rng) :
  simulate policy cfg energy ambient = Ok (r, policy', g') ->
  sense (noise_std cfg) (rng_seed (seed cfg)) (truth r)
        (map is_some (measured r))
  = (measured r, g').
Proof.
  intros H.
  destruct (simulate_invariant (senses cfg (rng_seed (seed cfg)))
              policy cfg energy ambient)
    with (r := r) (policy' := policy') (g' := g')
    as (st & (_ & Hsense) & Hfin & _ & Hg).
  - intros s0 Hs0. destruct (enter_ok _ _ Hs0) as (rv & _ & ->).
    split; reflexivity.
  - intros k s s'. apply tick_senses.
  - exact H.
  - apply finish_ok in Hfin. destruct Hfin as (_ & -> & -> & _).
    rewrite Hg. symmetry. exact Hsense.
Qed.

(** The time axis holds the rounded products of the step indices
    [0 .. int(duration_s / dt_s)] with the time step, and [truth] holds
    the ground truth at these times. *)
Theorem time_axis {P : Type} {PL : @Policy F P}
    (policy : P) (cfg : @NodeConfig F) (energy : @EnergyModel F)
    (ambient : rng) (r : SimResult) (policy' : P) (g' : rng) :
  simulate policy cfg energy ambient = Ok (r, policy', g') ->
  exists steps,
    ftrunc (fdiv (of_Z (duration_s cfg)) (dt_s cfg)) = Some steps /\
    Forall2 (fun i now_s => fround (fmul (of_Z i) (dt_s cfg)) = Some now_s)
            (py_range (steps + 1)) (t r) /\
    Forall2 (fun now_s gt => ground_truth now_s cfg = Ok gt) (t r) (truth r).
Proof.
  intros H. pose proof H as H'. apply simulate_ok in H'.
  destruct H' as (st0 & steps & st & H0 & _ & Htr & Hrun & Hfin & _).
  exists steps. split; [exact Htr |].
  apply finish_ok in Hfin. destruct Hfin as (-> & -> & _).
  split.
  - destruct (run_ticks_times _ _ _ _ Hrun) as (nows & Hnows & Hall).
    destruct (enter_ok _ _ H0) as (rv & _ & Hst0).
    rewrite Hst0 in Hnows. simpl in Hnows. rewrite Hnows. exact Hall.
  - assert (on_time_axis cfg st) as Hinv; [| exact Hinv].
    eapply run_ticks_invariant; [ | | exact Hrun].
    + intros k s s'. apply tick_on_time_axis.
    + destruct (enter_ok _ _ H0) as (rv & _ & ->). constructor.
Qed.

Lemma simulate_unit_step {EA : @ExactArith F FL} {P : Type}
    {PL : @Policy F P} (policy : P) (cfg : @NodeConfig F)
    (energy : @EnergyModel F) (ambient : rng) (r : SimResult) (policy' : P)
    (g' : rng) :
  dt_s cfg = of_Q 1 ->
  simulate policy cfg energy ambient = Ok (r, policy', g') ->
  t r = py_range (duration_s cfg + 1) /\
  truth r = map (fun now_s => signal (omega cfg) now_s cfg) (t r).
Proof.
  intros Hdt H. pose proof H as H'. apply simulate_ok in H'.
  destruct H' as (st0 & steps & st & H0 & _ & Htr & Hrun & Hfin & _).
  rewrite Hdt, trunc_unit_quot in Htr. inversion Htr; subst steps.
  apply finish_ok in Hfin. destruct Hfin as (-> & -> & _).
  destruct (enter_ok _ _ H0) as (rv & _ & Hst0).
  split.
  - destruct (run_ticks_times _ _ _ _ Hrun) as (nows & Hnows & Hall).
    rewrite Hst0 in Hnows. simpl in Hnows. rewrite Hnows.
    remember (py_range (duration_s cfg + 1)) as l eqn:Hl.
    clear - Hall Hdt EA. rewrite Hdt in Hall.
    induction Hall as [|i now_s l nows Hi Hrest IH].
    + reflexivity.
    + rewrite round_unit_step in Hi. congruence.
  - assert (on_time_axis cfg st) as Hinv.
    { eapply run_ticks_invariant; [ | | exact Hrun].
      - intros k s s'. apply tick_on_time_axis.
      - rewrite Hst0. constructor. }
    unfold on_time_axis in Hinv. clear - Hinv EA.
    induction Hinv as [|now_s gt ts gts Hgt Hrest IH].
    + reflexivity.
    + rewrite ground_truth_total in Hgt. simpl. congruence.
Qed.

(** With a time step of one second the time axis is
    [0, 1, ..., duration_s], and [truth] is the signal along it. *)
Theorem unit_step_time_axis {EA : @ExactArith F FL} {P : Type}
    {PL : @Policy F P} (policy : P) (cfg : @NodeConfig F)
    (energy : @EnergyModel F) (ambient : rng) (r : SimResult) (policy' : P)
    (g' : rng) :
  dt_s cfg = of_Q 1 ->
  simulate policy cfg energy ambient = Ok (r, policy', g') ->
  t r = py_range (duration_s cfg + 1) /\
  truth r = map (fun now_s => signal (omega cfg) now_s cfg) (t r).
Proof. apply simulate_unit_step. Qed.

(** ** The policies of the package *)

(** What a step of a policy of the package returns. *)
Lemma package_step (p : PackagePolicy) (t_s : Z) (lm : option F)
    (ltx : option Z) :
  exists out p',
    step p t_s lm ltx = Ok (out, p') /\
    (take_sample out = true -> awake out = true) /\
    (transmit out = true -> take_sample out = true) /\
    (lockstep p = true -> transmit out = take_sample out) /\
    (always_awake p = true -> positive_periods p = true -> awake out = true) /\
    lockstep p' = lockstep p /\
    always_awake p' = always_awake p /\
    positive_periods p' = positive_periods p /\
    (forall f, p = Fixed f ->
       p' = p /\ awake out = true /\
       take_sample out = (t_s mod fixed_sample_every_s f =? 0)).
Proof.
  destruct p as [f | d | a]; simpl.
  - eexists _, _. split; [reflexivity |]. simpl.
    repeat split; try reflexivity; try tauto; try congruence.
  - eexists _, _. split; [reflexivity |]. simpl.
    repeat split; try reflexivity; try tauto; try discriminate.
    + intros H. apply andb_true_iff in H. tauto.
    + intros Hw Hp.
      apply andb_true_iff in Hp. destruct Hp as (Hp & _).
      apply andb_true_iff in Hp. destruct Hp as (Hp & _).
      apply Z.leb_le in Hw, Hp. apply Z.ltb_lt.
      pose proof (Z.mod_pos_bound t_s (duty_wake_every_s d)). lia.
  - pose proof (adaptive_step_output a t_s lm ltx) as Hout.
    destruct (AdaptiveThresholdPolicy_step a t_s lm ltx) as [out a'] eqn:Hs.
    simpl in Hout.
    destruct Hout as (Haw & _ & _ & Htr & Hsame & _ & Hbase).
    exists out, (Adaptive a'). split; [reflexivity |]. simpl.
    repeat split; try reflexivity; try tauto; try discriminate.
    rewrite Hbase. f_equal.
    unfold AdaptiveThresholdPolicy_step in Hs.
    destruct lm as [m|];
      [destruct (t_s mod adapt_base_every_s a =? 0);
       [destruct (adaptive_decide a t_s m ltx) |] |];
      inversion Hs; reflexivity.
Qed.

(** Every step of a policy of the package returns a decision, in which
    [take_sample] is only true with [awake] and [transmit] only with
    [take_sample]; the policy object keeps its class and its periods: a
    fixed or a duty-cycling object is unchanged, and an adaptive object
    keeps its period, threshold and silence bound, and keeps its memory
    too when the decision has [transmit] false. *)
Theorem package_policy_discipline (p : PackagePolicy) (t_s : Z)
    (lm : option F) (ltx : option Z) :
  positive_periods p = true ->
  exists out p',
    step p t_s lm ltx = Ok (out, p') /\
    (take_sample out = true -> awake out = true) /\
    (transmit out = true -> take_sample out = true /\ awake out = true) /\
    positive_periods p' = true /\ lockstep p' = lockstep p /\
    same_settings p p' /\
    (transmit out = false -> p' = p).
Proof.
  intros Hp.
  destruct (package_step p t_s lm ltx)
    as (out & p' & Hs & Hta & Htt & _ & _ & Hl & _ & Hpp & _).
  exists out, p'. rewrite Hpp, Hl.
  do 5 (split; [auto |]).
  destruct p as [f | d | a]; simpl in Hs.
  - inversion Hs; subst. simpl. split; reflexivity.
  - inversion Hs; subst. simpl. split; reflexivity.
  - pose proof (adaptive_step_output a t_s lm ltx) as Hout.
    destruct (AdaptiveThresholdPolicy_step a t_s lm ltx) as [o a'] eqn:E.
    simpl in Hout, Hs. inversion Hs; subst out p'. clear Hs.
    destruct Hout as (_ & _ & _ & _ & Hsame & _).
    split; [| intros Hno; rewrite (Hsame Hno); reflexivity].
    simpl. unfold AdaptiveThresholdPolicy_step in E.
    destruct lm as [m|];
      [destruct (t_s mod adapt_base_every_s a =? 0);
       [destruct (adaptive_decide a t_s m ltx) |] |];
      inversion E; repeat split; reflexivity.
Qed.

Lemma package_reset (p : PackagePolicy) :
  positive_periods (reset p) = positive_periods p /\
  lockstep (reset p) = lockstep p /\
  always_awake (reset p) = always_awake p /\
  (forall f, p = Fixed f -> reset p = p).
Proof.
  destruct p; simpl; repeat split; try reflexivity;
    intros f Hf; discriminate Hf.
Qed.

Section PackageRuns.

Variable cfg : @NodeConfig F.
Variable energy : @EnergyModel F.

(** What the body of the loop does with a decision in which [transmit]
    comes with [take_sample] and [take_sample] with [awake]. *)
Lemma sending_when_sampling (st : loop_state (@PackagePolicy F)) (gt : F)
    (out : PolicyOutput) :
  (take_sample out = true -> awake out = true) ->
  (transmit out = true -> take_sample out = true) ->
  sending cfg st gt out = transmit out /\
  (transmit out = true -> sampling out = true).
Proof.
  intros Hta Htt. unfold sending, last_measurement_of, mval_of, sampling.
  destruct (transmit out) eqn:Htx.
  - rewrite (Htt eq_refl), (Hta (Htt eq_refl)). simpl. split; reflexivity.
  - rewrite andb_false_r. split; [reflexivity | discriminate].
Qed.

Lemma tick_package (i : Z) (st st' : loop_state (@PackagePolicy F)) :
  tick cfg energy i st = Ok st' ->
  exists now_s gt out,
    fround (fmul (of_Z i) (dt_s cfg)) = Some now_s /\
    step (st_policy st) now_s (st_last_measurement st) (st_last_tx_s st)
      = Ok (out, st_policy st') /\
    st_t st' = st_t st ++ [now_s] /\
    st_measured st' = st_measured st ++ [mval_of cfg st gt out] /\
    st_sent st' = st_sent st ++ [transmit out] /\
    (transmit out = true -> sampling out = true) /\
    st_e_idle st' =
      (if awake out then fadd (st_e_idle st) (e_idle_awake energy (dt_s cfg))
       else st_e_idle st) /\
    st_e_sleep st' =
      (if awake out then st_e_sleep st
       else fadd (st_e_sleep st) (e_sleep energy (dt_s cfg))).
Proof.
  intros H. apply tick_ok in H.
  destruct H as (now_s & gt & out & p' & Hc & Ha).
  apply consult_ok in Hc. destruct Hc as (Hnow & _ & Hstep).
  pose proof (account_lists _ _ _ _ _ _ _ Ha)
    as (Ht & _ & Hm & Hs & _ & _ & Hpol).
  pose proof (account_energy _ _ _ _ _ _ _ Ha) as (Hi & Hsl & _).
  destruct (package_step (st_policy st) now_s (st_last_measurement st)
              (st_last_tx_s st)) as (out0 & p0 & Hs0 & Hta & Htt & _).
  rewrite Hstep in Hs0. inversion Hs0; subst out0 p0.
  destruct (sending_when_sampling st gt out Hta Htt) as (Hsend & Hsam).
  exists now_s, gt, out. rewrite Hpol, <- Hsend.
  repeat split; try assumption. rewrite Hsend. exact Hsam.
Qed.

Lemma tick_periods_kept (i : Z) (st st' : loop_state (@PackagePolicy F)) :
  periods_kept st -> tick cfg energy i st = Ok st' -> periods_kept st'.
Proof.
  unfold periods_kept. intros Hp H.
  destruct (tick_package _ _ H) as (now_s & gt & out & _ & Hstep & _).
  destruct (package_step (st_policy st) now_s (st_last_measurement st)
              (st_last_tx_s st))
    as (out0 & p0 & Hs0 & _ & _ & _ & _ & _ & _ & Hpp & _).
  rewrite Hstep in Hs0. inversion Hs0; subst. rewrite Hpp. exact Hp.
Qed.

Lemma tick_samples_when_sent (i : Z) (st st' : loop_state (@PackagePolicy F)) :
  samples_when_sent st -> tick cfg energy i st = Ok st' ->
  samples_when_sent st'.
Proof.
  intros (Hp & Hall) H. split; [eapply tick_periods_kept; eassumption |].
  destruct (tick_package _ _ H)
    as (now_s & gt & out & _ & _ & _ & Hm & Hs & Hsam & _).
  rewrite Hm, Hs. apply Forall2_app; [exact Hall |].
  constructor; [| constructor].
  intros Htx. rewrite is_some_mval_of. exact (Hsam Htx).
Qed.

Lemma tick_sends_when_samples (i : Z) (st st' : loop_state (@PackagePolicy F)) :
  sends_when_samples st -> tick cfg energy i st = Ok st' ->
  sends_when_samples st'.
Proof.
  intros (Hp & Hl & Heq) H. split; [eapply tick_periods_kept; eassumption |].
  destruct (tick_package _ _ H)
    as (now_s & gt & out & _ & Hstep & _ & Hm & Hs & Hsam & _).
  destruct (package_step (st_policy st) now_s (st_last_measurement st)
              (st_last_tx_s st))
    as (out0 & p0 & Hs0 & Hta & _ & Hlock & _ & Hl' & _).
  rewrite Hstep in Hs0. inversion Hs0; subst out0 p0.
  split; [rewrite Hl'; exact Hl |].
  rewrite Hm, Hs, map_app, Heq. cbn [map]. rewrite is_some_mval_of.
  f_equal. f_equal. unfold sampling. rewrite (Hlock Hl).
  destruct (take_sample out) eqn:Htake.
  - rewrite (Hta eq_refl). reflexivity.
  - rewrite andb_false_r. reflexivity.
Qed.

Lemma tick_never_slept (i : Z) (st st' : loop_state (@PackagePolicy F)) :
  never_slept cfg energy st -> tick cfg energy i st = Ok st' ->
  never_slept cfg energy st'.
Proof.
  intros (Hp & Haw & Hsl & Hid) H.
  split; [eapply tick_periods_kept; eassumption |].
  destruct (tick_package _ _ H)
    as (now_s & gt & out & _ & Hstep & Ht & _ & _ & _ & Hi' & Hs').
  destruct (package_step (st_policy st) now_s (st_last_measurement st)
              (st_last_tx_s st))
    as (out0 & p0 & Hs0 & _ & _ & _ & Hawake & _ & Haw' & _).
  rewrite Hstep in Hs0. inversion Hs0; subst out0 p0.
  rewrite Haw', Hi', Hs', Ht, (Hawake Haw Hp), length_app, Nat.add_1_r.
  cbn [accumulate]. rewrite Hsl, Hid. repeat split; try reflexivity.
  exact Haw.
Qed.

Lemma tick_samples_on_multiples (n i : Z) (st st' : loop_state (@PackagePolicy F)) :
  samples_on_multiples n st -> tick cfg energy i st = Ok st' ->
  samples_on_multiples n st'.
Proof.
  intros (Hpol & Heq) H.
  destruct (tick_package _ _ H)
    as (now_s & gt & out & _ & Hstep & Ht & Hm & _).
  destruct (package_step (st_policy st) now_s (st_last_measurement st)
              (st_last_tx_s st))
    as (out0 & p0 & Hs0 & _ & _ & _ & _ & _ & _ & _ & Hfixed).
  rewrite Hstep in Hs0. inversion Hs0; subst out0 p0.
  destruct (Hfixed _ Hpol) as (Hsame & Haw & Htake).
  split; [rewrite Hsame; exact Hpol |].
  rewrite Hm, Ht. repeat rewrite map_app. rewrite Heq. cbn [map].
  rewrite is_some_mval_of. unfold sampling. rewrite Haw, Htake.
  reflexivity.
Qed.

End PackageRuns.

Lemma most_recent_at (acc : option F) (l : list (option F)) (i : nat)
    (m : F) :
  nth_error l i = Some (Some m) -> most_recent acc (firstn (S i) l) = Some m.
Proof.
  revert acc i. induction l as [|x l IH]; intros acc i H.
  - destruct i; discriminate H.
  - destruct i as [|i]; simpl in H.
    + inversion H; subst. reflexivity.
    + change (firstn (S (S i)) (x :: l)) with (x :: firstn (S i) l).
      destruct x; simpl; apply IH; exact H.
Qed.

Lemma sent_flags_bounded (ss : list bool) (ms : list (option F)) :
  Forall2 (fun (s : bool) (m : option F) => s = true -> is_some m = true)
          ss ms ->
  (count_true ss <= count_present ms)%nat /\
  forall i, nth_error ss i = Some true ->
    exists m, nth_error ms i = Some (Some m).
Proof.
  unfold count_true, count_present.
  induction 1 as [|s m ss ms Hsm Hrest (IHc & IHn)]; simpl.
  - split; [lia |]. intros i Hi. destruct i; discriminate Hi.
  - split.
    + destruct s; simpl; [rewrite (Hsm eq_refl); simpl; lia |].
      destruct (is_some m); simpl; lia.
    + intros [|i] Hi; simpl in *.
      * inversion Hi; subst. destruct m as [x|]; [exists x; reflexivity |].
        discriminate (Hsm eq_refl).
      * apply IHn. exact Hi.
Qed.

(** In a run of a policy of the package a packet is only recorded at a
    tick that took a sample, and what the receiver then shows is the
    sample of that very tick; so no run sends more packets than it takes
    samples. *)
Theorem package_packet_carries_own_sample (p : @PackagePolicy F)
    (cfg : @NodeConfig F) (energy : @EnergyModel F) (ambient : rng)
    (r : SimResult) (p' : @PackagePolicy F) (g' : rng) :
  positive_periods p = true ->
  simulate p cfg energy ambient = Ok (r, p', g') ->
  (forall i, nth_error (sent r) i = Some true ->
     exists m, nth_error (measured r) i = Some (Some m) /\
               nth_error (reconstructed r) i = Some m) /\
  packets_sent r <= samples_taken r.
Proof.
  intros Hp H.
  destruct (simulate_invariant
              (fun st => samples_when_sent st /\ shows_latest st /\
                         counts_agree energy st)
              p cfg energy ambient)
    with (r := r) (policy' := p') (g' := g')
    as (st & ((_ & Hall) & (_ & _ & _ & Hshow) & (Hs & Hpk & _)) & Hfin & _).
  - intros s0 Hs0. destruct (enter_ok _ _ Hs0) as (rv & _ & ->).
    split; [| split].
    + split; [| constructor]. unfold periods_kept.
      cbn [st_policy initial_state].
      destruct (package_reset p) as (-> & _). exact Hp.
    + repeat split; try reflexivity.
      intros k Hk. simpl in Hk. destruct k; discriminate Hk.
    + repeat split; reflexivity.
  - intros i s s' (H1 & H2 & H3) Ht. split; [| split].
    + eapply tick_samples_when_sent; eassumption.
    + eapply tick_shows_latest; eassumption.
    + eapply tick_counts_agree; eassumption.
  - exact H.
  - apply finish_ok in Hfin.
    destruct Hfin as (_ & _ & -> & -> & -> & -> & -> & _).
    destruct (sent_flags_bounded Hall) as (Hle & Hnth).
    split; [| rewrite Hs, Hpk; lia].
    intros i Hi. destruct (Hnth i Hi) as (m & Hm). exists m.
    split; [exact Hm |].
    destruct (Hshow i Hi) as (m' & Hmost & Hrec).
    rewrite (most_recent_at None _ _ Hm) in Hmost. inversion Hmost; subst.
    exact Hrec.
Qed.

(** A run of the fixed or of the duty-cycling policy sends a packet at
    exactly the ticks at which it takes a sample. *)
Theorem lockstep_run (p : @PackagePolicy F) (cfg : @NodeConfig F)
    (energy : @EnergyModel F) (ambient : rng) (r : SimResult)
    (p' : @PackagePolicy F) (g' : rng) :
  positive_periods p = true ->
  lockstep p = true ->
  simulate p cfg energy ambient = Ok (r, p', g') ->
  sent r = map is_some (measured r) /\ packets_sent r = samples_taken r.
Proof.
  intros Hp Hl H.
  destruct (simulate_invariant
              (fun st => sends_when_samples st /\ counts_agree energy st)
              p cfg energy ambient)
    with (r := r) (policy' := p') (g' := g')
    as (st & ((_ & _ & Heq) & (Hs & Hpk & _)) & Hfin & _).
  - intros s0 Hs0. destruct (enter_ok _ _ Hs0) as (rv & _ & ->).
    destruct (package_reset p) as (Hpr & Hlr & _).
    split; [| repeat split; reflexivity].
    unfold sends_when_samples, periods_kept.
    cbn [st_policy st_sent st_measured initial_state]. rewrite Hpr, Hlr.
    repeat split; assumption || reflexivity.
  - intros i s s' (H1 & H2) Ht. split.
    + eapply tick_sends_when_samples; eassumption.
    + eapply tick_counts_agree; eassumption.
  - exact H.
  - apply finish_ok in Hfin.
    destruct Hfin as (_ & _ & -> & -> & _ & -> & -> & _).
    split; [exact Heq |].
    rewrite Hs, Hpk, Heq. f_equal. unfold count_true, count_present.
    clear. induction (st_measured st) as [|m l IH]; simpl; [reflexivity |].
    destruct (is_some m); simpl; rewrite IH; reflexivity.
Qed.

(** A run of a policy that is awake at every tick (the fixed one, the
    adaptive one, a duty-cycling one whose window covers its period)
    leaves the sleep energy at its initial [0.0] and adds the idle energy
    of one time step at each tick. *)
Theorem always_awake_never_sleeps (p : @PackagePolicy F)
    (cfg : @NodeConfig F) (energy : @EnergyModel F) (ambient : rng)
    (r : SimResult) (p' : @PackagePolicy F) (g' : rng) :
  positive_periods p = true ->
  always_awake p = true ->
  simulate p cfg energy ambient = Ok (r, p', g') ->
  lookup "sleep" (energy_breakdown_mj r) = Some (of_Q 0) /\
  lookup "idle_awake" (energy_breakdown_mj r)
    = Some (accumulate (length (t r)) (e_idle_awake energy (dt_s cfg))).
Proof.
  intros Hp Haw H.
  destruct (simulate_invariant (never_slept cfg energy) p cfg energy ambient)
    with (r := r) (policy' := p') (g' := g')
    as (st & (_ & _ & Hsl & Hid) & Hfin & _).
  - intros s0 Hs0. destruct (enter_ok _ _ Hs0) as (rv & _ & ->).
    destruct (package_reset p) as (Hpr & _ & Har & _).
    unfold never_slept, periods_kept.
    cbn [st_policy st_e_sleep st_e_idle st_t initial_state]. rewrite Hpr, Har.
    repeat split; assumption || reflexivity.
  - intros i s s'. apply tick_never_slept.
  - exact H.
  - apply finish_ok in Hfin.
    destruct Hfin as (-> & _ & _ & _ & _ & _ & _ & -> & _).
    simpl. rewrite Hsl, Hid. split; reflexivity.
Qed.

(** ** Runs of the policies that [main.py] builds *)

Lemma build_policy_periods (policy : string) (cfg : @NodeConfig F) :
  positive_periods (build_policy policy cfg) = true.
Proof.
  unfold build_policy.
  destruct (String.eqb policy "fixed"); [reflexivity |].
  destruct (String.eqb policy "duty"); [reflexivity |].
  simpl. apply Z.leb_le. lia.
Qed.

Lemma py_range_head (n : Z) : 0 < n -> exists rest, py_range n = 0 :: rest.
Proof.
  intros Hn. destruct (@py_range_split 0 n) as (rest & Hrest); [simpl; lia |].
  exists rest. exact Hrest.
Qed.

(** At time 0 a fixed or a duty-cycling policy is awake, samples and
    transmits. *)
Lemma lockstep_step_zero (p : @PackagePolicy F) (lm : option F)
    (ltx : option Z) :
  lockstep p = true -> positive_periods p = true ->
  exists out p',
    step p 0 lm ltx = Ok (out, p') /\
    awake out = true /\ take_sample out = true /\ transmit out = true.
Proof.
  intros Hl Hp. destruct p as [f | d | a]; simpl in *; try discriminate Hl.
  - eexists _, _. split; [reflexivity |]. simpl. repeat rewrite Zmod_0_l.
    repeat split; reflexivity.
  - eexists _, _. split; [reflexivity |]. simpl. repeat rewrite Zmod_0_l.
    apply andb_true_iff in Hp. destruct Hp as (Hp & _).
    apply andb_true_iff in Hp. destruct Hp as (_ & Hw).
    apply Z.leb_le in Hw.
    assert ((0 <? duty_awake_window_s d) = true) as -> by (apply Z.ltb_lt; lia).
    repeat split; reflexivity.
Qed.

Section Arithmetic.

Context {EA : @ExactArith F FL}.

(** [main.py] gets a result from [simulate] for each of its three policy
    names, whenever the time step and the bit rate are not zero: the
    policy that [build_policy] returns has positive periods and none of
    its steps raises. *)
Theorem build_policy_run_returns (policy : string) (cfg : @NodeConfig F)
    (energy : @EnergyModel F) (ambient : rng) :
  feqb (dt_s cfg) (of_Q 0) = false ->
  feqb (bitrate_bps energy) (of_Q 0) = false ->
  positive_periods (build_policy policy cfg) = true /\
  exists r p' g',
    simulate (build_policy policy cfg) cfg energy ambient = Ok (r, p', g').
Proof.
  intros Hdt Hbit. split; [apply build_policy_periods |].
  apply simulate_returns; try assumption.
  intros p t_s lm ltx.
  destruct (package_step p t_s lm ltx) as (out & p' & Hs & _).
  exists out, p'. exact Hs.
Qed.

(** With a bit rate of zero, a time step of one second and a duration
    that is not negative, a run of the fixed or of the duty-cycling
    policy raises [ZeroDivisionError]: tick 0 transmits. *)
Theorem lockstep_zero_bitrate_raises (p : @PackagePolicy F)
    (cfg : @NodeConfig F) (energy : @EnergyModel F) (ambient : rng) :
  positive_periods p = true ->
  lockstep p = true ->
  feqb (bitrate_bps energy) (of_Q 0) = true ->
  dt_s cfg = of_Q 1 ->
  0 <= duration_s cfg ->
  simulate p cfg energy ambient = Raise ZeroDivisionError.
Proof.
  intros Hp Hl Hbit Hdt Hdur.
  destruct (package_reset p) as (Hpr & Hlr & _).
  rewrite <- Hpr in Hp. rewrite <- Hlr in Hl.
  destruct (lockstep_step_zero (reset p) None None Hl Hp)
    as (out & p' & Hstep & Haw & Htake & Htx).
  destruct (py_range_head (n := duration_s cfg + 1)) as (rest & Hrange);
    [lia |].
  unfold simulate. rewrite enter_total. cbn [bind].
  rewrite py_div_nonzero by (rewrite Hdt; apply one_nonzero). cbn [bind].
  unfold py_int. rewrite Hdt, trunc_unit_quot. cbn [of_option bind].
  rewrite Hrange. cbn [run_ticks].
  unfold tick, consult, py_round.
  rewrite Hdt, (round_unit_step 0). cbn [of_option bind].
  rewrite ground_truth_total. cbn [bind].
  cbn [st_policy st_last_measurement st_last_tx_s initial_state].
  rewrite Hstep. cbn [bind].
  unfold account, e_tx, py_div. rewrite Haw, Htake, Htx, Hbit. reflexivity.
Qed.

Lemma filter_map_length {A} (f : A -> bool) (l : list A) :
  length (filter (fun b => b) (map f l)) = length (filter f l).
Proof.
  induction l as [|x l IH]; simpl; [reflexivity |].
  destruct (f x); simpl; rewrite IH; reflexivity.
Qed.

Lemma div_succ (n a : Z) :
  1 <= n -> 0 <= a ->
  (a + 1) / n = a / n + (if (a + 1) mod n =? 0 then 1 else 0).
Proof.
  intros Hn Ha.
  pose proof (Z.div_mod a n ltac:(lia)) as E1.
  pose proof (Z.div_mod (a + 1) n ltac:(lia)) as E2.
  pose proof (Z.mod_pos_bound a n ltac:(lia)) as B1.
  pose proof (Z.mod_pos_bound (a + 1) n ltac:(lia)) as B2.
  destruct ((a + 1) mod n =? 0) eqn:Hz.
  - apply Z.eqb_eq in Hz. nia.
  - apply Z.eqb_neq in Hz. nia.
Qed.

(** The number of multiples of [n] among [0, 1, ..., d]. *)
Lemma multiples_in_range (n : Z) (d : nat) :
  1 <= n ->
  Z.of_nat (length (filter (fun x => x mod n =? 0) (py_range (Z.of_nat (S d)))))
  = Z.of_nat d / n + 1.
Proof.
  intros Hn. induction d as [|d IH].
  - change (py_range (Z.of_nat 1)) with [0]. cbn [filter].
    rewrite Zmod_0_l. change (Z.of_nat 0) with 0. rewrite Zdiv_0_l.
    reflexivity.
  - rewrite py_range_succ, filter_app, length_app, Nat2Z.inj_add, IH.
    replace (Z.of_nat (S d)) with (Z.of_nat d + 1) by lia.
    rewrite (div_succ Hn) by lia. cbn [filter].
    destruct ((Z.of_nat d + 1) mod n =? 0); simpl; lia.
Qed.

(** A run of the fixed policy over [duration_s] seconds with a time step
    of one second takes [duration_s // sample_every_s + 1] samples and
    sends as many packets. *)
Theorem fixed_run_count (sample_every : Z) (cfg : @NodeConfig F)
    (energy : @EnergyModel F) (ambient : rng) (r : SimResult)
    (p' : @PackagePolicy F) (g' : rng) :
  dt_s cfg = of_Q 1 ->
  0 <= duration_s cfg ->
  simulate (Fixed (FixedSamplingPolicy_init sample_every)) cfg energy ambient
    = Ok (r, p', g') ->
  samples_taken r = duration_s cfg / Z.max 1 sample_every + 1 /\
  packets_sent r = duration_s cfg / Z.max 1 sample_every + 1.
Proof.
  intros Hdt Hdur H.
  destruct (simulate_unit_step _ _ _ _ Hdt H) as (Ht & _).
  destruct (simulate_invariant
              (fun st => samples_on_multiples (Z.max 1 sample_every) st /\
                         sends_when_samples st /\ counts_agree energy st)
              (Fixed (FixedSamplingPolicy_init sample_every)) cfg energy
              ambient)
    with (r := r) (policy' := p') (g' := g')
    as (st & ((_ & Hmul) & (_ & _ & Heq) & (Hs & Hpk & _)) & Hfin & _).
  - intros s0 Hs0. destruct (enter_ok _ _ Hs0) as (rv & _ & ->).
    split; [| split]; repeat split; try reflexivity.
    unfold periods_kept. simpl. apply Z.leb_le. lia.
  - intros i s s' (H1 & H2 & H3) Hti. split; [| split].
    + eapply tick_samples_on_multiples; eassumption.
    + eapply tick_sends_when_samples; eassumption.
    + eapply tick_counts_agree; eassumption.
  - exact H.
  - apply finish_ok in Hfin.
    destruct Hfin as (Htr & _ & _ & _ & _ & -> & -> & _).
    assert (Z.of_nat (count_present (st_measured st))
            = duration_s cfg / Z.max 1 sample_every + 1) as Hcount.
    { unfold count_present.
      rewrite <- filter_map_length, Hmul, <- Htr, Ht, filter_map_length.
      replace (duration_s cfg + 1)
        with (Z.of_nat (S (Z.to_nat (duration_s cfg)))) by lia.
      rewrite multiples_in_range by lia. rewrite Z2Nat.id by lia.
      reflexivity. }
    split; [rewrite Hs; exact Hcount |].
    rewrite Hpk, Heq. rewrite <- Hcount. f_equal.
    unfold count_true, count_present. apply filter_map_length.
Qed.

End Arithmetic.

(** ** The duty-cycling policy beside the fixed one *)

(** A duty-cycling policy only samples at times at which the fixed
    policy of the same sampling period samples; it samples at all of them
    when its wake period divides its sampling period; and when its window
    covers its wake period it is the fixed policy. *)
Theorem duty_cycling_beside_fixed (wake_every awake_window sample_every : Z)
    (t_s : Z) (lm : option F) (ltx : option Z) :
  let duty := DutyCyclingPolicy_step
                (DutyCyclingPolicy_init wake_every awake_window sample_every)
                t_s lm ltx in
  let fixed := FixedSamplingPolicy_step
                 (FixedSamplingPolicy_init sample_every) t_s lm ltx in
  (take_sample duty = true -> take_sample fixed = true) /\
  (Z.max 1 sample_every mod Z.max 1 wake_every = 0 ->
   take_sample duty = take_sample fixed /\ transmit duty = transmit fixed) /\
  (Z.max 1 wake_every <= Z.max 1 awake_window -> duty = fixed).
Proof.
  intros duty fixed. subst duty fixed.
  unfold DutyCyclingPolicy_step, FixedSamplingPolicy_step,
    DutyCyclingPolicy_init, FixedSamplingPolicy_init. simpl.
  split; [| split].
  - intros H. apply andb_true_iff in H. tauto.
  - intros Hdiv.
    assert ((t_s mod Z.max 1 sample_every =? 0) = true ->
            (t_s mod Z.max 1 wake_every <? Z.max 1 awake_window) = true) as Hup.
    { intros Hz. apply Z.eqb_eq in Hz. apply Z.ltb_lt.
      apply Z.mod_divide in Hz; [| lia]. apply Z.mod_divide in Hdiv; [| lia].
      assert ((Z.max 1 wake_every | t_s)) as Hw
        by (eapply Z.divide_trans; eassumption).
      apply Z.mod_divide in Hw; [| lia]. rewrite Hw. lia. }
    destruct (t_s mod Z.max 1 sample_every =? 0) eqn:Hs.
    + rewrite (Hup eq_refl). split; reflexivity.
    + rewrite andb_false_r. split; reflexivity.
  - intros Hcover.
    assert ((t_s mod Z.max 1 wake_every <? Z.max 1 awake_window) = true) as ->.
    { apply Z.ltb_lt.
      pose proof (Z.mod_pos_bound t_s (Z.max 1 wake_every)). lia. }
    reflexivity.
Qed.

(** ** The adaptive policy: keep-alive and memory *)

Section AdaptiveMemory.

Variable cfg : @NodeConfig F.
Variable energy : @EnergyModel F.

Lemma tick_tx_after_measurement {P : Type} {PL : @Policy F P} (i : Z)
    (st st' : loop_state P) :
  tx_after_measurement st -> tick cfg energy i st = Ok st' ->
  tx_after_measurement st'.
Proof.
  intros (Htr & Hinv) H.
  split; [eapply tick_tracks_measured; eassumption |].
  apply tick_ok in H. destruct H as (now_s & gt & out & p' & _ & Ha).
  pose proof (account_lists _ _ _ _ _ _ _ Ha)
    as (_ & _ & _ & _ & _ & Hlm & _).
  pose proof (account_counters _ _ _ _ _ _ _ Ha) as (_ & _ & Hltx & _).
  rewrite Hlm, Hltx. unfold sending.
  destruct (is_some (last_measurement_of cfg st gt out)) eqn:Hsome;
    [intros _; reflexivity |].
  rewrite andb_false_r. intros Hl. specialize (Hinv Hl).
  unfold last_measurement_of, mval_of in Hsome.
  destruct (sampling out); [discriminate Hsome |].
  rewrite Hinv in Hsome. discriminate Hsome.
Qed.

(** What the adaptive policy remembers after a step that transmits, and
    when the keep-alive rule alone makes it transmit. *)
Lemma adaptive_step_memory (p : @AdaptiveThresholdPolicy F) (t_s : Z)
    (lm : option F) (ltx : option Z) :
  let out := fst (AdaptiveThresholdPolicy_step p t_s lm ltx) in
  let p' := snd (AdaptiveThresholdPolicy_step p t_s lm ltx) in
  (transmit out = true -> adapt_last_tx_value p' = lm) /\
  adapt_max_silence_s p' = adapt_max_silence_s p /\
  (forall m l, lm = Some m -> ltx = Some l ->
     t_s mod adapt_base_every_s p = 0 ->
     adapt_max_silence_s p <= t_s - l -> transmit out = true).
Proof.
  unfold AdaptiveThresholdPolicy_step.
  destruct lm as [m|]; simpl.
  - destruct (t_s mod adapt_base_every_s p =? 0) eqn:Hmod; simpl.
    + destruct (adaptive_decide p t_s m ltx) eqn:Hdec; simpl;
        repeat split; try reflexivity; try discriminate.
      intros m0 l _ Hl _ Hgap. subst ltx. unfold adaptive_decide in Hdec.
      assert ((t_s - l >=? adapt_max_silence_s p) = true) as Hge
        by (apply Z.geb_le; exact Hgap).
      rewrite Hge in Hdec.
      destruct (match adapt_last_tx_value p with
                | Some v => fgeb (fabs (fsub m v)) (adapt_threshold p)
                | None => true
                end); simpl in Hdec; discriminate Hdec.
    + repeat split; try reflexivity; try discriminate.
      intros m0 l _ _ Hz. rewrite Hz in Hmod. discriminate Hmod.
  - repeat split; try reflexivity; discriminate.
Qed.

(** The keep-alive rule: at a sampling tick that comes [max_silence_s]
    seconds or more after the last packet, the adaptive policy asks for a
    transmission whatever the measurements are. *)
Theorem adaptive_keep_alive (self : @AdaptiveThresholdPolicy F)
    (st0 st : loop_state (@AdaptiveThresholdPolicy F)) (n now_s last : Z) :
  enter self cfg = Ok st0 ->
  run_ticks cfg energy (py_range n) st0 = Ok st ->
  st_last_tx_s st = Some last ->
  now_s mod adapt_base_every_s self = 0 ->
  adapt_max_silence_s self <= now_s - last ->
  exists out p',
    step (st_policy st) now_s (st_last_measurement st) (st_last_tx_s st)
      = Ok (out, p') /\
    take_sample out = true /\ transmit out = true.
Proof.
  intros H0 Hrun Hlast Hmod Hgap.
  destruct (enter_ok _ _ H0) as (rv & _ & Hst0).
  assert (tx_after_measurement st) as (_ & Hinv).
  { eapply run_ticks_invariant; [ | | exact Hrun].
    - intros k s s'. apply tick_tx_after_measurement.
    - rewrite Hst0. split; [reflexivity | intros Hf; discriminate Hf]. }
  pose proof (run_ticks_reset cfg energy _ _ Hrun) as Hreset.
  rewrite Hst0 in Hreset. simpl in Hreset.
  pose proof (f_equal adapt_base_every_s Hreset) as Hbase.
  pose proof (f_equal adapt_max_silence_s Hreset) as Hms.
  simpl in Hbase, Hms.
  rewrite Hlast in Hinv. specialize (Hinv eq_refl).
  destruct (st_last_measurement st) as [m|] eqn:Hlm; [| discriminate Hinv].
  pose proof (adaptive_step_memory (st_policy st) now_s (Some m) (Some last))
    as (_ & _ & Hkeep).
  pose proof (adaptive_step_output (st_policy st) now_s (Some m) (Some last))
    as (_ & _ & _ & Htr & _).
  destruct (AdaptiveThresholdPolicy_step (st_policy st) now_s (Some m)
              (Some last)) as [out p'] eqn:Hstep.
  simpl in Hkeep, Htr.
  exists out, p'. rewrite Hlast.
  assert (transmit out = true) as Htx
    by (apply (Hkeep m last eq_refl eq_refl); [rewrite Hbase | rewrite Hms];
        assumption).
  split; [rewrite <- Hstep; reflexivity |].
  split; [apply Htr; exact Htx | exact Htx].
Qed.

(** When a tick of a run of the adaptive policy sends a packet, the
    packet carries the sample of that tick, while the value the policy
    keeps for its change test is the sample taken before it. *)
Theorem adaptive_remembers_previous_sample (self : @AdaptiveThresholdPolicy F)
    (st0 st st' : loop_state (@AdaptiveThresholdPolicy F)) (n i : Z) :
  enter self cfg = Ok st0 ->
  run_ticks cfg energy (py_range n) st0 = Ok st ->
  tick cfg energy i st = Ok st' ->
  st_packets_sent st' = st_packets_sent st + 1 ->
  adapt_last_tx_value (st_policy st') = most_recent None (st_measured st) /\
  exists m,
    st_measured st' = st_measured st ++ [Some m] /\
    st_last_tx_value st' = Some m /\
    st_reconstructed st' = st_reconstructed st ++ [m].
Proof.
  intros H0 Hrun Htick Hsent.
  destruct (enter_ok _ _ H0) as (rv & _ & Hst0).
  assert (tracks_measured st) as Htr.
  { eapply run_tracks_measured; [| exact Hrun]. rewrite Hst0. reflexivity. }
  apply tick_ok in Htick.
  destruct Htick as (now_s & gt & out & p' & Hc & Ha).
  apply consult_ok in Hc. destruct Hc as (_ & _ & Hstep).
  simpl in Hstep. inversion Hstep as [Hpair]. clear Hstep.
  pose proof (adaptive_step_memory (st_policy st) now_s
                (st_last_measurement st) (st_last_tx_s st)) as (Hmem & _).
  pose proof (adaptive_step_output (st_policy st) now_s
                (st_last_measurement st) (st_last_tx_s st))
    as (Haw & _ & _ & Htake & _).
  rewrite Hpair in Hmem, Haw, Htake. simpl in Hmem, Haw, Htake.
  pose proof (account_lists _ _ _ _ _ _ _ Ha)
    as (_ & _ & Hm & _ & _ & _ & Hpol).
  pose proof (account_counters _ _ _ _ _ _ _ Ha) as (_ & Hpk & _).
  pose proof (account_recon _ _ _ _ _ _ _ Ha) as (Hrv & Hre & Hltv).
  destruct (sending cfg st gt out) eqn:Hsend; [| rewrite Hpk in Hsent; lia].
  assert (transmit out = true) as Htx.
  { unfold sending in Hsend. apply andb_true_iff in Hsend.
    destruct Hsend as (Hsend & _). apply andb_true_iff in Hsend. tauto. }
  destruct (Htake Htx) as (Hts & _).
  split; [rewrite Hpol, (Hmem Htx); exact Htr |].
  assert (sampling out = true) as Hsam
    by (unfold sampling; rewrite Haw, Hts; reflexivity).
  unfold last_measurement_of, mval_of in *. rewrite Hsam in *.
  eexists. rewrite Hm, Hltv, Hre, Hrv. repeat split; reflexivity.
Qed.

End AdaptiveMemory.

(** ** The error metric *)

Lemma finish_mae {P : Type} (st : loop_state P) (r : SimResult) :
  finish st = Ok r ->
  mae r = fdiv (abs_err (of_Q 0) (truth r) (reconstructed r))
               (of_Z (Z.max 1 (Z.of_nat (length (truth r))))).
Proof.
  unfold finish. intros H. apply bind_ok in H. destruct H as (m & Hm & H).
  apply py_div_ok in Hm. destruct Hm as (_ & ->).
  inversion H; subst; simpl. reflexivity.
Qed.

Lemma simulate_mae {P : Type} {PL : @Policy F P}
    (policy : P) (cfg : @NodeConfig F) (energy : @EnergyModel F)
    (ambient : rng) (r : SimResult) (policy' : P) (g' : rng) :
  simulate policy cfg energy ambient = Ok (r, policy', g') ->
  mae r = fdiv (abs_err (of_Q 0) (truth r) (reconstructed r))
               (of_Z (Z.max 1 (Z.of_nat (length (truth r))))).
Proof.
  intros H. apply simulate_ok in H.
  destruct H as (st0 & steps & st & _ & _ & _ & _ & Hfin & _).
  exact (finish_mae _ Hfin).
Qed.

(** The mean absolute error is not negative, in an arithmetic in which
    absolute values are not. *)
Theorem mae_nonneg {EA : @ExactArith F FL} {P : Type} {PL : @Policy F P}
    (policy : P) (cfg : @NodeConfig F) (energy : @EnergyModel F)
    (ambient : rng) (r : SimResult) (policy' : P) (g' : rng) :
  (forall x : F, nonneg (fabs x)) ->
  simulate policy cfg energy ambient = Ok (r, policy', g') ->
  nonneg (mae r).
Proof.
  intros Habs H. rewrite (simulate_mae _ _ _ _ H).
  apply div_nonneg.
  - assert (forall a b acc, nonneg acc -> nonneg (abs_err acc a b)) as Hsum.
    { induction a as [|x a IH]; intros [|y b] acc Hacc; simpl;
        try exact Hacc.
      apply IH. apply add_nonneg; [exact Hacc | apply Habs]. }
    apply Hsum. apply zero_nonneg.
  - apply of_Z_nonneg. lia.
  - apply of_Z_nonzero. lia.
Qed.

(** The mean absolute error is [0.0] when the reconstruction equals the
    ground truth at every tick, in an arithmetic where [abs(x - x)],
    [0.0 + 0.0] and [0.0 / n] are [0.0]. *)
Theorem mae_zero_when_exact {P : Type} {PL : @Policy F P}
    (policy : P) (cfg : @NodeConfig F) (energy : @EnergyModel F)
    (ambient : rng) (r : SimResult) (policy' : P) (g' : rng) :
  (forall x : F, fabs (fsub x x) = of_Q 0) ->
  fadd (of_Q 0) (of_Q 0) = of_Q 0 ->
  (forall n, 1 <= n -> fdiv (of_Q 0) (of_Z n) = of_Q 0) ->
  simulate policy cfg energy ambient = Ok (r, policy', g') ->
  reconstructed r = truth r ->
  mae r = of_Q 0.
Proof.
  intros Hsub Hadd Hdiv H Heq. rewrite (simulate_mae _ _ _ _ H), Heq.
  assert (forall l, abs_err (of_Q 0) l l = of_Q 0) as ->.
  { induction l as [|x l IH]; simpl; [reflexivity |].
    rewrite Hsub, Hadd. exact IH. }
  apply Hdiv. lia.
Qed.

End Further.

(** ** The configuration file *)

Section DictFacts.

Variable V : Type.

Lemma dict_get_set_same (k : string) (v : V) (d : list (string * V)) :
  dict_get k (dict_set k v d) = Some v.
Proof.
  induction d as [|[k' v'] d IH]; simpl.
  - rewrite String.eqb_refl. reflexivity.
  - destruct (String.eqb k k') eqn:E; simpl; rewrite E; [reflexivity | exact IH].
Qed.

Lemma dict_get_set_other (k k' : string) (v : V) (d : list (string * V)) :
  k <> k' -> dict_get k (dict_set k' v d) = dict_get k d.
Proof.
  intros Hne. induction d as [|[k0 v0] d IH]; simpl.
  - apply String.eqb_neq in Hne. rewrite Hne. reflexivity.
  - destruct (String.eqb k' k0) eqn:E; simpl.
    + apply String.eqb_eq in E. subst k0.
      apply String.eqb_neq in Hne. rewrite Hne. reflexivity.
    + destruct (String.eqb k k0); [reflexivity | exact IH].
Qed.

Lemma dict_set_keys (k : string) (v : V) (d : list (string * V)) :
  dict_mem k d = true -> map fst (dict_set k v d) = map fst d.
Proof.
  induction d as [|[k' v'] d IH]; simpl; [discriminate |].
  destruct (String.eqb k k') eqn:E; simpl; [reflexivity |].
  intros H. rewrite IH by exact H. reflexivity.
Qed.

Lemma dict_mem_keys (k : string) (d d' : list (string * V)) :
  map fst d = map fst d' -> dict_mem k d = dict_mem k d'.
Proof.
  revert d'. induction d as [|[k0 v0] d IH]; intros [|[k1 v1] d'] H;
    simpl in *; try discriminate H; [reflexivity |].
  inversion H; subst. rewrite (IH d') by assumption. reflexivity.
Qed.

Lemma override_keys (d data : list (string * V)) :
  map fst (override d data) = map fst d.
Proof.
  unfold override. revert d.
  induction data as [|[k v] data IH]; intros d; simpl; [reflexivity |].
  rewrite IH. destruct (dict_mem k d) eqn:E; [| reflexivity].
  apply dict_set_keys. exact E.
Qed.

Lemma override_absent (k : string) (d data : list (string * V)) :
  ~ In k (map fst data) -> dict_get k (override d data) = dict_get k d.
Proof.
  unfold override. revert d.
  induction data as [|[k0 v0] data IH]; intros d Hnot; simpl;
    [reflexivity |].
  simpl in Hnot. rewrite IH by tauto.
  destruct (dict_mem k0 d); [| reflexivity].
  apply dict_get_set_other. intros Heq. apply Hnot. left. symmetry. exact Heq.
Qed.

Lemma override_present (k : string) (v : V) (d data : list (string * V)) :
  NoDup (map fst data) -> In (k, v) data -> dict_mem k d = true ->
  dict_get k (override d data) = Some v.
Proof.
  revert d. induction data as [|[k0 v0] data IH]; intros d Hnd Hin Hmem;
    [destruct Hin |].
  simpl in Hnd. inversion Hnd as [|? ? Hnotin Hnd']; subst.
  change (override d ((k0, v0) :: data))
    with (override (if dict_mem k0 d then dict_set k0 v0 d else d) data).
  destruct Hin as [Heq | Hin].
  - inversion Heq; subst. rewrite Hmem.
    rewrite override_absent by exact Hnotin. apply dict_get_set_same.
  - apply IH; try assumption.
    destruct (dict_mem k0 d) eqn:E; [| exact Hmem].
    rewrite (dict_mem_keys k (dict_set k0 v0 d) d); [exact Hmem |].
    apply dict_set_keys. exact E.
Qed.

End DictFacts.

Section LoadCfg.

Context {F : Type}.

(** [load_cfg] ignores the keys of the file that are not fields of
    [NodeConfig]: the dictionary it builds the configuration from has the
    ten field names, in their order, whatever the file holds. *)
Theorem load_cfg_keeps_fields (cfg : @NodeConfig F)
    (data : list (string * @field_value F)) :
  map fst (load_cfg_dict cfg data)
  = [ "duration_s"; "dt_s"; "payload_bytes"; "seed"; "signal_base";
      "signal_amp"; "signal_period_s"; "noise_std"; "change_threshold";
      "max_silence_s" ]%string.
Proof. unfold load_cfg_dict. rewrite override_keys. reflexivity. Qed.

(** A field that the file gives takes the value of the file, and a field
    that the file does not give keeps the value of the configuration
    built from the command line. *)
Theorem load_cfg_overrides (cfg : @NodeConfig F)
    (data : list (string * @field_value F)) :
  NoDup (map fst data) ->
  (forall k v, In (k, v) data -> dict_mem k (asdict cfg) = true ->
     dict_get k (load_cfg_dict cfg data) = Some v) /\
  (forall k, ~ In k (map fst data) ->
     dict_get k (load_cfg_dict cfg data) = dict_get k (asdict cfg)).
Proof.
  intros Hnd. unfold load_cfg_dict. split.
  - intros k v Hin Hmem. apply override_present; assumption.
  - intros k Hnot. apply override_absent. exact Hnot.
Qed.

End LoadCfg.

(** * Runs of the package on the rationals *)

Module QExtras.

Import QModel QFacts QPackage.
Local Open Scope Z_scope.

Lemma counters_count_sequences_witness :
  exists r p g,
    simulate duty_10_2_5 short_config default_energy ambient_0 = Ok (r, p, g) /\
    samples_taken r = Z.of_nat (count_present (measured r)) /\
    packets_sent r = Z.of_nat (count_true (sent r)) /\
    packets_sent r <= Z.of_nat (length (t r)).
Proof.
  eexists _, _, _. split; [vm_compute; reflexivity |].
  eapply (@counters_count_sequences Q _ _ _ _ duty_10_2_5 short_config
            default_energy ambient_0).
  vm_compute. reflexivity.
Defined.

Lemma energy_by_counts_witness :
  exists r p g,
    simulate duty_10_2_5 short_config default_energy ambient_0 = Ok (r, p, g) /\
    lookup "sensing" (energy_breakdown_mj r)
      = Some (accumulate (Z.to_nat (samples_taken r)) (e_sense default_energy)) /\
    lookup "cpu" (energy_breakdown_mj r)
      = Some (accumulate (Z.to_nat (samples_taken r)) (e_cpu default_energy)) /\
    (forall cost, e_tx default_energy (payload_bytes short_config) = Ok cost ->
       lookup "tx" (energy_breakdown_mj r)
         = Some (accumulate (Z.to_nat (packets_sent r)) cost)) /\
    exists up down : nat,
      (up + down)%nat = length (t r) /\
      lookup "idle_awake" (energy_breakdown_mj r)
        = Some (accumulate up (e_idle_awake default_energy (dt_s short_config))) /\
      lookup "sleep" (energy_breakdown_mj r)
        = Some (accumulate down (e_sleep default_energy (dt_s short_config))).
Proof.
  eexists _, _, _. split; [vm_compute; reflexivity |].
  eapply (@energy_by_counts Q _ _ _ _ duty_10_2_5 short_config
            default_energy ambient_0).
  vm_compute. reflexivity.
Defined.

Lemma zero_bitrate_sends_nothing_witness :
  feqb (bitrate_bps dead_radio) (of_Q 0) = true /\
  exists r p g,
    simulate adaptive_2_1000_10 brief_config dead_radio ambient_0
      = Ok (r, p, g) /\
    packets_sent r = 0 /\
    (forall i, nth_error (sent r) i <> Some true) /\
    lookup "tx" (energy_breakdown_mj r) = Some (of_Q 0).
Proof.
  split; [reflexivity |].
  eexists _, _, _. split; [vm_compute; reflexivity |].
  eapply (@zero_bitrate_sends_nothing Q _ _ _ _ adaptive_2_1000_10
            brief_config dead_radio ambient_0).
  - reflexivity.
  - vm_compute. reflexivity.
Defined.

Lemma reconstruction_is_hold_witness :
  exists r p g,
    simulate duty_10_2_5 short_config default_energy ambient_0 = Ok (r, p, g) /\
    exists rv0,
      ground_truth 0 short_config = Ok rv0 /\
      reconstructed r = hold (rv0, None) (combine (measured r) (sent r)).
Proof.
  eexists _, _, _. split; [vm_compute; reflexivity |].
  eapply (@reconstruction_is_hold Q _ _ _ _ duty_10_2_5 short_config
            default_energy ambient_0).
  vm_compute. reflexivity.
Defined.

Lemma silent_run_shows_startup_witness :
  exists r p g,
    simulate adaptive_2_1000_10 brief_config default_energy ambient_0
      = Ok (r, p, g) /\
    (forall i, nth_error (sent r) i <> Some true) /\
    exists rv0,
      ground_truth 0 brief_config = Ok rv0 /\
      reconstructed r = repeat rv0 (length (t r)).
Proof.
  eexists _, _, _. split; [vm_compute; reflexivity |].
  assert (forall i : nat, nth_error [false; false] i <> Some true) as Hsilent
    by (intros [|[|[|i]]]; simpl; discriminate).
  split; [exact Hsilent |].
  eapply (@silent_run_shows_startup Q _ _ _ _ adaptive_2_1000_10 brief_config
            default_energy ambient_0).
  - vm_compute. reflexivity.
  - exact Hsilent.
Defined.

Lemma packet_shows_latest_witness :
  exists r p g,
    simulate fixed_5 short_config default_energy ambient_0 = Ok (r, p, g) /\
    nth_error (sent r) 5 = Some true /\
    exists m,
      most_recent None (firstn 6 (measured r)) = Some m /\
      nth_error (reconstructed r) 5 = Some m.
Proof.
  eexists _, _, _. split; [vm_compute; reflexivity |].
  split; [reflexivity |].
  eapply (@packet_shows_latest Q _ _ _ _ fixed_5 short_config
            default_energy ambient_0 _ _ _ 5%nat).
  - vm_compute. reflexivity.
  - reflexivity.
Defined.

Lemma measurements_are_draws_witness :
  exists r p g,
    simulate duty_10_2_5 short_config default_energy ambient_0 = Ok (r, p, g) /\
    sense (noise_std short_config) (rng_seed (seed short_config)) (truth r)
          (map is_some (measured r))
    = (measured r, g).
Proof.
  eexists _, _, _. split; [vm_compute; reflexivity |].
  eapply (@measurements_are_draws Q _ _ _ _ duty_10_2_5 short_config
            default_energy ambient_0).
  vm_compute. reflexivity.
Defined.

Lemma time_axis_witness :
  exists r p g,
    simulate duty_10_2_5 (config 7 (1 # 2) 24 120) default_energy ambient_0
      = Ok (r, p, g) /\
    exists steps,
      ftrunc (fdiv (of_Z 7) (1 # 2)%Q) = Some steps /\
      Forall2 (fun i now_s => fround (fmul (of_Z i) (1 # 2)%Q) = Some now_s)
              (py_range (steps + 1)) (t r) /\
      Forall2 (fun now_s gt =>
                 ground_truth now_s (config 7 (1 # 2) 24 120) = Ok gt)
              (t r) (truth r).
Proof.
  eexists _, _, _. split; [vm_compute; reflexivity |].
  eapply (@time_axis Q _ _ _ _ duty_10_2_5 (config 7 (1 # 2) 24 120)
            default_energy ambient_0).
  vm_compute. reflexivity.
Defined.

Lemma unit_step_time_axis_witness :
  dt_s short_config = of_Q 1 /\
  exists r p g,
    simulate fixed_5 short_config default_energy ambient_0 = Ok (r, p, g) /\
    t r = py_range (duration_s short_config + 1) /\
    truth r = map (fun now_s => signal (omega short_config) now_s short_config)
                  (t r).
Proof.
  split; [reflexivity |].
  eexists _, _, _. split; [vm_compute; reflexivity |].
  eapply (@unit_step_time_axis Q _ _ Q_exact _ _ fixed_5 short_config
            default_energy ambient_0).
  - reflexivity.
  - vm_compute. reflexivity.
Defined.

Lemma package_policy_discipline_witness :
  positive_periods package_duty = true /\
  exists out p',
    step package_duty 10 (@None Q) None = Ok (out, p') /\
    (take_sample out = true -> awake out = true) /\
    (transmit out = true -> take_sample out = true /\ awake out = true) /\
    positive_periods p' = true /\ lockstep p' = lockstep package_duty /\
    same_settings package_duty p' /\
    (transmit out = false -> p' = package_duty).
Proof.
  split; [reflexivity |].
  apply (@package_policy_discipline Q _ package_duty 10 None None).
  reflexivity.
Defined.

Lemma package_packet_carries_own_sample_witness :
  positive_periods package_adaptive = true /\
  exists r p g,
    simulate package_adaptive short_config default_energy ambient_0
      = Ok (r, p, g) /\
    (forall i, nth_error (sent r) i = Some true ->
       exists m, nth_error (measured r) i = Some (Some m) /\
                 nth_error (reconstructed r) i = Some m) /\
    packets_sent r <= samples_taken r.
Proof.
  split; [reflexivity |].
  eexists _, _, _. split; [vm_compute; reflexivity |].
  eapply (@package_packet_carries_own_sample Q _ _ package_adaptive
            short_config default_energy ambient_0).
  - reflexivity.
  - vm_compute. reflexivity.
Defined.

Lemma lockstep_run_witness :
  positive_periods package_duty = true /\
  lockstep package_duty = true /\
  exists r p g,
    simulate package_duty short_config default_energy ambient_0
      = Ok (r, p, g) /\
    sent r = map is_some (measured r) /\ packets_sent r = samples_taken r.
Proof.
  split; [reflexivity |]. split; [reflexivity |].
  eexists _, _, _. split; [vm_compute; reflexivity |].
  eapply (@lockstep_run Q _ _ package_duty short_config default_energy
            ambient_0).
  - reflexivity.
  - reflexivity.
  - vm_compute. reflexivity.
Defined.

Lemma always_awake_never_sleeps_witness :
  positive_periods package_adaptive = true /\
  always_awake package_adaptive = true /\
  exists r p g,
    simulate package_adaptive short_config default_energy ambient_0
      = Ok (r, p, g) /\
    lookup "sleep" (energy_breakdown_mj r) = Some (of_Q 0) /\
    lookup "idle_awake" (energy_breakdown_mj r)
      = Some (accumulate (length (t r))
                (e_idle_awake default_energy (dt_s short_config))).
Proof.
  split; [reflexivity |]. split; [reflexivity |].
  eexists _, _, _. split; [vm_compute; reflexivity |].
  eapply (@always_awake_never_sleeps Q _ _ package_adaptive short_config
            default_energy ambient_0).
  - reflexivity.
  - reflexivity.
  - vm_compute. reflexivity.
Defined.

Lemma build_policy_run_returns_witness :
  feqb (dt_s default_config) (of_Q 0) = false /\
  feqb (bitrate_bps default_energy) (of_Q 0) = false /\
  positive_periods (build_policy "adaptive" default_config) = true /\
  exists r p' g',
    simulate (build_policy "adaptive" default_config) default_config
      default_energy ambient_0 = Ok (r, p', g').
Proof.
  split; [reflexivity |]. split; [reflexivity |].
  apply (@build_policy_run_returns Q _ _ Q_exact "adaptive" default_config
           default_energy ambient_0).
  - reflexivity.
  - reflexivity.
Defined.

Lemma lockstep_zero_bitrate_raises_witness :
  positive_periods package_fixed = true /\
  lockstep package_fixed = true /\
  feqb (bitrate_bps dead_radio) (of_Q 0) = true /\
  dt_s short_config = of_Q 1 /\
  0 <= duration_s short_config /\
  simulate package_fixed short_config dead_radio ambient_0
    = Raise ZeroDivisionError.
Proof.
  split; [reflexivity |]. split; [reflexivity |]. split; [reflexivity |].
  split; [reflexivity |]. split; [simpl; lia |].
  apply (@lockstep_zero_bitrate_raises Q _ _ Q_exact package_fixed short_config
           dead_radio ambient_0).
  - reflexivity.
  - reflexivity.
  - reflexivity.
  - reflexivity.
  - simpl. lia.
Defined.

Lemma fixed_run_count_witness :
  dt_s short_config = of_Q 1 /\
  0 <= duration_s short_config /\
  exists r p g,
    simulate (Fixed (FixedSamplingPolicy_init 5)) short_config default_energy
      ambient_0 = Ok (r, p, g) /\
    samples_taken r = duration_s short_config / Z.max 1 5 + 1 /\
    packets_sent r = duration_s short_config / Z.max 1 5 + 1.
Proof.
  split; [reflexivity |]. split; [simpl; lia |].
  eexists _, _, _. split; [vm_compute; reflexivity |].
  eapply (@fixed_run_count Q _ _ Q_exact 5 short_config default_energy
            ambient_0).
  - reflexivity.
  - simpl. lia.
  - vm_compute. reflexivity.
Defined.

Lemma adaptive_keep_alive_witness :
  exists st0 st,
    enter adaptive_2_1000_10 (config 30 1 24 120) = Ok st0 /\
    run_ticks (config 30 1 24 120) default_energy (py_range 12) st0 = Ok st /\
    st_last_tx_s st = Some 2 /\
    12 mod adapt_base_every_s adaptive_2_1000_10 = 0 /\
    adapt_max_silence_s adaptive_2_1000_10 <= 12 - 2 /\
    exists out p',
      step (st_policy st) 12 (st_last_measurement st) (st_last_tx_s st)
        = Ok (out, p') /\
      take_sample out = true /\ transmit out = true.
Proof.
  eexists _, _.
  split; [vm_compute; reflexivity |].
  split; [vm_compute; reflexivity |].
  split; [reflexivity |]. split; [reflexivity |]. split; [simpl; lia |].
  eapply (@adaptive_keep_alive Q _ _ (config 30 1 24 120) default_energy
            adaptive_2_1000_10 _ _ 12 12 2).
  - vm_compute. reflexivity.
  - vm_compute. reflexivity.
  - reflexivity.
  - reflexivity.
  - simpl. lia.
Defined.

Lemma adaptive_remembers_previous_sample_witness :
  exists st0 st st',
    enter adaptive_2_1000_10 (config 30 1 24 120) = Ok st0 /\
    run_ticks (config 30 1 24 120) default_energy (py_range 12) st0 = Ok st /\
    tick (config 30 1 24 120) default_energy 12 st = Ok st' /\
    st_packets_sent st' = st_packets_sent st + 1 /\
    adapt_last_tx_value (st_policy st') = most_recent None (st_measured st) /\
    exists m,
      st_measured st' = st_measured st ++ [Some m] /\
      st_last_tx_value st' = Some m /\
      st_reconstructed st' = st_reconstructed st ++ [m].
Proof.
  eexists _, _, _.
  split; [vm_compute; reflexivity |].
  split; [vm_compute; reflexivity |].
  split; [vm_compute; reflexivity |].
  split; [reflexivity |].
  eapply (@adaptive_remembers_previous_sample Q _ _ (config 30 1 24 120)
            default_energy adaptive_2_1000_10 _ _ _ 12 12).
  - vm_compute. reflexivity.
  - vm_compute. reflexivity.
  - vm_compute. reflexivity.
  - reflexivity.
Defined.

Lemma abs_nonneg_Q (x : Q) : nonneg (fabs x).
Proof. apply nonneg_iff. apply Qabs_nonneg. Qed.

Lemma mae_nonneg_witness :
  (forall x : Q, nonneg (fabs x)) /\
  exists r p g,
    simulate duty_10_2_5 short_config default_energy ambient_0 = Ok (r, p, g) /\
    nonneg (mae r).
Proof.
  split; [exact abs_nonneg_Q |].
  eexists _, _, _. split; [vm_compute; reflexivity |].
  eapply (@mae_nonneg Q _ _ Q_exact _ _ duty_10_2_5 short_config
            default_energy ambient_0).
  - exact abs_nonneg_Q.
  - vm_compute. reflexivity.
Defined.

Lemma abs_sub_self_Q (x : Q) : fabs (fsub x x) = of_Q 0.
Proof.
  change (Qabs (Qred (x - x)) = 0%Q).
  assert (Qred (x - x) = Qred 0) as -> by (apply Qred_complete; ring).
  reflexivity.
Qed.

Lemma zero_div_Q (n : Z) : 1 <= n -> fdiv (of_Q 0) (of_Z n) = of_Q 0.
Proof.
  intros _. change (Qred (0 / of_Z n) = Qred 0). apply Qred_complete.
  unfold Qdiv. ring.
Qed.

Lemma mae_zero_when_exact_witness :
  (forall x : Q, fabs (fsub x x) = of_Q 0) /\
  fadd (of_Q 0) (of_Q 0) = of_Q 0 /\
  (forall n, 1 <= n -> fdiv (of_Q 0) (of_Z n) = of_Q 0) /\
  exists r p g,
    simulate fixed_1 noiseless_config default_energy ambient_0 = Ok (r, p, g) /\
    reconstructed r = truth r /\
    mae r = of_Q 0.
Proof.
  split; [exact abs_sub_self_Q |]. split; [reflexivity |]. split; [exact zero_div_Q |].
  eexists _, _, _. split; [vm_compute; reflexivity |].
  split; [reflexivity |].
  eapply (@mae_zero_when_exact Q _ _ _ _ fixed_1 noiseless_config
            default_energy ambient_0).
  - exact abs_sub_self_Q.
  - reflexivity.
  - exact zero_div_Q.
  - vm_compute. reflexivity.
  - reflexivity.
Defined.

Lemma file_data_keys : NoDup (map fst file_data).
Proof.
  repeat constructor; simpl; intuition discriminate.
Qed.

Lemma load_cfg_overrides_witness :
  NoDup (map fst file_data) /\
  (forall k v, In (k, v) file_data -> dict_mem k (asdict default_config) = true ->
     dict_get k (load_cfg_dict default_config file_data) = Some v) /\
  (forall k, ~ In k (map fst file_data) ->
     dict_get k (load_cfg_dict default_config file_data)
     = dict_get k (asdict default_config)).
Proof.
  split; [exact file_data_keys |].
  apply (@load_cfg_overrides Q default_config file_data).
  exact file_data_keys.
Defined.

Lemma duty_cycling_beside_fixed_witness :
  let duty := DutyCyclingPolicy_step (DutyCyclingPolicy_init 5 2 10) 10
                (@None Q) None in
  let fixed := FixedSamplingPolicy_step (FixedSamplingPolicy_init 10) 10
                 (@None Q) None in
  (take_sample duty = true -> take_sample fixed = true) /\
  (Z.max 1 10 mod Z.max 1 5 = 0 ->
   take_sample duty = take_sample fixed /\ transmit duty = transmit fixed) /\
  (Z.max 1 5 <= Z.max 1 2 -> duty = fixed).
Proof. apply (@duty_cycling_beside_fixed Q 5 2 10 10 None None). Defined.

End QExtras.
